(** * LegalLens: the document pipeline, embedded and verified

    A shallow embedding of the back end of LegalLens
    (utils/helpers.js, utils/fileStorage.js, utils/rag.js, the file
    utilities and routes/documents.js) together with the properties of
    its text extractor, file list, content store, chunk indexer,
    retriever, rate limit, summarizer, answerer, upload pipeline and
    routes.

    Conventions of the embedding:
    - a JavaScript string is a sequence of UTF-16 code units; the model
      covers the strings whose code units lie in 0..255 (Latin-1) and
      represents them by [string], one [ascii] per code unit;
    - a function that may throw returns a [js_result]; [try]/[catch] is
      [try_catch];
    - module-level mutable objects ([userFiles], [documentContents],
      [storeCache], [summaryCache], [rateLimit.requestCounts]) and the
      files under [uploads/] are fields of an explicit state that every
      operation threads;
    - what the repository does not implement (the PDF and DOCX parsers,
      the text splitter, the embedding store, the generative model, the
      network) is a field of a capability class. *)

From Stdlib Require Import ZArith Ascii String Strings.Byte List Bool Lia.
From Stdlib Require Import Floats Uint63.
From stdpp Require Import base option list gmap strings.

Local Open Scope string_scope.
Local Open Scope nat_scope.
Local Open Scope list_scope.

#[local] Set Warnings "-abstract-large-number".

(** ** JavaScript values and strings *)

Module Js.

(** The outcome of evaluating an expression: a value, or a thrown
    [Error] carrying its [message]. *)
Inductive js_result (A : Type) : Type :=
| Ok (a : A)
| Throw (message : string).
Arguments Ok {A} a.
Arguments Throw {A} message.

Definition bind {A B} (m : js_result A) (f : A -> js_result B) : js_result B :=
  match m with
  | Ok a => f a
  | Throw e => Throw e
  end.

(** [try { body } catch (error) { handler(error.message) }] *)
Definition try_catch {A} (body : js_result A) (handler : string -> js_result A)
  : js_result A :=
  match body with
  | Ok a => Ok a
  | Throw e => handler e
  end.

Definition is_ok {A} (m : js_result A) : bool :=
  match m with Ok _ => true | Throw _ => false end.

(** *** Code units and character classes *)

Definition code (c : ascii) : nat := nat_of_ascii c.

Definition in_range (lo hi : nat) (c : ascii) : bool :=
  (lo <=? code c) && (code c <=? hi).

(** [\s] (and the characters [trim] strips): TAB, LF, VT, FF, CR, SPACE
    and U+00A0 are the white space and line terminators below U+0100. *)
Definition is_space (c : ascii) : bool :=
  in_range 9 13 c || (code c =? 32) || (code c =? 160).

(** [\d] *)
Definition is_digit (c : ascii) : bool := in_range 48 57 c.

Definition is_upper (c : ascii) : bool := in_range 65 90 c.
Definition is_lower (c : ascii) : bool := in_range 97 122 c.

(** [\w] without the [u] flag: [A-Za-z0-9_]. *)
Definition is_word (c : ascii) : bool :=
  is_upper c || is_lower c || is_digit c || (code c =? 95).

(** [\p{L}] below U+0100: the ASCII letters, feminine and masculine
    ordinal indicators, micro sign, and the Latin-1 letters (all of
    U+00C0..U+00FF but the multiplication and division signs). *)
Definition is_letter (c : ascii) : bool :=
  is_upper c || is_lower c || (code c =? 170) || (code c =? 181)
  || (code c =? 186) || in_range 192 214 c || in_range 216 246 c
  || in_range 248 255 c.

(** [\p{N}] below U+0100: digits, superscripts 1 2 3 and the vulgar
    fractions. *)
Definition is_number (c : ascii) : bool :=
  is_digit c || (code c =? 178) || (code c =? 179) || (code c =? 185)
  || in_range 188 190 c.

(** [toLowerCase] on one code unit: A..Z and the Latin-1 capitals
    U+00C0..U+00DE (but U+00D7) move up by 32. *)
Definition lower_char (c : ascii) : ascii :=
  if is_upper c || in_range 192 214 c || in_range 216 222 c
  then ascii_of_nat (code c + 32) else c.

(** Case-insensitive comparison of an input code unit with the pattern
    character [p] of an [/i] regular expression without the [u] flag
    (canonicalisation by simple upper-casing never maps a code unit
    above U+007F onto an ASCII one, so for an ASCII letter [p] only its
    two ASCII cases match). *)
Definition eq_ci (p c : ascii) : bool :=
  if is_upper p || is_lower p
  then Ascii.eqb (lower_char p) (if is_upper c then lower_char c else c)
  else Ascii.eqb p c.

(** *** String primitives *)

Fixpoint toLowerCase (s : string) : string :=
  match s with
  | EmptyString => EmptyString
  | String c s' => String (lower_char c) (toLowerCase s')
  end.

Fixpoint trimStart (s : string) : string :=
  match s with
  | EmptyString => EmptyString
  | String c s' => if is_space c then trimStart s' else s
  end.

Fixpoint trimEnd (s : string) : string :=
  match s with
  | EmptyString => EmptyString
  | String c s' =>
      match trimEnd s' with
      | EmptyString => if is_space c then EmptyString else String c EmptyString
      | t => String c t
      end
  end.

Definition trim (s : string) : string := trimEnd (trimStart s).

(** [!s] for a string: only the empty string is falsy. *)
Definition falsy (s : string) : bool :=
  match s with EmptyString => true | _ => false end.

Definition truthy (s : string) : bool := negb (falsy s).

Fixpoint startsWith (p s : string) : bool :=
  match p, s with
  | EmptyString, _ => true
  | String a p', String b s' => Ascii.eqb a b && startsWith p' s'
  | String _ _, EmptyString => false
  end.

(** [s.includes(sub)] *)
Fixpoint includes (sub s : string) : bool :=
  startsWith sub s
  || match s with
     | EmptyString => false
     | String _ s' => includes sub s'
     end.

(** [s.substring(0, n)] *)
Fixpoint substring0 (n : nat) (s : string) : string :=
  match n, s with
  | S n', String c s' => String c (substring0 n' s')
  | _, _ => EmptyString
  end.

Fixpoint drop (n : nat) (s : string) : string :=
  match n, s with
  | S n', String _ s' => drop n' s'
  | _, _ => s
  end.

(** The last code unit, for [/[.!?]$/]. *)
Fixpoint last_char (s : string) : option ascii :=
  match s with
  | EmptyString => None
  | String c EmptyString => Some c
  | String _ s' => last_char s'
  end.

(** [parts.join(sep)] *)
Fixpoint join (sep : string) (parts : list string) : string :=
  match parts with
  | [] => EmptyString
  | [p] => p
  | p :: rest => p +:+ sep +:+ join sep rest
  end.

(** *** Regular expressions

    The patterns of the source are translated constructor by
    constructor into [regex]; [rmatch] is a backtracking matcher in
    continuation-passing style with JavaScript's priorities (ordered
    alternation, greedy repetition, leftmost match).  [prev] is the code
    unit before the current position, which [\b] and a look-behind
    inspect. *)

Inductive regex : Type :=
| RChar (p : ascii -> bool)     (* one code unit of a class *)
| REps                          (* the empty pattern *)
| RSeq (r1 r2 : regex)
| RAlt (r1 r2 : regex)          (* r1|r2, r1 tried first *)
| RStar (r : regex)             (* r*, greedy *)
| RWordB                        (* \b *)
| RBehind (p : ascii -> bool)   (* (?<=[...]) on one code unit *)
| RBol                          (* ^ without the m flag *)
| REol.                         (* $ without the m flag *)

Definition is_word_opt (o : option ascii) : bool :=
  match o with Some c => is_word c | None => false end.

Definition head_char (s : string) : option ascii :=
  match s with String c _ => Some c | EmptyString => None end.

(** The greedy loop of [r*] for the matcher [m] of [r]: as many
    iterations as possible, each consuming at least one code unit, then
    the continuation; [fuel] bounds the iterations by the length of the
    input. *)
Fixpoint star
    (m : option ascii -> string ->
         (option ascii -> string -> option string) -> option string)
    (k : option ascii -> string -> option string)
    (fuel : nat) (prev : option ascii) (s : string) : option string :=
  match fuel with
  | O => k prev s
  | S fuel' =>
      match m prev s (fun prev' s' =>
              (* an iteration that consumes nothing is rejected *)
              if String.length s' <? String.length s
              then star m k fuel' prev' s' else None) with
      | Some rest => Some rest
      | None => k prev s
      end
  end.

Fixpoint rmatch (r : regex) (prev : option ascii) (s : string)
    (k : option ascii -> string -> option string) : option string :=
  match r with
  | RChar p =>
      match s with
      | String c s' => if p c then k (Some c) s' else None
      | EmptyString => None
      end
  | REps => k prev s
  | RSeq r1 r2 => rmatch r1 prev s (fun prev' s' => rmatch r2 prev' s' k)
  | RAlt r1 r2 =>
      match rmatch r1 prev s k with
      | Some rest => Some rest
      | None => rmatch r2 prev s k
      end
  | RStar r1 => star (rmatch r1) k (String.length s) prev s
  | RWordB =>
      if xorb (is_word_opt prev) (is_word_opt (head_char s)) then k prev s else None
  | RBehind p =>
      match prev with
      | Some c => if p c then k prev s else None
      | None => None
      end
  | RBol => match prev with None => k prev s | Some _ => None end
  | REol => match s with EmptyString => k prev s | String _ _ => None end
  end.

(** The remainder after the match of [r] at the current position. *)
Definition exec (r : regex) (prev : option ascii) (s : string) : option string :=
  rmatch r prev s (fun _ rest => Some rest).

(** The length of the match at the current position.  Every pattern of
    the source consumes at least one code unit, and the scanning
    functions below treat a match of length 0 as no match. *)
Definition match_len (r : regex) (prev : option ascii) (s : string) : option nat :=
  match exec r prev s with
  | Some rest => Some (String.length s - String.length rest)
  | None => None
  end.

Definition ROpt (r : regex) : regex := RAlt r REps.
Definition RPlus (r : regex) : regex := RSeq r (RStar r).

Fixpoint RSeqs (rs : list regex) : regex :=
  match rs with
  | [] => REps
  | [r] => r
  | r :: rs' => RSeq r (RSeqs rs')
  end.

Fixpoint RAlts (r : regex) (rs : list regex) : regex :=
  match rs with
  | [] => r
  | r' :: rs' => RAlt r (RAlts r' rs')
  end.

(** A literal, case-sensitive and case-insensitive. *)
Fixpoint lit (s : string) : regex :=
  match s with
  | EmptyString => REps
  | String c EmptyString => RChar (Ascii.eqb c)
  | String c s' => RSeq (RChar (Ascii.eqb c)) (lit s')
  end.

Fixpoint liti (s : string) : regex :=
  match s with
  | EmptyString => REps
  | String c EmptyString => RChar (eq_ci c)
  | String c s' => RSeq (RChar (eq_ci c)) (liti s')
  end.

(** [one_of "abc"] is the class [[abc]]. *)
Fixpoint one_of (cs : string) (c : ascii) : bool :=
  match cs with
  | EmptyString => false
  | String a cs' => Ascii.eqb a c || one_of cs' c
  end.

(** The first match at or after the current position ([pos] is its
    index): start and end index. *)
Fixpoint search_go (r : regex) (prev : option ascii) (s : string) (pos : nat)
  : option (nat * nat) :=
  match s with
  | EmptyString => None
  | String c s' =>
      match match_len r prev s with
      | Some (S n) => Some (pos, pos + S n)
      | _ => search_go r (Some c) s' (S pos)
      end
  end.

Definition char_before (i : nat) (s : string) : option ascii :=
  match i with
  | O => None
  | S j => String.get j s
  end.

Definition search_from (r : regex) (i : nat) (s : string) : option (nat * nat) :=
  if String.length s <? i then None
  else search_go r (char_before i s) (drop i s) i.

(** [r.test(s)] for a pattern without the [g] flag. *)
Definition test (r : regex) (s : string) : bool :=
  match search_from r 0 s with Some _ => true | None => false end.

(** [r.test(s)] for a pattern with the [g] flag: the search starts at
    [lastIndex], and the call returns the new [lastIndex] (the end of
    the match, or 0 on failure). *)
Definition test_g (r : regex) (lastIndex : nat) (s : string) : bool * nat :=
  match search_from r lastIndex s with
  | Some (_, e) => (true, e)
  | None => (false, 0)
  end.

(** All the matches from the current position on, left to right and
    without overlap; [skip] counts the code units of the match in
    progress that remain to pass. *)
Fixpoint match_all_go (r : regex) (prev : option ascii) (s : string) (skip : nat)
  : list string :=
  match s with
  | EmptyString => []
  | String c s' =>
      match skip with
      | S n => match_all_go r (Some c) s' n
      | O =>
          match match_len r prev s with
          | Some (S n) => substring0 (S n) s :: match_all_go r (Some c) s' n
          | _ => match_all_go r (Some c) s' 0
          end
      end
  end.

(** [Array.from(s.matchAll(r)).map(m => m[0])]: [matchAll] works on a
    copy of [r] that starts at [r.lastIndex]. *)
Definition matchAll (r : regex) (lastIndex : nat) (s : string) : list string :=
  if String.length s <? lastIndex then []
  else match_all_go r (char_before lastIndex s) (drop lastIndex s) 0.

(** [s.replace(r, ...)] for a [g] pattern; [f] maps the text of a match
    to its replacement. *)
Fixpoint replace_go (r : regex) (f : string -> string) (prev : option ascii)
    (s : string) (skip : nat) : string :=
  match s with
  | EmptyString => EmptyString
  | String c s' =>
      match skip with
      | S n => replace_go r f (Some c) s' n
      | O =>
          match match_len r prev s with
          | Some (S n) => f (substring0 (S n) s) +:+ replace_go r f (Some c) s' n
          | _ => String c (replace_go r f (Some c) s' 0)
          end
      end
  end.

Definition replaceAll (r : regex) (f : string -> string) (s : string) : string :=
  replace_go r f None s 0.

(** [s.split(r)]: the pieces between the matches; the head of the
    result is the piece being read. *)
Fixpoint split_go (r : regex) (prev : option ascii) (s : string) (skip : nat)
  : list string :=
  match s with
  | EmptyString => [EmptyString]
  | String c s' =>
      match skip with
      | S n => split_go r (Some c) s' n
      | O =>
          match match_len r prev s with
          | Some (S n) => EmptyString :: split_go r (Some c) s' n
          | _ =>
              match split_go r (Some c) s' 0 with
              | piece :: pieces => String c piece :: pieces
              | [] => [String c EmptyString]
              end
          end
      end
  end.

Definition split (r : regex) (s : string) : list string := split_go r None s 0.

(** [/\s+/] *)
Definition re_spaces : regex := RPlus (RChar is_space).

End Js.

(** ** The data model and the process state *)

Module Data.
Import Js.

(** An entry of a user's file list (the fields the pipeline reads or
    writes). *)
Record fileInfo : Type := {
  id : string;
  originalName : string;
  mimeType : string;
  status : string;
  localPath : option string;
  contentUrl : option string;
  summary : option string;
  hasContent : bool;
  contentLength : option nat;
  processedAt : option Z
}.

(** The object [buildIndex] writes to [chunks.json]. *)
Record chunkIndex : Type := {
  createdAt : Z;
  chunkSize : nat;
  overlap : nat;
  chunks : list string;
  totalChunks : nat
}.

(** A file under [uploads/].  The JSON files are kept as the values
    they serialise ([JSON.parse (JSON.stringify v)] gives [v] back). *)
Inductive blob : Type :=
| Bytes (b : list byte)                 (* an uploaded original *)
| Text (s : string)                     (* [content-<id>.txt], UTF-8 *)
| FilesJson (l : list fileInfo)         (* [files.json] *)
| ChunksJson (d : chunkIndex).          (* [lc-index-<id>/chunks.json] *)

(** What the first argument of [extractTextFromFile] may be. *)
Inductive file_input : Type :=
| InNullish                             (* [undefined] or [null] *)
| InBuffer (b : list byte)
| InString (s : string)
| InOther.                              (* any other (truthy) value *)

(** What [model.generateContent] does: it resolves to a result, whose
    [response.text()] is [text] ([None] when the result or its
    [response] is missing), or it rejects with an error that carries a
    message, an HTTP status and possibly a [QuotaFailure] detail. *)
Inductive gen_outcome : Type :=
| GenResponse (text : option string)
| GenError (message : string) (status : nat) (quotaFailure : bool).

(** The collaborators of the pipeline: parsers, text splitter, vector
    store, generative model, network and environment. *)
Class External : Type := {
  (* [(await pdfLib(buffer)).text || ''] *)
  pdfLib : list byte -> js_result string;
  (* [(await mammoth.extractRawText({ buffer })).value] *)
  mammoth_extractRawText : list byte -> js_result string;
  (* [buffer.toString('utf-8')] *)
  buffer_toString : list byte -> js_result string;
  (* the bytes of a file that was not written from a Buffer *)
  encode_blob : blob -> list byte;
  (* [https.get] as used by [downloadFileToBuffer] *)
  https_get : file_input -> js_result (list byte);
  (* [fetch(url)] followed by [response.text()], [None] when [!response.ok] *)
  fetch_text : string -> js_result (option string);
  (* [process.env.GEMINI_API_KEY] is set *)
  has_api_key : bool;
  (* [splitter.createDocuments([content])] mapped to [pageContent] *)
  createDocuments : nat -> nat -> string -> js_result (list string);
  (* [MemoryVectorStore], built from the chunks by the embedding model *)
  store : Type;
  fromDocuments : list string -> js_result store;
  similaritySearch : store -> string -> Z -> js_result (list string);
  (* [model.generateContent(...)] on a prompt, with [maxOutputTokens] *)
  generateContent : string -> nat -> gen_outcome;
  (* an I/O fault of the file system on a path: [mkdir], [writeFile]
     and [unlink] throw there *)
  io_fails : string -> bool
}.

(** [userFiles] is a plain object ([{}]), read as [userFiles[userId]]:
    a key the object does not own is looked up in [Object.prototype].
    The properties of [Object.prototype], each with the [length] of its
    value (the arity of a function; [Object.prototype] itself, found
    under [__proto__], has none).  All that the code can observe of
    such a value is that it is truthy, that it has none of the methods
    of an array, and its [length]. *)
Definition object_prototype : list (string * option nat) :=
  [("constructor", Some 1); ("__defineGetter__", Some 2);
   ("__defineSetter__", Some 2); ("hasOwnProperty", Some 1);
   ("__lookupGetter__", Some 1); ("__lookupSetter__", Some 1);
   ("isPrototypeOf", Some 1); ("propertyIsEnumerable", Some 1);
   ("toString", Some 0); ("valueOf", Some 0); ("__proto__", None);
   ("toLocaleString", Some 0)].

(** The [length] of the value [Object.prototype] has under [key]. *)
Definition inherited (key : string) : option (option nat) :=
  snd <$> List.find (fun entry => String.eqb entry.1 key) object_prototype.

#[global] Arguments inherited : simpl never.

(** What [userFiles[userId]] may be: an array of entries, or a value
    of [Object.prototype] with its [length]. *)
Inductive js_files : Type :=
| Array (files : list fileInfo)
| NotArray (length : option nat).

(** The message of the [TypeError] for a call of a method that the
    receiver does not have. *)
Definition not_a_function (callee : string) : string :=
  callee +:+ " is not a function".

(** The mutable state of the process and its files.  A path is kept
    relative to the working directory of the process, so that
    [path.join(process.cwd(), p)] and the relative [p] name the same
    file; identifiers are assumed free of path separators.
    [userFiles] holds the own properties of the object, which are the
    arrays this module has assigned. *)
Record state `{External} : Type := {
  userFiles : gmap string (list fileInfo);      (* fileStorage.js *)
  documentContents : gmap string string;        (* fileStorage.js *)
  storeCache : gmap string store;               (* rag.js *)
  summaryCache : gmap string (string * Z);      (* documents.js *)
  requestCounts : gmap string (nat * Z);        (* documents.js *)
  disk : gmap string blob
}.

Section Setters.
Context `{External}.

Definition set_userFiles (st : state) (v : gmap string (list fileInfo)) : state :=
  {| userFiles := v; documentContents := documentContents st;
     storeCache := storeCache st; summaryCache := summaryCache st;
     requestCounts := requestCounts st; disk := disk st |}.

Definition set_documentContents (st : state) (v : gmap string string) : state :=
  {| userFiles := userFiles st; documentContents := v;
     storeCache := storeCache st; summaryCache := summaryCache st;
     requestCounts := requestCounts st; disk := disk st |}.

Definition set_storeCache (st : state) (v : gmap string store) : state :=
  {| userFiles := userFiles st; documentContents := documentContents st;
     storeCache := v; summaryCache := summaryCache st;
     requestCounts := requestCounts st; disk := disk st |}.

Definition set_summaryCache (st : state) (v : gmap string (string * Z)) : state :=
  {| userFiles := userFiles st; documentContents := documentContents st;
     storeCache := storeCache st; summaryCache := v;
     requestCounts := requestCounts st; disk := disk st |}.

Definition set_requestCounts (st : state) (v : gmap string (nat * Z)) : state :=
  {| userFiles := userFiles st; documentContents := documentContents st;
     storeCache := storeCache st; summaryCache := summaryCache st;
     requestCounts := v; disk := disk st |}.

Definition set_disk (st : state) (v : gmap string blob) : state :=
  {| userFiles := userFiles st; documentContents := documentContents st;
     storeCache := storeCache st; summaryCache := summaryCache st;
     requestCounts := requestCounts st; disk := v |}.

(** [userFiles[userId]], [None] for [undefined]: the own property, or
    else the one of [Object.prototype]. *)
Definition userFiles_get (st : state) (userId : string) : option js_files :=
  match userFiles st !! userId with
  | Some files => Some (Array files)
  | None => NotArray <$> inherited userId
  end.

(** A restart of the process: the module-level objects are created
    anew, the files stay. *)
Definition restart (st : state) : state :=
  {| userFiles := ∅; documentContents := ∅; storeCache := ∅;
     summaryCache := ∅; requestCounts := ∅; disk := disk st |}.

(** [fs.existsSync(path)] *)
Definition existsSync (st : state) (path : string) : bool :=
  bool_decide (is_Some (disk st !! path)).

(** [fs.promises.readFile(path)] without an encoding. *)
Definition readFile_bytes (st : state) (path : string) : js_result (list byte) :=
  match disk st !! path with
  | Some (Bytes b) => Ok b
  | Some other => Ok (encode_blob other)
  | None => Throw ("ENOENT: no such file or directory, open '" +:+ path +:+ "'")
  end.

(** [fs.promises.writeFile(path, data)] *)
Definition writeFile (path : string) (data : blob) (st : state)
  : js_result unit * state :=
  if io_fails path
  then (Throw ("EIO: i/o error, open '" +:+ path +:+ "'"), st)
  else (Ok tt, set_disk st (<[path := data]> (disk st))).

(** [fs.promises.unlink(path)] *)
Definition unlink (path : string) (st : state) : js_result unit * state :=
  if io_fails path
  then (Throw ("EIO: i/o error, unlink '" +:+ path +:+ "'"), st)
  else match disk st !! path with
       | Some _ => (Ok tt, set_disk st (delete path (disk st)))
       | None => (Throw ("ENOENT: no such file or directory, unlink '" +:+ path +:+ "'"), st)
       end.

(** [fs.promises.mkdir(dir, { recursive: true })]: directories are not
    part of the model, only the fault is. *)
Definition mkdir (dir : string) : js_result unit :=
  if io_fails dir
  then Throw ("EIO: i/o error, mkdir '" +:+ dir +:+ "'")
  else Ok tt.

End Setters.
End Data.

(** ** utils/helpers.js: the text extractor *)

Module Helpers.
Import Js Data.

Section Extractor.
Context `{External}.

Fixpoint after_last (sep : ascii) (s : string) : option string :=
  match s with
  | EmptyString => None
  | String c s' =>
      match after_last sep s' with
      | Some t => Some t
      | None => if Ascii.eqb c sep then Some s' else None
      end
  end.

Fixpoint strip_trailing (sep : ascii) (s : string) : string :=
  match s with
  | EmptyString => EmptyString
  | String c s' =>
      match strip_trailing sep s' with
      | EmptyString => if Ascii.eqb c sep then EmptyString else String c EmptyString
      | t => String c t
      end
  end.

Definition basename (p : string) : string :=
  let p := strip_trailing "/" p in
  match after_last "/" p with Some b => b | None => p end.

(** [path.extname]: from the last dot of the last segment, unless that
    dot starts the segment or the segment is [..]. *)
Definition extname (p : string) : string :=
  let b := basename p in
  match after_last "." b with
  | None => EmptyString
  | Some e =>
      if (String.length e + 1 =? String.length b) || String.eqb b ".."
      then EmptyString else String "." e
  end.

(** [a || b] on strings. *)
Definition or_else (a b : string) : string := if truthy a then a else b.

Definition extractTextFromPdf (input : list byte) : js_result string :=
  try_catch (pdfLib input)
    (fun message => Throw ("Failed to extract text from PDF: " +:+ message)).

Definition input_falsy (fileInput : file_input) : bool :=
  match fileInput with
  | InNullish => true
  | InString s => falsy s
  | _ => false
  end.

Definition is_http_string (fileInput : file_input) : bool :=
  match fileInput with
  | InString s => startsWith "http://" s || startsWith "https://" s
  | _ => false
  end.

(** The first half of the [try] block: the buffer the input stands for
    and, for a path, the path. *)
Definition read_input (st : state) (fileInput : file_input) (isUrl : bool)
  : js_result (list byte * option string) :=
  if isUrl || is_http_string fileInput then
    bind (https_get fileInput) (fun fileBuffer => Ok (fileBuffer, None))
  else
    match fileInput with
    | InBuffer b => Ok (b, None)
    | InString s =>
        let filePath := s in                      (* path.resolve *)
        if negb (existsSync st filePath)
        then Throw ("File not found: " +:+ filePath)
        else bind (readFile_bytes st filePath)
               (fun fileBuffer => Ok (fileBuffer, Some filePath))
    | _ => Throw "Unsupported input type"
    end.

(** The [switch] on the lower-cased file type. *)
Definition extract_by_type (fileType : string) (fileBuffer : list byte)
  : js_result string :=
  let t := toLowerCase fileType in
  if String.eqb t "application/pdf" || String.eqb t "pdf" then
    extractTextFromPdf fileBuffer
  else if String.eqb t "application/vnd.openxmlformats-officedocument.wordprocessingml.document"
          || String.eqb t "docx" then
    mammoth_extractRawText fileBuffer
  else if String.eqb t "text/plain" || String.eqb t "txt"
          || String.eqb t "md" || String.eqb t "markdown" then
    buffer_toString fileBuffer
  else
    try_catch (buffer_toString fileBuffer)
      (fun _ => Throw ("Unsupported file type: " +:+ fileType)).

(** The [catch] block: the message of the error that is re-thrown. *)
Definition friendly_message (message : string) : string :=
  if includes "unsupported file format" message
     || includes "Invalid PDF structure" message
  then "The file appears to be corrupted or in an unsupported format"
  else if includes "File is empty" message
  then "The file is empty"
  else if includes "File type" message || includes "Unsupported" message
  then message
  else "Failed to process the document".

Definition extractTextFromFile (st : state) (fileInput : file_input)
    (mimeType : string) (isUrl : bool) : js_result string :=
  try_catch
    (if input_falsy fileInput then Throw "File input is required"
     else
       bind (read_input st fileInput isUrl) (fun '(fileBuffer, filePath) =>
         if List.length fileBuffer =? 0 then Throw "File is empty"
         else
           let fileType :=
             or_else mimeType
               (or_else
                  match filePath with
                  | Some p => drop 1 (toLowerCase (extname p))
                  | None => EmptyString
                  end
                  "pdf") in
           extract_by_type fileType fileBuffer))
    (fun message => Throw (friendly_message message)).

End Extractor.
End Helpers.

(** ** The file utilities: file names *)

Module FileUtils.
Import Js.

(** The code units [/[^a-zA-Z0-9\-_.]/g] leaves alone. *)
Definition safe_char (c : ascii) : bool :=
  is_lower c || is_upper c || is_digit c || one_of "-_." c.

(** [/[^a-zA-Z0-9\-_.]/g] *)
Definition re_unsafe : regex := RChar (fun c => negb (safe_char c)).

Definition underscore (_ : string) : string := "_".

(** [sanitizeFilename] on a string ([path.basename], then every other
    code unit replaced by an underscore). *)
Definition sanitizeFilename (filename : string) : string :=
  if falsy filename then EmptyString
  else replaceAll re_unsafe underscore (Helpers.basename filename).

End FileUtils.

(** ** Stateful computations *)

Module St.
Import Js Data.

Section Monad.
Context `{External}.

(** A computation reads and writes the process state and returns or
    throws; what it wrote before throwing stays written. *)
Definition M (A : Type) : Type := state -> js_result A * state.

Definition ret {A} (a : A) : M A := fun st => (Ok a, st).

Definition throw {A} (message : string) : M A := fun st => (Throw message, st).

Definition mbind {A B} (m : M A) (f : A -> M B) : M B :=
  fun st =>
    match m st with
    | (Ok a, st') => f a st'
    | (Throw e, st') => (Throw e, st')
    end.

(** [try { m } catch (error) { handler(error.message) }] *)
Definition mtry {A} (m : M A) (handler : string -> M A) : M A :=
  fun st =>
    match m st with
    | (Ok a, st') => (Ok a, st')
    | (Throw e, st') => handler e st'
    end.

Definition lift {A} (r : js_result A) : M A := fun st => (r, st).

Definition get_state : M state := fun st => (Ok st, st).

Definition modify (f : state -> state) : M unit := fun st => (Ok tt, f st).

End Monad.

Declare Scope legal_scope.
Notation "x <- m ;; k" := (mbind m (fun x => k))
  (at level 62, m at next level, right associativity) : legal_scope.

End St.

(** ** utils/fileStorage.js: the file list and the content store *)

Module FileStorage.
Import Js Data St.
Local Open Scope legal_scope.

Section Storage.
Context `{External}.

Definition getUserUploadsDir (userId : string) : string :=
  "uploads/user-" +:+ userId.

Definition getUserFilesPath (userId : string) : string :=
  getUserUploadsDir userId +:+ "/files.json".

Definition contentPath (userId documentId : string) : string :=
  getUserUploadsDir userId +:+ "/content-" +:+ documentId +:+ ".txt".

(** The key of [documentContents]: [`${userId}-${documentId}`]. *)
Definition contentKey (userId documentId : string) : string :=
  userId +:+ "-" +:+ documentId.

(** [files.findIndex(file => file.id === fileId)], [None] for [-1]. *)
Fixpoint findIndex (fileId : string) (files : list fileInfo) : option nat :=
  match files with
  | [] => None
  | file :: rest =>
      if String.eqb (id file) fileId then Some 0
      else match findIndex fileId rest with
           | Some i => Some (S i)
           | None => None
           end
  end.

(** [files.find(file => file.id === fileId)] *)
Fixpoint find (fileId : string) (files : list fileInfo) : option fileInfo :=
  match files with
  | [] => None
  | file :: rest =>
      if String.eqb (id file) fileId then Some file else find fileId rest
  end.

(** [ensureUserFiles]: the list of the user, loaded from [files.json]
    the first time (what is not a list written by this module counts as
    the empty list, as does a failure to read or parse). *)
Definition ensureUserFiles (userId : string) : M js_files :=
  fun st =>
    match userFiles_get st userId with
    | Some value => (Ok value, st)
    | None =>
        let files :=
          match disk st !! getUserFilesPath userId with
          | Some (FilesJson l) => l
          | _ => []
          end in
        (Ok (Array files), set_userFiles st (<[userId := files]> (userFiles st)))
    end.

(** [if (!files || files.length === 0) return null;
     return files.find(file => file.id === fileId) || null] *)
Definition getUserFile (userId fileId : string) : M (option fileInfo) :=
  files <- ensureUserFiles userId ;;
  match files with
  | Array files => ret (find fileId files)
  | NotArray (Some 0) => ret None
  | NotArray _ => throw (not_a_function "files.find")
  end.

(** [documentContents.set(key, content)] *)
Definition cache_content (key content : string) : M unit :=
  modify (fun st =>
    set_documentContents st (<[key := content]> (documentContents st))).

(** [removeDocumentContent]: both layers of the content store. *)
Definition removeDocumentContent (userId documentId : string) : M bool :=
  _ <- modify (fun st =>
         set_documentContents st
           (delete (contentKey userId documentId) (documentContents st))) ;;
  st <- get_state ;;
  _ <- (if existsSync st (contentPath userId documentId)
        then unlink (contentPath userId documentId)
        else ret tt) ;;
  ret true.

(** [file.localPath && fs.existsSync(file.localPath)] *)
Definition has_local_file (st : state) (file : fileInfo) : option string :=
  match localPath file with
  | Some p => if truthy p && existsSync st p then Some p else None
  | None => None
  end.

(** The steps of [removeUserFile]: delete the local file if it
    exists, ... *)
Definition unlink_local (file : option fileInfo) : M unit :=
  fun st =>
    match file ≫= has_local_file st with
    | Some p => unlink p st
    | None => (Ok tt, st)
    end.

(** ... [userFiles[userId].splice(index, 1)], ... *)
Definition splice_entry (userId : string) (index : nat) : M unit :=
  modify (fun st =>
    set_userFiles st (alter (delete index) userId (userFiles st))).

(** ... and write [files.json], as far as that succeeds.  The step is
    reached after [findIndex] has run on [userFiles[userId]], which is
    then an array the object owns. *)
Definition persist_files (userId : string) : M unit :=
  st <- get_state ;;
  mtry (writeFile (getUserFilesPath userId)
          (FilesJson (default [] (userFiles st !! userId))))
       (fun _ => ret tt).

Definition removeUserFile (userId fileId : string) : M bool :=
  fun st =>
    match userFiles_get st userId with
    | None => (Ok false, st)
    | Some (NotArray _) =>
        (Throw (not_a_function "userFiles[userId].findIndex"), st)
    | Some (Array files) =>
        match findIndex fileId files with
        | Some index =>
            let file := files !! index in
            mtry
              (_ <- unlink_local file ;;
               _ <- removeDocumentContent userId fileId ;;
               _ <- splice_entry userId index ;;
               _ <- persist_files userId ;;
               ret true)
              (fun _ => throw "Failed to remove file") st
        | None => (Ok false, st)
        end
    end.

(** The entry of the file list after [saveDocumentContent]. *)
Definition mark_content (file : fileInfo) (len : nat) (now : Z) : fileInfo :=
  {| id := id file; originalName := originalName file;
     mimeType := mimeType file; status := status file;
     localPath := localPath file; contentUrl := contentUrl file;
     summary := summary file; hasContent := true;
     contentLength := Some len; processedAt := Some now |}.

(** [if (userFiles[userId]) { const fileIndex =
     userFiles[userId].findIndex(...); if (fileIndex !== -1)
     userFiles[userId][fileIndex] = {...} }] *)
Definition mark_entry (userId documentId : string) (len : nat) (now : Z)
  : M unit :=
  fun st =>
    match userFiles_get st userId with
    | Some (Array files) =>
        match findIndex documentId files with
        | Some fileIndex =>
            (Ok tt,
             set_userFiles st
               (<[userId :=
                    alter (fun file => mark_content file len now)
                      fileIndex files]> (userFiles st)))
        | None => (Ok tt, st)
        end
    | Some (NotArray _) =>
        (Throw (not_a_function "userFiles[userId].findIndex"), st)
    | None => (Ok tt, st)
    end.

Definition saveDocumentContent (userId documentId content : string) (now : Z)
  : M bool :=
  if falsy userId || falsy documentId || falsy content
  then throw "Missing required parameters"
  else
    mtry
      (_ <- cache_content (contentKey userId documentId) content ;;
       (* the copy on disk is best effort *)
       _ <- mtry (_ <- lift (mkdir (getUserUploadsDir userId)) ;;
                  writeFile (contentPath userId documentId) (Text content))
                 (fun _ => ret tt) ;;
       _ <- mark_entry userId documentId (String.length content) now ;;
       ret true)
      (fun message => throw ("Failed to save document content: " +:+ message)).

(** [fs.readFile(diskPath, 'utf-8')] in [getDocumentContent].  In this
    module [fs] is [require("fs")], the callback API ([fsPromises] is
    the other one), and the call passes no callback: Node refuses it
    with a [TypeError] before any read (releases before 10 return
    [undefined] instead, which the caller's [if (diskContent)] rejects
    the same way). *)
Definition fs_readFile_without_callback (path : string) : M (option string) :=
  throw "The cb argument must be of type function. Received undefined".

(** The second layer of [getDocumentContent]: the copy on disk. *)
Definition content_from_disk (userId documentId : string) : M (option string) :=
  st <- get_state ;;
  if existsSync st (contentPath userId documentId)
  then
    mtry
      (diskContent <- fs_readFile_without_callback
                        (contentPath userId documentId) ;;
       match diskContent with
       | Some c =>
           if truthy c
           then _ <- cache_content (contentKey userId documentId) c ;;
                ret (Some c)
           else ret None
       | None => ret None
       end)
      (fun _ => ret None)
  else ret None.

(** The third layer: [file.contentUrl]. *)
Definition content_from_url (userId documentId : string) (file : fileInfo)
  : M (option string) :=
  match contentUrl file with
  | Some url =>
      if truthy url
      then
        mtry
          (response <- lift (fetch_text url) ;;
           match response with
           | None => throw "Failed to fetch document content"
           | Some content =>
               _ <- cache_content (contentKey userId documentId) content ;;
               ret (Some content)
           end)
          (fun _ => ret None)
      else ret None
  | None => ret None
  end.

Definition getDocumentContent (userId documentId : string) : M (option string) :=
  if falsy userId || falsy documentId then ret None
  else
    mtry
      (st <- get_state ;;
       match documentContents st !! contentKey userId documentId with
       | Some content => ret (Some content)
       | None =>
           fromDisk <- content_from_disk userId documentId ;;
           match fromDisk with
           | Some c => ret (Some c)
           | None =>
               file <- getUserFile userId documentId ;;
               match file with
               | None => ret None
               | Some file => content_from_url userId documentId file
               end
           end
       end)
      (fun _ => ret None).

(** [getUserFiles]: without a user there is no list (a new array that
    no one else holds). *)
Definition getUserFiles (userId : string) : M js_files :=
  if falsy userId then ret (Array []) else ensureUserFiles userId.

(** [if (!userFiles[userId]) userFiles[userId] = []] *)
Definition init_user (userId : string) : M unit :=
  modify (fun st =>
    match userFiles_get st userId with
    | Some _ => st
    | None => set_userFiles st (<[userId := []]> (userFiles st))
    end).

(** [ensureUserFiles(userId).push(fileInfo)]: the array of the user is
    extended in place. *)
Definition push_entry (userId : string) (file : fileInfo) : M unit :=
  files <- ensureUserFiles userId ;;
  match files with
  | Array files =>
      modify (fun st =>
        set_userFiles st (<[userId := files ++ [file]]> (userFiles st)))
  | NotArray _ => throw (not_a_function "ensureUserFiles(...).push")
  end.

(** The write of [files.json] in [addUserFile], which creates the
    directory first; a failure is logged and dropped.  The step is
    reached after [push], on an array the object owns. *)
Definition persist_files_in_dir (userId : string) : M unit :=
  st <- get_state ;;
  mtry (_ <- lift (mkdir (getUserUploadsDir userId)) ;;
        writeFile (getUserFilesPath userId)
          (FilesJson (default [] (userFiles st !! userId))))
       (fun _ => ret tt).

(** [addUserFile] on the objects the upload pipeline passes: a
    [fileInfo] without a [path] property ([None] stands for a value
    that is not an object), for which the function takes its
    metadata-only branch.  What it returns is a copy of the entry. *)
Definition addUserFile (userId : string) (file : option fileInfo)
  : M fileInfo :=
  if falsy userId then throw "User ID is required"
  else
    match file with
    | None => throw "Invalid file information"
    | Some file =>
        _ <- init_user userId ;;
        mtry
          (_ <- push_entry userId file ;;
           _ <- persist_files_in_dir userId ;;
           ret file)
          (fun message => throw ("Failed to add file: " +:+ message))
    end.

End Storage.
End FileStorage.

(** ** utils/rag.js: the chunk indexer and the retriever *)

Module Rag.
Import Js Data St.
Local Open Scope legal_scope.

Section Index.
Context `{External}.

Definition getIndexDir (userId documentId : string) : string :=
  let userDir := "uploads/user-" +:+ userId in
  userDir +:+ "/lc-index-" +:+ documentId.

Definition indexPath (userId documentId : string) : string :=
  getIndexDir userId documentId +:+ "/chunks.json".

(** [!content || content.trim().length === 0] *)
Definition blank (content : string) : bool :=
  falsy content || (String.length (trim content) =? 0).

(** [chunk => chunk.trim().length > 20] *)
Definition usable (chunk : string) : bool := 20 <? String.length (trim chunk).

Definition buildIndex (userId documentId content : string)
    (chunkSize overlap : nat) (now : Z) : M string :=
  mtry
    (if blank content then throw "No content provided for indexing"
     else
       docs <- lift (createDocuments chunkSize overlap content) ;;
       if List.length docs =? 0 then throw "No chunks created from content"
       else
         let dir := getIndexDir userId documentId in
         _ <- lift (mkdir dir) ;;
         let chunks := List.filter usable docs in
         let data := {| createdAt := now; chunkSize := chunkSize;
                        overlap := overlap; chunks := chunks;
                        totalChunks := List.length chunks |} in
         _ <- writeFile (indexPath userId documentId) (ChunksJson data) ;;
         ret dir)
    (fun message => throw message).

(** [buildIndex(userId, documentId, content)] with the default options. *)
Definition buildIndex_default (userId documentId content : string) (now : Z)
  : M string :=
  buildIndex userId documentId content 1000 150 now.

(** [loadIndex]: [None] is [null].  A file at the index path that is
    not an index written by [buildIndex] has no [chunks] array. *)
Definition loadIndex (userId documentId : string) : M (option store) :=
  mtry
    (st <- get_state ;;
     let dir := getIndexDir userId documentId in
     if negb (existsSync st (indexPath userId documentId)) then ret None
     else
       match storeCache st !! dir with
       | Some cached => ret (Some cached)
       | None =>
           if negb has_api_key then ret None
           else
             let chunks :=
               match disk st !! indexPath userId documentId with
               | Some (ChunksJson data) => chunks data
               | _ => []
               end in
             if List.length chunks =? 0 then ret None
             else
               vectors <- lift (fromDocuments chunks) ;;
               _ <- modify (fun st =>
                      set_storeCache st (<[dir := vectors]> (storeCache st))) ;;
               ret (Some vectors)
       end)
    (fun _ => ret None).

(** The separator of the retrieved chunks: two line feeds. *)
Definition blank_line : string :=
  String (ascii_of_nat 10) (String (ascii_of_nat 10) EmptyString).

Definition retrieveTopK (userId documentId question : string) (k : Z) : M string :=
  mtry
    (index <- loadIndex userId documentId ;;
     match index with
     | None => ret EmptyString
     | Some vectors =>
         if blank question then ret EmptyString
         else
           results <- lift (similaritySearch vectors question (Z.max 1 k)) ;;
           if List.length results =? 0 then ret EmptyString
           else ret (join blank_line results)
     end)
    (fun _ => ret EmptyString).

End Index.
End Rag.

(** ** routes/documents.js: rate limit, summarizer, answerer, routes *)

Module Documents.
Import Js Data St.
Local Open Scope legal_scope.

(** *** Numbers

    A score is a JavaScript number, an IEEE 754 binary64 value. *)

Definition nat_to_float (n : nat) : float :=
  PrimFloat.of_uint63 (Uint63.of_Z (Z.of_nat n)).

(** [Math.min(a, b)] and [Math.max(a, b)] on numbers that are not NaN. *)
Definition float_min (a b : float) : float := if PrimFloat.ltb a b then a else b.
Definition float_max (a b : float) : float := if PrimFloat.ltb a b then b else a.

(** The literals [0.2], [0.3] and [0.5]: the binary64 values nearest to
    them. *)
Definition f0_2 : float := 0x1.999999999999ap-3%float.
Definition f0_3 : float := 0x1.3333333333333p-2%float.
Definition f0_5 : float := 0.5%float.

(** *** Values of unknown type

    [String(v || '')] for an argument that callers ought to pass as a
    string: a string, a falsy value, or another value with what its
    conversion to a string does. *)
Inductive js_value : Type :=
| VString (s : string)
| VFalsy
| VOther (conversion : js_result string).

Definition String_or_empty (v : js_value) : js_result string :=
  match v with
  | VString s => Ok s
  | VFalsy => Ok EmptyString
  | VOther conversion => conversion
  end.

Definition value_falsy (v : js_value) : bool :=
  match v with
  | VString s => falsy s
  | VFalsy => true
  | VOther _ => false
  end.

(** *** Sorting

    [Array.prototype.sort] is stable; with the comparator
    [(a, b) => b.score - a.score] it orders by decreasing score and
    keeps the order of equal scores. *)
Section Sort.
Context {A : Type} (score : A -> float).

Fixpoint insert_desc (x : A) (l : list A) : list A :=
  match l with
  | [] => [x]
  | y :: l' =>
      if PrimFloat.ltb (score x) (score y) then y :: insert_desc x l'
      else x :: l
  end.

Fixpoint sort_desc (l : list A) : list A :=
  match l with
  | [] => []
  | x :: l' => insert_desc x (sort_desc l')
  end.

End Sort.

(** [l.slice(start, end)] *)
Definition slice {A} (start end_ : nat) (l : list A) : list A :=
  take (end_ - start) (List.skipn start l).

(** *** The rate limit *)

Definition CACHE_TTL : Z := 60 * 60 * 1000.
Definition windowMs : Z := 60 * 60 * 1000.
Definition maxRequests : nat := 10.

Section RateLimit.
Context `{External}.

Definition checkRateLimit (ip : string) (now : Z) : M bool :=
  fun st =>
    let windowStart := (now - windowMs)%Z in
    (* clean up old entries *)
    let kept :=
      filter (fun entry : string * (nat * Z) => ¬ (entry.2.2 < windowStart)%Z)
        (requestCounts st) in
    let ipData := default (0, now) (kept !! ip) in
    if maxRequests <=? ipData.1
    then (Ok false, set_requestCounts st kept)
    else (Ok true, set_requestCounts st (<[ip := (S ipData.1, now)]> kept)).

End RateLimit.

(** *** The extractive summary *)

Definition neutral_message : string :=
  "Document processed successfully. Summary not available.".

Definition priorityKeywords : list string :=
  ["obligation"; "obligations"; "right"; "rights"; "responsibility";
   "responsibilities"; "payment"; "fee"; "fees";
   "deadline"; "date"; "term"; "termination"; "expire"; "expiry"; "renewal";
   "notice"; "liability"; "indemnity";
   "confidential"; "confidentiality"; "privacy"; "data"; "scope";
   "deliverable"; "deliverables"; "service"; "services";
   "warranty"; "warranties"; "governing law"; "jurisdiction"; "dispute";
   "arbitration"; "compliance"; "breach"; "penalty"].

Record scored : Type := {
  sentence : string;      (* the field [s] *)
  idx : nat;
  score : float
}.

(** [/[\r\n]+/] *)
Definition re_newlines : regex :=
  RPlus (RChar (fun c => (code c =? 13) || (code c =? 10))).

(** [/(?<=[.!?])\s+/] *)
Definition re_sentence_gap : regex := RSeq (RBehind (one_of ".!?")) re_spaces.

(** [/\s([.,;:!?])/], replaced by its group [$1]. *)
Definition re_space_punct : regex :=
  RSeq (RChar is_space) (RChar (one_of ".,;:!?")).

(** [/[.!?]$/] *)
Definition re_terminal : regex := RSeq (RChar (one_of ".!?")) REol.

Definition single_space (_ : string) : string := " ".

Definition clean (text : string) : string :=
  trim (replaceAll re_newlines single_space
          (replaceAll re_spaces single_space text)).

Definition split_sentences (cleaned : string) : list string :=
  List.filter (fun s => 20 <? String.length s)
    (List.map trim (split re_sentence_gap cleaned)).

Definition keywordHits (lower : string) : nat :=
  fold_left (fun acc kw => acc + (if includes kw lower then 1 else 0))
    priorityKeywords 0.

Definition score_sentence (total : nat) (s : string) (idx : nat) : scored :=
  let lower := toLowerCase s in
  let words := List.length (split re_spaces s) in
  let lengthScore := float_min (nat_to_float words / 18)%float 1%float in
  let positionBoost :=
    if idx =? 0 then f0_2 else if idx =? total - 1 then f0_2 else 0%float in
  {| sentence := s; idx := idx;
     score := (nat_to_float (keywordHits lower) * 2 + lengthScore
               + positionBoost)%float |}.

(** [sentences.map((s, idx) => ...)] *)
Definition score_all (sentences : list string) : list scored :=
  imap (fun idx s => score_sentence (List.length sentences) s idx) sentences.

(** The loop over the buckets, from bucket [b] on; [fuel] counts the
    buckets left. *)
Fixpoint bucket_loop (fuel b bucketSize : nat) (scoredL : list scored)
    (selected : list string) : list string :=
  match fuel with
  | O => selected
  | S fuel' =>
      let start := b * bucketSize in
      let end_ := Nat.min (List.length scoredL) (start + bucketSize) in
      if List.length scoredL <=? start then selected
      else
        let sorted := sort_desc score (slice start end_ scoredL) in
        bucket_loop fuel' (S b) bucketSize scoredL
          match sorted with
          | top :: _ => selected ++ [sentence top]
          | [] => selected
          end
  end.

(** The loop over the globally best sentences. *)
Fixpoint global_loop (limit : nat) (globalTop selected : list string)
  : list string :=
  match globalTop with
  | [] => selected
  | s :: rest =>
      if existsb (String.eqb s) selected then global_loop limit rest selected
      else
        let selected := selected ++ [s] in
        if limit <=? List.length selected then selected
        else global_loop limit rest selected
  end.

Definition bucketCount : nat := 6.

Definition select_sentences (sentences : list string) : list string :=
  let scoredL := score_all sentences in
  let bucketSize := (List.length sentences + bucketCount - 1) / bucketCount in
  let selected := bucket_loop bucketCount 0 bucketSize scoredL [] in
  let globalTop := List.map sentence (sort_desc score scoredL) in
  global_loop (bucketCount + 2) globalTop selected.

(** The inner loop of the composition: the words of one sentence. *)
Fixpoint push_words (targetWords : nat) (words sWords : list string)
  : list string :=
  match sWords with
  | [] => words
  | w :: rest =>
      if targetWords <=? List.length words then words
      else push_words targetWords (words ++ [w]) rest
  end.

(** The outer loop. *)
Fixpoint compose (targetWords : nat) (words selected : list string)
  : list string :=
  match selected with
  | [] => words
  | s :: rest =>
      let words := push_words targetWords words (split re_spaces s) in
      if targetWords <=? List.length words then words
      else compose targetWords words rest
  end.

Definition finish_paragraph (words : list string) : string :=
  let paragraph :=
    replaceAll re_space_punct (drop 1)
      (replaceAll re_spaces single_space (join " " words)) in
  if negb (test re_terminal paragraph) then paragraph +:+ "." else paragraph.

Definition generateExtractiveSummary (text : js_value) (targetWords : nat)
  : string :=
  match
    bind (String_or_empty text) (fun str =>
      let cleaned := clean str in
      if falsy cleaned then Ok neutral_message
      else
        let sentences := split_sentences cleaned in
        let selected := select_sentences sentences in
        Ok (finish_paragraph (compose targetWords [] selected)))
  with
  | Ok paragraph => paragraph
  | Throw _ => neutral_message
  end.

(** [generateExtractiveSummary(text)]: the default budget. *)
Definition generateExtractiveSummary_default (text : js_value) : string :=
  generateExtractiveSummary text 180.

(** *** The summarizer *)

Definition dquote : string := String (ascii_of_nat 34) EmptyString.

Definition summary_prompt (documentName contentToSummarize : string) : string :=
  "Please provide a comprehensive summary of " +:+ documentName +:+ ". 

Document content:
" +:+ contentToSummarize +:+ "

Create a well-structured summary that includes:
- Main purpose and type of document
- Key parties involved (if applicable)
- Important terms, conditions, or requirements
- Critical dates, deadlines, or timeframes
- Financial information (amounts, payments, etc.)
- Key obligations and responsibilities
- Any important legal or regulatory information

Format your response using markdown:
- Use **bold** for important terms and headings
- Use bullet points with * for lists
- Use clear paragraph breaks
- Keep it professional and easy to read".

(** [s.length > n ? s.substring(0, n) + '...' : s] *)
Definition truncate (n : nat) (s : string) : string :=
  if n <? String.length s then substring0 n s +:+ "..." else s.

Section Summarizer.
Context `{External}.

(** The key of [summaryCache]: [`${documentId}-${ip}`]. *)
Definition cacheKey (documentId ip : string) : string :=
  documentId +:+ "-" +:+ ip.

(** [cachedSummary && (Date.now() - cachedSummary.timestamp) < CACHE_TTL] *)
Definition cached_summary (st : state) (documentId ip : string) (now : Z)
  : option string :=
  match summaryCache st !! cacheKey documentId ip with
  | Some (summary, timestamp) =>
      if (now - timestamp <? CACHE_TTL)%Z then Some summary else None
  | None => None
  end.

(** The [try] block of [generateSummary]. *)
Definition generative_summary (text documentId ip : string)
    (fileName : option string) (t_store : Z) : M string :=
  if negb has_api_key
  then ret (generateExtractiveSummary_default (VString text))
  else
    let contentToSummarize := truncate 8000 text in
    let documentName :=
      match fileName with
      | Some name => if truthy name then dquote +:+ name +:+ dquote
                     else "this document"
      | None => "this document"
      end in
    match generateContent (summary_prompt documentName contentToSummarize) 600 with
    | GenError message _ _ => throw message
    | GenResponse None => throw "Invalid response from Gemini API"
    | GenResponse (Some summary) =>
        if falsy summary || (String.length (trim summary) =? 0)
        then throw "Empty summary from Gemini API"
        else
          _ <- modify (fun st =>
                 set_summaryCache st
                   (<[cacheKey documentId ip := (trim summary, t_store)]>
                      (summaryCache st))) ;;
          ret (trim summary)
    end.

(** [generateSummary(text, documentId, ip, { fileName })]; the three
    readings of [Date.now()] are those of the cache check, of
    [checkRateLimit] and of the cache update. *)
Definition generateSummary (text documentId ip : string)
    (fileName : option string) (t_check t_limit t_store : Z) : M string :=
  st <- get_state ;;
  match cached_summary st documentId ip t_check with
  | Some summary => ret summary
  | None =>
      allowed <- checkRateLimit ip t_limit ;;
      if negb allowed
      then ret (generateExtractiveSummary_default (VString text))
      else
        mtry (generative_summary text documentId ip fileName t_store)
          (fun _ => ret (generateExtractiveSummary_default (VString text)))
  end.

End Summarizer.

(** *** The extractive answer *)

Definition re_digit : regex := RChar is_digit.
Definition re_digit_1_2 : regex := RSeq re_digit (ROpt re_digit).
Definition re_digit_2_4 : regex :=
  RSeqs [re_digit; re_digit; ROpt (RSeq re_digit (ROpt re_digit))].
Definition re_digit_4 : regex := RSeqs [re_digit; re_digit; re_digit; re_digit].
Definition re_digit_2 : regex := RSeq re_digit re_digit.
Definition re_digit_3 : regex := RSeqs [re_digit; re_digit; re_digit].

(** [/(deadline|due\s+date|due\b|last\s+date|submission|submit|submitted\s+on|expiry|expires|expiration|valid\s+until|when)/i] *)
Definition re_deadline_query : regex :=
  RAlts (liti "deadline")
    [RSeqs [liti "due"; re_spaces; liti "date"];
     RSeq (liti "due") RWordB;
     RSeqs [liti "last"; re_spaces; liti "date"];
     liti "submission"; liti "submit";
     RSeqs [liti "submitted"; re_spaces; liti "on"];
     liti "expiry"; liti "expires"; liti "expiration";
     RSeqs [liti "valid"; re_spaces; liti "until"];
     liti "when"].

(** [/(amount|cost|price|fee|payment|salary|rent|total|sum|money|dollar|\$)/i] *)
Definition re_amount_query : regex :=
  RAlts (liti "amount")
    [liti "cost"; liti "price"; liti "fee"; liti "payment"; liti "salary";
     liti "rent"; liti "total"; liti "sum"; liti "money"; liti "dollar";
     lit "$"].

(** [Jan(?:uary)?] and the like. *)
Definition month (short rest : string) : regex :=
  RSeq (liti short) (ROpt (liti rest)).

Definition re_month : regex :=
  RAlts (month "Jan" "uary")
    [month "Feb" "ruary"; month "Mar" "ch"; month "Apr" "il"; liti "May";
     month "Jun" "e"; month "Jul" "y"; month "Aug" "ust";
     RSeq (liti "Sep") (ROpt (RAlt (liti "t") (liti "tember")));
     month "Oct" "ober"; month "Nov" "ember"; month "Dec" "ember"].

(** [[\/\-]] *)
Definition re_date_sep : regex := RChar (one_of "/-").

(** [dateRegex], flags [ig]:
    [(\b(?:Jan(?:uary)?|...|Dec(?:ember)?)\s+\d{1,2},?\s+\d{4})]
    [|(\b\d{1,2}[\/\-]\d{1,2}[\/\-]\d{2,4}\b)]
    [|(\b\d{4}[\/\-]\d{1,2}[\/\-]\d{1,2}\b)] *)
Definition dateRegex : regex :=
  RAlts
    (RSeqs [RWordB; re_month; re_spaces; re_digit_1_2; ROpt (lit ",");
            re_spaces; re_digit_4])
    [RSeqs [RWordB; re_digit_1_2; re_date_sep; re_digit_1_2; re_date_sep;
            re_digit_2_4; RWordB];
     RSeqs [RWordB; re_digit_4; re_date_sep; re_digit_1_2; re_date_sep;
            re_digit_1_2; RWordB]].

(** [/(deadline|due|expir|valid|until|before|by|end)/i] *)
Definition keywordRegex : regex :=
  RAlts (liti "deadline")
    [liti "due"; liti "expir"; liti "valid"; liti "until"; liti "before";
     liti "by"; liti "end"].

(** [amountRegex], flags [ig]:
    [(\$[\d,]+(?:\.\d{2})?)]
    [|(\d+(?:,\d{3})*(?:\.\d{2})?\s*(?:dollars?|USD|\$))] *)
Definition amountRegex : regex :=
  RAlt
    (RSeqs [lit "$";
            RPlus (RChar (fun c => is_digit c || Ascii.eqb "," c));
            ROpt (RSeq (lit ".") re_digit_2)])
    (RSeqs [RPlus re_digit;
            RStar (RSeq (lit ",") re_digit_3);
            ROpt (RSeq (lit ".") re_digit_2);
            RStar (RChar is_space);
            RAlts (RSeq (liti "dollar") (ROpt (liti "s")))
              [liti "USD"; lit "$"]]).

(** [/[^\p{L}\p{N}\s]/gu] *)
Definition re_not_alnum_space : regex :=
  RChar (fun c => negb (is_letter c || is_number c || is_space c)).

Definition normalize_question (question : string) : string :=
  trim (replaceAll re_not_alnum_space single_space (toLowerCase question)).

(** The sentences of the context: [s => s && s.length > 10]. *)
Definition context_sentences (context : string) : list string :=
  List.filter (fun s => truthy s && (10 <? String.length s))
    (split re_sentence_gap (replaceAll re_spaces single_space context)).

Definition option_list {A} (o : option A) : list A :=
  match o with Some a => [a] | None => [] end.

(** [[sentences[i - 1], s, sentences[i + 1]].filter(Boolean).join(' ')] *)
Definition windowText (sentences : list string) (i : nat) (s : string) : string :=
  join " "
    (List.filter truthy
       (option_list (if i =? 0 then None else sentences !! (i - 1))
        ++ [s] ++ option_list (sentences !! (i + 1)))).

Definition deadline_answer (date s : string) : string :=
  "The deadline appears to be: " +:+ date +:+ ". Source: "
  +:+ dquote +:+ trim s +:+ dquote.

(** The loop of the deadline branch from index [i] on; [rest] is
    [sentences] from [i]. *)
Fixpoint deadline_loop (sentences : list string) (i : nat) (rest : list string)
  : option string :=
  match rest with
  | [] => None
  | s :: rest' =>
      if test keywordRegex s then
        match matchAll dateRegex 0 (windowText sentences i s) with
        | date :: _ => Some (deadline_answer date s)
        | [] => deadline_loop sentences (S i) rest'
        end
      else deadline_loop sentences (S i) rest'
  end.

Definition amount_answer (amount s : string) : string :=
  "The amount mentioned is: " +:+ amount +:+ ". Source: "
  +:+ dquote +:+ trim s +:+ dquote.

(** The loop of the amount branch.  [amountRegex] has the [g] flag, so
    [test] moves its [lastIndex], which [matchAll] and the next [test]
    start from. *)
Fixpoint amount_loop (lastIndex : nat) (rest : list string) : option string :=
  match rest with
  | [] => None
  | s :: rest' =>
      let '(found, lastIndex) := test_g amountRegex lastIndex s in
      if found then
        match matchAll amountRegex lastIndex s with
        | amount :: _ => Some (amount_answer amount s)
        | [] => amount_loop lastIndex rest'
        end
      else amount_loop lastIndex rest'
  end.

(** The score of a sentence against the terms of the question.  The
    context holds no bullet character (U+2022 is above U+00FF), so the
    structure bonus looks for a colon or a hyphen. *)
Definition score_overlap (qTerms : list string) (s : string) (idx : nat) : scored :=
  let lower := toLowerCase s in
  let counts :=
    fold_left
      (fun (acc : nat * nat) t =>
         if includes t lower
         then (acc.1 + 1,
               if test (RSeqs [RWordB; lit t; RWordB]) lower
               then acc.2 + 1 else acc.2)
         else acc)
      qTerms (0, 0) in
  let lengthPenalty :=
    float_max 1%float
      (nat_to_float (List.length (split re_spaces s)) / 30)%float in
  let positionBonus := if idx <? 3 then f0_2 else 0%float in
  let structureBonus :=
    if includes ":" s || includes "-" s then f0_3 else 0%float in
  {| sentence := s; idx := idx;
     score := ((nat_to_float counts.1 + nat_to_float counts.2 * f0_5)
               / lengthPenalty + positionBonus + structureBonus)%float |}.

Definition not_available : string :=
  "This information is not clearly available in the provided document.".

Definition overlap_answer (q : string) (sentences : list string) : string :=
  let qTerms := List.filter (fun t => 2 <? String.length t) (split re_spaces q) in
  let ranked := sort_desc score (imap (fun idx s => score_overlap qTerms s idx) sentences) in
  match ranked with
  | [] => not_available
  | best :: _ =>
      if PrimFloat.eqb (score best) 0%float then not_available
      else
        let topSentences :=
          List.filter (fun item => PrimFloat.ltb 0%float (score item))
            (take 2 ranked) in
        let answer := join " " (List.map (fun item => trim (sentence item)) topSentences) in
        let words := split re_spaces answer in
        if 100 <? List.length words
        then join " " (take 100 words) +:+ "..."
        else answer
  end.

(** [generateExtractiveAnswer]; the source also computes [isWhoQuery]
    and [isWhatQuery] and never reads them. *)
Definition generateExtractiveAnswer (question context : js_value) : string :=
  if value_falsy question || value_falsy context
  then "No answer available from the provided context."
  else
    match
      bind (String_or_empty question) (fun question =>
      bind (String_or_empty context) (fun context =>
        let q := normalize_question question in
        let isDeadlineQuery := test re_deadline_query q in
        let isAmountQuery := test re_amount_query q in
        let sentences := context_sentences context in
        match (if isDeadlineQuery then deadline_loop sentences 0 sentences
               else None) with
        | Some answer => Ok answer
        | None =>
            match (if isAmountQuery then amount_loop 0 sentences else None) with
            | Some answer => Ok answer
            | None => Ok (overlap_answer q sentences)
            end
        end))
    with
    | Ok answer => answer
    | Throw _ => "Unable to find a relevant answer in the document."
    end.

(** *** The answerer *)

Definition answer_prompt (truncatedContext question : string) : string :=
  "You are a helpful document assistant. Answer the question based on the provided document context.

Instructions:
- Answer directly and concisely based on the document content
- If you find specific information, quote the relevant part using " +:+ dquote +:+ "quotes" +:+ dquote +:+ "
- If the information is not in the document, say " +:+ dquote +:+ "This information is not available in the document" +:+ dquote +:+ "
- Use **bold** for important terms or amounts
- Be accurate and helpful

Document Context:
" +:+ truncatedContext +:+ "

Question: " +:+ question +:+ "

Answer:".

(** [isQuotaExceededError] on what [generateContent] rejected with. *)
Definition isQuotaExceededError (message : string) (status : nat)
    (quotaFailure : bool) : bool :=
  (status =? 429) || includes "quota" message || quotaFailure.

Section Answerer.
Context `{External}.

Definition askQuestion (question context : string) : string :=
  let truncatedContext := truncate 12000 context in
  let fallback := generateExtractiveAnswer (VString question) (VString context) in
  if negb has_api_key
  then generateExtractiveAnswer (VString question) (VString truncatedContext)
  else
    match generateContent (answer_prompt truncatedContext question) 500 with
    | GenError message status quotaFailure =>
        if isQuotaExceededError message status quotaFailure
        then "I'm currently experiencing high demand. Based on the document content: "
             +:+ fallback
        else fallback
    | GenResponse None => fallback
    | GenResponse (Some responseText) =>
        if falsy responseText || (String.length (trim responseText) =? 0)
        then fallback
        else trim responseText
    end.

End Answerer.

(** *** The routes *)

(** What a handler sends: [res.json({ success: true, data })] with the
    text of [data], or [res.status(n).json({ success: false, error })]. *)
Inductive response : Type :=
| Success (data : string)
| Failure (status : nat) (error : string).

(** [/^(hi|hello|hey|hola|namaste)[!.\s]*$/] *)
Definition re_greeting : regex :=
  RSeqs [RBol;
         RAlts (lit "hi") [lit "hello"; lit "hey"; lit "hola"; lit "namaste"];
         RStar (RChar (fun c => one_of "!." c || is_space c));
         REol].

(** [/who\s+are\s+you\??/] *)
Definition re_identity : regex :=
  RSeqs [lit "who"; re_spaces; lit "are"; re_spaces; lit "you"; ROpt (lit "?")].

Section Routes.
Context `{External}.
Import FileStorage Rag Helpers.

(** [content = await extractTextFromFile(file.localPath, file.mimeType);
     if (content) await saveDocumentContent(userId, documentId, content)] *)
Definition reextract (userId documentId path : string) (file : fileInfo) (now : Z)
  : M string :=
  st <- get_state ;;
  content <- lift (extractTextFromFile st (InString path) (mimeType file) false) ;;
  _ <- (if truthy content
        then saveDocumentContent userId documentId content now
        else ret true) ;;
  ret content.

Definition content_truthy (content : option string) : bool :=
  match content with Some c => truthy c | None => false end.

(** [router.delete("/:id")] *)
Definition deleteDocument (userId documentId : string) : M response :=
  mtry
    (file <- getUserFile userId documentId ;;
     match file with
     | None => ret (Failure 404 "FILE_NOT_FOUND")
     | Some _ =>
         success <- removeUserFile userId documentId ;;
         if negb success then ret (Failure 500 "DELETE_FAILED")
         else ret (Success "File deleted successfully")
     end)
    (fun _ => ret (Failure 500 "INTERNAL_SERVER_ERROR")).

(** [router.get("/:id/content")] *)
Definition getContent (userId documentId : string) (now : Z) : M response :=
  mtry
    (file <- getUserFile userId documentId ;;
     match file with
     | None => ret (Failure 404 "FILE_NOT_FOUND")
     | Some file =>
         mtry
           (content <- getDocumentContent userId documentId ;;
            if content_truthy content then ret (Success (default EmptyString content))
            else
              st <- get_state ;;
              content <-
                match has_local_file st file with
                | Some path =>
                    c <- reextract userId documentId path file now ;;
                    ret (Some c)
                | None => ret content
                end ;;
              if content_truthy content
              then ret (Success (default EmptyString content))
              else ret (Failure 404 "CONTENT_NOT_FOUND"))
           (fun _ => throw "Failed to extract document content")
     end)
    (fun _ => ret (Failure 500 "FAILED_TO_RETRIEVE_CONTENT")).

(** [!question || typeof question !== 'string' || question.trim() === ''] *)
Definition valid_question (question : js_value) : option string :=
  match question with
  | VString q => if falsy q || String.eqb (trim q) EmptyString then None else Some q
  | _ => None
  end.

(** The context of the answer: the retrieved chunks, or the truncated
    content. *)
Definition choose_context (userId documentId question content : string)
  : M string :=
  mtry
    (retrievedContext <- retrieveTopK userId documentId question 4 ;;
     if truthy retrievedContext && (0 <? String.length (trim retrievedContext))
     then ret retrievedContext
     else ret (truncate 8000 content))
    (fun _ => ret (truncate 8000 content)).

(** The outer [catch] of the ask route. *)
Definition ask_failure (message : string) : response :=
  if includes "429" message || includes "quota" message
     || includes "rate limit" message
  then Failure 429 "RATE_LIMIT_EXCEEDED"
  else if String.eqb message "Failed to process document content for question answering"
  then Failure 500 "DOCUMENT_PROCESSING_ERROR"
  else Failure 500 "INTERNAL_SERVER_ERROR".

(** [router.post("/:id/ask")] *)
Definition ask (userId documentId : string) (question : js_value) (now : Z)
  : M response :=
  mtry
    match valid_question question with
    | None => ret (Failure 400 "INVALID_QUESTION")
    | Some question =>
        let qLower := trim (toLowerCase question) in
        if test re_greeting qLower
        then ret (Success "Hello! How can I help you with your document?")
        else if test re_identity qLower
        then ret (Success "I am the LegalLens assistant bot. Ask me anything about your document.")
        else
          file <- getUserFile userId documentId ;;
          match file with
          | None => ret (Failure 404 "DOCUMENT_NOT_FOUND")
          | Some file =>
              mtry
                (content <- getDocumentContent userId documentId ;;
                 st <- get_state ;;
                 content <-
                   match (if content_truthy content then None
                          else has_local_file st file) with
                   | Some path =>
                       c <- reextract userId documentId path file now ;;
                       ret (Some c)
                   | None => ret content
                   end ;;
                 if negb (content_truthy content)
                 then ret (Failure 400 "CONTENT_NOT_AVAILABLE")
                 else
                   let content := default EmptyString content in
                   finalContext <- choose_context userId documentId question content ;;
                   ret (Success (askQuestion question finalContext)))
                (fun _ => throw "Failed to process document content for question answering")
          end
    end
    (fun message => ret (ask_failure message)).

(** *** The upload pipeline *)

(** The file multer hands to the upload route (memory storage: a
    [buffer], no [path]). *)
Record upload_file : Type := {
  buffer : option (list byte);
  originalname : string;
  mimetype : string
}.

(** The readings of [Date.now()] of one run of the pipeline, in the
    order of the calls that take them. *)
Record clock : Type := {
  t_save : Z;       (* saveDocumentContent *)
  t_index : Z;      (* buildIndex *)
  t_check : Z;      (* generateSummary: the cache check *)
  t_limit : Z;      (* generateSummary: checkRateLimit *)
  t_store : Z;      (* generateSummary: the cache update *)
  t_done : Z        (* processedAt *)
}.

(** [path.join(process.cwd(), 'uploads', `user-${userId}`, `${fileId}${fileExt}`)] *)
Definition upload_path (file : upload_file) (userId fileId : string) : string :=
  getUserUploadsDir userId +:+ "/" +:+ fileId +:+ extname (originalname file).

(** The [fileInfo] object of [processUploadedFile]. *)
Definition uploaded_entry (file : upload_file) (userId fileId : string)
  : fileInfo :=
  {| id := fileId; originalName := originalname file;
     mimeType := mimetype file; status := "uploading";
     localPath := Some (upload_path file userId fileId);
     contentUrl := None; summary := None; hasContent := false;
     contentLength := None; processedAt := None |}.

(** [{ ...file, status }] *)
Definition with_status (file : fileInfo) (status : string) : fileInfo :=
  {| id := id file; originalName := originalName file;
     mimeType := mimeType file; status := status;
     localPath := localPath file; contentUrl := contentUrl file;
     summary := summary file; hasContent := hasContent file;
     contentLength := contentLength file; processedAt := processedAt file |}.

(** [{ ...file, status: 'error', error, processedAt }]; the [error]
    message, which only the details of a failure response show, is not
    a field of the record. *)
Definition errorFile (file : fileInfo) (now : Z) : fileInfo :=
  {| id := id file; originalName := originalName file;
     mimeType := mimeType file; status := "error";
     localPath := localPath file; contentUrl := contentUrl file;
     summary := summary file; hasContent := hasContent file;
     contentLength := contentLength file; processedAt := Some now |}.

(** [{ ...file, status: 'completed', contentLength, summary,
       processedAt, hasContent: true }] *)
Definition completedFile (file : fileInfo) (len : nat) (text : string) (now : Z)
  : fileInfo :=
  {| id := id file; originalName := originalName file;
     mimeType := mimeType file; status := "completed";
     localPath := localPath file; contentUrl := contentUrl file;
     summary := Some text; hasContent := true;
     contentLength := Some len; processedAt := Some now |}.

(** [const userFiles = getUserFiles(userId);
     const fileIndex = userFiles.findIndex(f => f.id === fileId);
     if (fileIndex !== -1) userFiles[fileIndex] = file] *)
Definition replace_entry (userId fileId : string) (file : fileInfo) : M unit :=
  files <- getUserFiles userId ;;
  match files with
  | Array files =>
      match findIndex fileId files with
      | Some fileIndex =>
          modify (fun st =>
            set_userFiles st
              (<[userId := <[fileIndex := file]> files]> (userFiles st)))
      | None => ret tt
      end
  | NotArray _ => throw (not_a_function "userFiles.findIndex")
  end.

(** [processUploadedFile], up to the point where it schedules the
    background task and returns; [fileId] is what [generateId()]
    returned, [now] the time of a failure. *)
Definition processUploadedFile (file : option upload_file)
    (userId fileId : string) (now : Z) : M fileInfo :=
  match file ≫= (fun file => (fun b => (file, b)) <$> buffer file) with
  | None => throw "No file data received"
  | Some (file, fileBuffer) =>
      if List.length fileBuffer =? 0 then throw "Uploaded file is empty"
      else
        let entry := uploaded_entry file userId fileId in
        mtry
          (_ <- lift (mkdir (getUserUploadsDir userId)) ;;
           _ <- writeFile (upload_path file userId fileId) (Bytes fileBuffer) ;;
           _ <- addUserFile userId (Some entry) ;;
           let updatedFile := with_status entry "processing" in
           _ <- replace_entry userId fileId updatedFile ;;
           ret updatedFile)
          (fun message =>
             (* [file.path] is not set: nothing to clean up *)
             _ <- replace_entry userId fileId (errorFile entry now) ;;
             throw message)
  end.

(** The background task [processUploadedFile] schedules: extract,
    save, index (best effort), summarise, mark the entry. *)
Definition processDocument (file : upload_file) (userId fileId : string)
    (c : clock) : M unit :=
  let updatedFile := with_status (uploaded_entry file userId fileId) "processing" in
  mtry
    (st <- get_state ;;
     fileContent <- lift (extractTextFromFile st
                            (InString (upload_path file userId fileId))
                            (mimetype file) false) ;;
     if falsy fileContent
     then throw "Failed to extract text from document. Content type: string"
     else
       _ <- saveDocumentContent userId fileId fileContent (t_save c) ;;
       _ <- mtry (_ <- buildIndex_default userId fileId fileContent (t_index c) ;;
                  ret tt)
                 (fun _ => ret tt) ;;
       text <- mtry (generateSummary fileContent fileId userId
                       (Some (originalname file))
                       (t_check c) (t_limit c) (t_store c))
                    (fun _ => ret (generateExtractiveSummary_default
                                     (VString fileContent))) ;;
       replace_entry userId fileId
         (completedFile updatedFile (String.length fileContent) text (t_done c)))
    (fun _ => replace_entry userId fileId (errorFile updatedFile (t_done c))).

(** *** The summary route *)

(** What the summary route sends: a summary with its [isCached] flag,
    an extractive summary with its warning, or a failure. *)
Inductive summary_reply : Type :=
| Summary (text : string) (isCached : bool)
| ExtractiveSummary (text : string)
| SummaryFailure (status : nat) (error : string).

(** [userFiles[fileIndex].summary = summary] *)
Definition with_summary (file : fileInfo) (text : string) : fileInfo :=
  {| id := id file; originalName := originalName file;
     mimeType := mimeType file; status := status file;
     localPath := localPath file; contentUrl := contentUrl file;
     summary := Some text; hasContent := hasContent file;
     contentLength := contentLength file; processedAt := processedAt file |}.

Definition store_summary (userId documentId text : string) : M unit :=
  files <- getUserFiles userId ;;
  match files with
  | Array files =>
      match findIndex documentId files with
      | Some fileIndex =>
          modify (fun st =>
            set_userFiles st
              (<[userId :=
                   alter (fun file => with_summary file text) fileIndex files]>
                 (userFiles st)))
      | None => ret tt
      end
  | NotArray _ => throw (not_a_function "userFiles.findIndex")
  end.

(** The index is built on demand; a failure is logged and dropped. *)
Definition ensure_index (userId documentId documentContent : string) (now : Z)
  : M unit :=
  mtry
    (existingIndex <- loadIndex userId documentId ;;
     match existingIndex with
     | Some _ => ret tt
     | None =>
         _ <- buildIndex_default userId documentId documentContent now ;;
         ret tt
     end)
    (fun _ => ret tt).

(** The [catch (contentError)] of the summary route. *)
Definition summary_fallback (userId documentId : string) : M summary_reply :=
  found <- mtry
             (content <- getDocumentContent userId documentId ;;
              if content_truthy content
              then ret (Some (ExtractiveSummary
                                (generateExtractiveSummary_default
                                   (VString (default EmptyString content)))))
              else ret None)
             (fun _ => ret None) ;;
  match found with
  | Some reply => ret reply
  | None => throw "Failed to process document content for summarization"
  end.

(** [router.get("/:id/summary")]; [ip] is [req.ip].  An entry of the
    file list has no [name], so [file.originalName || file.name] is
    the original name or nothing. *)
Definition getSummary (userId documentId ip : string) (c : clock)
  : M summary_reply :=
  mtry
    (file <- getUserFile userId documentId ;;
     match file with
     | None => ret (SummaryFailure 404 "FILE_NOT_FOUND")
     | Some file =>
         if String.eqb (status file) "processing"
         then ret (SummaryFailure 400 "DOCUMENT_PROCESSING")
         else if String.eqb (status file) "error"
         then ret (SummaryFailure 400 "DOCUMENT_PROCESSING_FAILED")
         else if content_truthy (summary file)
         then ret (Summary (default EmptyString (summary file)) true)
         else
           mtry
             (content <- getDocumentContent userId documentId ;;
              st <- get_state ;;
              content <-
                match (if content_truthy content then None
                       else has_local_file st file) with
                | Some path =>
                    text <- reextract userId documentId path file (t_save c) ;;
                    ret (Some text)
                | None => ret content
                end ;;
              if negb (content_truthy content)
              then ret (SummaryFailure 400 "CONTENT_NOT_AVAILABLE")
              else
                let documentContent := default EmptyString content in
                _ <- ensure_index userId documentId documentContent (t_index c) ;;
                text <- generateSummary documentContent documentId ip
                          (Some (originalName file))
                          (t_check c) (t_limit c) (t_store c) ;;
                _ <- store_summary userId documentId text ;;
                ret (Summary text false))
             (fun _ => summary_fallback userId documentId)
     end)
    (fun message =>
       if String.eqb message "Failed to process document content for summarization"
       then ret (SummaryFailure 500 "SUMMARIZATION_FAILED")
       else ret (SummaryFailure 500 "INTERNAL_SERVER_ERROR")).

End Routes.

End Documents.

(** ** The vocabulary of the statements *)

Module Spec.
Import Js Data St.

Section States.
Context `{External}.

(** Two states with the same module-level objects. *)
Definition same_objects (st st1 : state) : Prop :=
  userFiles st1 = userFiles st
  /\ documentContents st1 = documentContents st
  /\ storeCache st1 = storeCache st
  /\ summaryCache st1 = summaryCache st
  /\ requestCounts st1 = requestCounts st.

(** The caller has used up the quota: its counter is still inside the
    window and has reached [maxRequests]. *)
Definition over_limit (st : state) (ip : string) (now : Z) : Prop :=
  exists count timestamp,
    requestCounts st !! ip = Some (count, timestamp)
    /\ Documents.maxRequests <= count
    /\ ~ (timestamp < now - Documents.windowMs)%Z.

(** The requests of one caller at the times [ts], one after the other,
    and what [checkRateLimit] answers to each. *)
Fixpoint requests (ip : string) (ts : list Z) : M (list bool) :=
  match ts with
  | [] => ret []
  | now :: rest =>
      mbind (Documents.checkRateLimit ip now) (fun allowed =>
      mbind (requests ip rest) (fun answers =>
      ret (allowed :: answers)))
  end.

(** The counter of a caller: [k] requests counted, the last one not
    before [lo]. *)
Definition counted (st : state) (ip : string) (lo : Z) (k : nat) : Prop :=
  (k = 0 /\ requestCounts st !! ip = None)
  \/ (exists timestamp,
        requestCounts st !! ip = Some (k, timestamp) /\ (lo <= timestamp)%Z).

End States.

(** A string of white space only (the empty string included). *)
Fixpoint whitespace_only (s : string) : bool :=
  match s with
  | EmptyString => true
  | String c s' => is_space c && whitespace_only s'
  end.

(** The number of words of a string, a word being a maximal run of
    code units that are not white space; [inword] tells whether the
    code unit before belongs to a word. *)
Fixpoint count_words_from (inword : bool) (s : string) : nat :=
  match s with
  | EmptyString => 0
  | String c s' =>
      if is_space c then count_words_from false s'
      else (if inword then 0 else 1) + count_words_from true s'
  end.

Definition count_words (s : string) : nat := count_words_from false s.

(** A string without white space. *)
Fixpoint no_space (s : string) : bool :=
  match s with
  | EmptyString => true
  | String c s' => negb (is_space c) && no_space s'
  end.

(** The string ends with a full stop, an exclamation mark or a question
    mark. *)
Definition ends_with_terminal (s : string) : bool :=
  match last_char s with
  | Some c => one_of ".!?" c
  | None => false
  end.

(** The punctuation marks of [/\s([.,;:!?])/]. *)
Definition punctuation : ascii -> bool := one_of ".,;:!?".

(** The continuation of [exec]: the remainder of the input. *)
Definition k_rest : option ascii -> string -> option string :=
  fun _ rest => Some rest.

(** A question that the ask route takes to the document: a string
    that is not blank, not a greeting and not "who are you". *)
Definition document_question (question : string) : Prop :=
  Documents.valid_question (Documents.VString question) = Some question
  /\ test Documents.re_greeting (trim (toLowerCase question)) = false
  /\ test Documents.re_identity (trim (toLowerCase question)) = false.

(** What [saveDocumentContent] answers for arguments that are not
    empty: [true], unless [userFiles[userId]] is a value of
    [Object.prototype], on which [findIndex] is not a function. *)
Definition save_outcome `{External} (st : state) (userId : string)
  : js_result bool :=
  match userFiles_get st userId with
  | Some (NotArray _) =>
      Throw ("Failed to save document content: "
             +:+ not_a_function "userFiles[userId].findIndex")
  | _ => Ok true
  end.

(** The object owns no name of [Object.prototype]: the module assigns
    [userFiles[userId]] only where it has found it undefined. *)
Definition plain_keys `{External} (st : state) : Prop :=
  forall userId, is_Some (userFiles st !! userId) -> inherited userId = None.

(** The list of the user is in memory and its first entry for the
    document satisfies [P]. *)
Definition listed `{External} (st : state) (userId documentId : string)
    (P : fileInfo -> Prop) : Prop :=
  exists files file,
    userFiles st !! userId = Some files
    /\ FileStorage.find documentId files = Some file
    /\ P file.

(** A string of letters, digits, hyphens, underscores and dots. *)
Fixpoint all_safe (s : string) : bool :=
  match s with
  | EmptyString => true
  | String c s' => FileUtils.safe_char c && all_safe s'
  end.

(** A string without a hyphen (the separator of the cache keys). *)
Fixpoint no_hyphen (s : string) : bool :=
  match s with
  | EmptyString => true
  | String c s' => negb (Ascii.eqb c "-") && no_hyphen s'
  end.

(** The question and the sentence of the deadline example. *)
Definition deadline_question : string := "What is the deadline?".
Definition report_sentence : string := "The report is due by April 5, 2024.".

End Spec.

(** ** A concrete environment

    The collaborators of an offline deployment with an API key: one
    chunk per document, a vector store that returns its first [k]
    chunks, a generative model with a fixed reply and a file system
    without faults.  It instantiates the statements below. *)

Module Demo.
Import Js Data.

Definition external : External := {|
  pdfLib := fun _ => Ok "text of a pdf";
  mammoth_extractRawText := fun _ => Ok "text of a docx";
  buffer_toString := fun b => Ok (string_of_list_byte b);
  encode_blob := fun _ => [];
  https_get := fun _ => Throw "getaddrinfo ENOTFOUND";
  fetch_text := fun _ => Throw "fetch failed";
  has_api_key := true;
  createDocuments := fun _ _ content => Ok [content];
  store := list string;
  fromDocuments := fun chunks => Ok chunks;
  similaritySearch := fun vectors _ k => Ok (take (Z.to_nat k) vectors);
  generateContent := fun _ _ => GenResponse (Some "A generated summary.");
  io_fails := fun _ => false
|}.

(** The state of a process that has just started on an empty
    [uploads/] directory. *)
Definition fresh : @state external := {|
  userFiles := ∅; documentContents := ∅; storeCache := ∅;
  summaryCache := ∅; requestCounts := ∅; disk := ∅
|}.

(** A caller that has made its ten requests, the last one at time
    1000, ... *)
Definition limited : @state external := {|
  userFiles := ∅; documentContents := ∅; storeCache := ∅;
  summaryCache := ∅;
  requestCounts := {[ "10.0.0.7" := (10, 1000%Z) ]};
  disk := ∅
|}.

(** ... and the same caller with a summary of document [d1] in the
    cache since time 1000. *)
Definition limited_cached : @state external := {|
  userFiles := ∅; documentContents := ∅; storeCache := ∅;
  summaryCache :=
    {[ Documents.cacheKey "d1" "10.0.0.7" := ("A cached summary.", 1000%Z) ]};
  requestCounts := {[ "10.0.0.7" := (10, 1000%Z) ]};
  disk := ∅
|}.

Definition lease : string :=
  "The tenant shall pay the rent on the first day of each month.".

(** The same deployment while the generative model is out of service,
    and a process that has just started in it. *)
Definition unavailable : External := {|
  pdfLib := fun _ => Ok "text of a pdf";
  mammoth_extractRawText := fun _ => Ok "text of a docx";
  buffer_toString := fun b => Ok (string_of_list_byte b);
  encode_blob := fun _ => [];
  https_get := fun _ => Throw "getaddrinfo ENOTFOUND";
  fetch_text := fun _ => Throw "fetch failed";
  has_api_key := true;
  createDocuments := fun _ _ content => Ok [content];
  store := list string;
  fromDocuments := fun _ => Throw "503 Service Unavailable";
  similaritySearch := fun vectors _ k => Ok (take (Z.to_nat k) vectors);
  generateContent := fun _ _ => GenError "503 Service Unavailable" 503 false;
  io_fails := fun _ => false
|}.

(** The same deployment on a file system that refuses every change,
    with the document of user [u1] in it. *)
Definition read_only : External := {|
  pdfLib := fun _ => Ok "text of a pdf";
  mammoth_extractRawText := fun _ => Ok "text of a docx";
  buffer_toString := fun b => Ok (string_of_list_byte b);
  encode_blob := fun _ => [];
  https_get := fun _ => Throw "getaddrinfo ENOTFOUND";
  fetch_text := fun _ => Throw "fetch failed";
  has_api_key := true;
  createDocuments := fun _ _ content => Ok [content];
  store := list string;
  fromDocuments := fun chunks => Ok chunks;
  similaritySearch := fun vectors _ k => Ok (take (Z.to_nat k) vectors);
  generateContent := fun _ _ => GenResponse (Some "A generated summary.");
  io_fails := fun _ => true
|}.

Definition fresh_unavailable : @state unavailable := {|
  userFiles := ∅; documentContents := ∅; storeCache := ∅;
  summaryCache := ∅; requestCounts := ∅; disk := ∅
|}.

(** User [u1] with one processed document [d1]: its entry, its text in
    memory and on disk, its original file and its retrieval index. *)
Definition entry : fileInfo := {|
  id := "d1"; originalName := "lease.txt"; mimeType := "text/plain";
  status := "completed"; localPath := Some "uploads/user-u1/d1.txt";
  contentUrl := None; summary := None; hasContent := true;
  contentLength := Some 46; processedAt := Some 900%Z
|}.

Definition clause : string := "The lease ends on May 1, 2030, unless renewed.".

Definition index : chunkIndex := {|
  createdAt := 900; chunkSize := 1000; overlap := 150;
  chunks := [clause]; totalChunks := 1
|}.

Definition stored : @state external := {|
  userFiles := {[ "u1" := [entry] ]};
  documentContents := {[ FileStorage.contentKey "u1" "d1" := clause ]};
  storeCache := ∅; summaryCache := ∅; requestCounts := ∅;
  disk := {[ "uploads/user-u1/d1.txt" := Bytes [x54; x68; x65];
             FileStorage.contentPath "u1" "d1" := Text clause;
             FileStorage.getUserFilesPath "u1" := FilesJson [entry];
             Rag.indexPath "u1" "d1" := ChunksJson index ]}
|}.

(** The same files and objects on the file system that refuses every
    change. *)
Definition stored_read_only : @state read_only := {|
  userFiles := {[ "u1" := [entry] ]};
  documentContents := {[ FileStorage.contentKey "u1" "d1" := clause ]};
  storeCache := ∅; summaryCache := ∅; requestCounts := ∅;
  disk := {[ "uploads/user-u1/d1.txt" := Bytes [x54; x68; x65];
             FileStorage.contentPath "u1" "d1" := Text clause;
             FileStorage.getUserFilesPath "u1" := FilesJson [entry];
             Rag.indexPath "u1" "d1" := ChunksJson index ]}
|}.

(** A second document of user [u1], not yet processed. *)
Definition memo : fileInfo := {|
  id := "d2"; originalName := "memo.txt"; mimeType := "text/plain";
  status := "processing"; localPath := Some "uploads/user-u1/d2.txt";
  contentUrl := None; summary := None; hasContent := false;
  contentLength := None; processedAt := None
|}.

(** An upload of three bytes of plain text, and the readings of the
    clock of one run of the pipeline. *)
Definition upload : Documents.upload_file := {|
  Documents.buffer := Some [x54; x68; x65];
  Documents.originalname := "the.txt";
  Documents.mimetype := "text/plain"
|}.

(** An upload whose original file is not on disk. *)
Definition scan : Documents.upload_file := {|
  Documents.buffer := None;
  Documents.originalname := "scan.pdf";
  Documents.mimetype := "application/pdf"
|}.

Definition noon : Documents.clock := {|
  Documents.t_save := 1000; Documents.t_index := 1001;
  Documents.t_check := 1002; Documents.t_limit := 1003;
  Documents.t_store := 1004; Documents.t_done := 1005
|}.

End Demo.

(** * Properties *)

Import Js Data St Spec.

(** ** Strings *)

Section StringProperties.

Lemma append_cons c a b : String c a +:+ b = String c (a +:+ b).
Proof. reflexivity. Qed.

Lemma includes_app_r sub x y :
  includes sub y = true -> includes sub (x +:+ y) = true.
Proof.
  intros Hy. induction x as [|c x IH]; [done|].
  rewrite append_cons. cbn [includes]. rewrite IH. apply orb_true_r.
Qed.

Lemma append_nil_r a : a +:+ "" = a.
Proof. induction a as [|c a IH]; [done|]. by rewrite append_cons, IH. Qed.


Lemma append_assoc (a b c : string) : (a +:+ b) +:+ c = a +:+ (b +:+ c).
Proof.
  induction a as [|x a IH]; [done|]. exact (f_equal (String x) IH).
Qed.

Lemma append_prefix_inj (p a b : string) : p +:+ a = p +:+ b -> a = b.
Proof.
  induction p as [|c p IH]; cbn; [done|]. intros [= Heq]. by apply IH.
Qed.

Lemma string_length_app a b :
  String.length (a +:+ b) = String.length a + String.length b.
Proof.
  induction a as [|c a IH]; [done|].
  rewrite append_cons. cbn [String.length]. by rewrite IH.
Qed.

Lemma length_app_sub a b :
  String.length (a +:+ b) - String.length b = String.length a.
Proof. rewrite string_length_app. lia. Qed.

End StringProperties.

(** ** Stateful computations: inversion *)

Section MonadProperties.
Context `{External}.

Lemma mbind_Ok_inv {A B} (m : M A) (f : A -> M B) st b st' :
  mbind m f st = (Ok b, st') ->
  exists a st1, m st = (Ok a, st1) /\ f a st1 = (Ok b, st').
Proof.
  unfold mbind. destruct (m st) as [[a|e] st1]; [eauto|done].
Qed.

Lemma mtry_rethrow_Ok_inv {A} (m : M A) (message : string -> string) st a st' :
  mtry m (fun e => throw (message e)) st = (Ok a, st') -> m st = (Ok a, st').
Proof.
  unfold mtry, throw. destruct (m st) as [[a'|e] st1]; [done|done].
Qed.

Lemma unlink_inv path st r st1 :
  unlink path st = (r, st1) ->
  same_objects st st1
  /\ match r with
     | Ok _ => disk st1 = delete path (disk st)
     | Throw _ => st1 = st
     end.
Proof.
  unfold unlink, same_objects.
  destruct (io_fails path); [by intros [= <- <-]|].
  destruct (disk st !! path); intros [= <- <-]; done.
Qed.

Lemma writeFile_inv path data st r st1 :
  writeFile path data st = (r, st1) ->
  same_objects st st1
  /\ match r with
     | Ok _ => disk st1 = <[path := data]> (disk st)
     | Throw _ => st1 = st
     end.
Proof.
  unfold writeFile, same_objects.
  destruct (io_fails path); intros [= <- <-]; done.
Qed.

End MonadProperties.

(** ** The text extractor *)

Section ExtractorProperties.
Context `{External}.
Import Helpers.

Lemma friendly_message_empty : friendly_message "File is empty" = "The file is empty".
Proof. reflexivity. Qed.

(** Whatever the input is, once it has been resolved to a buffer of
    length 0 the extraction throws the empty-file error. *)
Lemma extract_empty_buffer st fileInput mimeType isUrl fileBuffer filePath :
  input_falsy fileInput = false ->
  read_input st fileInput isUrl = Ok (fileBuffer, filePath) ->
  List.length fileBuffer = 0 ->
  extractTextFromFile st fileInput mimeType isUrl = Throw "The file is empty".
Proof.
  intros Hin Hread Hlen. unfold extractTextFromFile.
  rewrite Hin, Hread. cbn [bind]. rewrite Hlen. reflexivity.
Qed.

(** C3: for every declared media type, extraction of a zero-length
    buffer throws the error whose message is "The file is empty" (the
    [empty_file] class); it returns no text.  The same holds for the
    path of an existing file of zero bytes. *)
Theorem extract_zero_length_input (st : state) (mimeType : string) :
  extractTextFromFile st (InBuffer []) mimeType false = Throw "The file is empty"
  /\ (forall path,
        truthy path = true ->
        is_http_string (InString path) = false ->
        disk st !! path = Some (Bytes []) ->
        extractTextFromFile st (InString path) mimeType false
        = Throw "The file is empty").
Proof.
  split.
  - apply extract_empty_buffer with (fileBuffer := []) (filePath := None);
      reflexivity.
  - intros path Htruthy Hhttp Hdisk.
    apply extract_empty_buffer with (fileBuffer := []) (filePath := Some path).
    + unfold input_falsy, truthy in *. destruct (falsy path); done.
    + unfold read_input. rewrite Hhttp. cbn [orb].
      unfold existsSync, readFile_bytes. rewrite Hdisk.
      rewrite bool_decide_eq_true_2 by eauto. reflexivity.
    + reflexivity.
Qed.

End ExtractorProperties.

(** ** The content store *)

Section StorageProperties.
Context `{External}.
Import FileStorage.

Lemma contentPath_not_filesPath userId documentId :
  contentPath userId documentId <> getUserFilesPath userId.
Proof.
  unfold contentPath, getUserFilesPath. intros Heq.
  apply append_prefix_inj in Heq. discriminate Heq.
Qed.

Lemma find_Some_id fileId files file :
  find fileId files = Some file -> id file = fileId /\ file ∈ files.
Proof.
  induction files as [|f files IH]; cbn; [done|].
  destruct (String.eqb (id f) fileId) eqn:Heq.
  - intros [= <-]. apply String.eqb_eq in Heq. split; [done|]. apply list_elem_of_here.
  - intros Hfind. destruct (IH Hfind) as [? ?]. split; [done|].
    by apply list_elem_of_further.
Qed.

Lemma findIndex_lookup fileId files index :
  findIndex fileId files = Some index ->
  exists file, files !! index = Some file /\ id file = fileId.
Proof.
  revert index. induction files as [|f files IH]; cbn; [done|]. intros index.
  destruct (String.eqb (id f) fileId) eqn:Heq.
  - intros [= <-]. apply String.eqb_eq in Heq. eauto.
  - destruct (findIndex fileId files) as [i|]; [|done].
    intros [= <-]. cbn. by apply IH.
Qed.

Lemma findIndex_find fileId files index :
  findIndex fileId files = Some index -> find fileId files = files !! index.
Proof.
  revert index. induction files as [|f files IH]; cbn; [done|]. intros index.
  destruct (String.eqb (id f) fileId).
  - by intros [= <-].
  - destruct (findIndex fileId files) as [i|]; [|done].
    intros [= <-]. cbn. by apply IH.
Qed.

Lemma find_None_not_in fileId files :
  fileId ∉ List.map id files -> find fileId files = None.
Proof.
  induction files as [|f files IH]; cbn; [done|]. intros Hnotin.
  destruct (String.eqb (id f) fileId) eqn:Heq.
  - apply String.eqb_eq in Heq. exfalso. apply Hnotin. rewrite Heq.
    apply list_elem_of_here.
  - apply IH. intros Hin. apply Hnotin. by apply list_elem_of_further.
Qed.

(** With unique identifiers, [splice] at the index [findIndex] found
    leaves no entry for the identifier. *)
Lemma find_after_splice fileId files index :
  NoDup (List.map id files) ->
  findIndex fileId files = Some index ->
  find fileId (delete index files) = None.
Proof.
  revert index. induction files as [|f files IH]; cbn; [done|].
  intros index Hnodup. apply NoDup_cons in Hnodup as [Hnotin Hnodup].
  destruct (String.eqb (id f) fileId) eqn:Heq.
  - intros [= <-]. cbn. apply String.eqb_eq in Heq. subst fileId.
    by apply find_None_not_in.
  - destruct (findIndex fileId files) as [i|] eqn:Hi; [|done].
    intros [= <-]. cbn. rewrite Heq. by apply IH.
Qed.

(** C10: saving the empty string throws "Missing required parameters"
    whatever the user and the document are, and leaves the memory cache
    and the files as they were; an empty text is never stored. *)
Theorem save_empty_content_rejected (st : state) (userId documentId : string)
    (now : Z) :
  saveDocumentContent userId documentId "" now st
  = (Throw "Missing required parameters", st).
Proof.
  unfold saveDocumentContent. cbn [falsy]. rewrite !orb_true_r. reflexivity.
Qed.

Lemma userFiles_get_own st userId files :
  userFiles st !! userId = Some files ->
  userFiles_get st userId = Some (Array files).
Proof. intros Hfiles. unfold userFiles_get. by rewrite Hfiles. Qed.

Lemma userFiles_get_Array st userId files :
  userFiles_get st userId = Some (Array files) ->
  userFiles st !! userId = Some files.
Proof.
  unfold userFiles_get. destruct (userFiles st !! userId); [by intros [= ->]|].
  by destruct (inherited userId).
Qed.

Lemma ensureUserFiles_in_memory st userId files :
  userFiles st !! userId = Some files ->
  ensureUserFiles userId st = (Ok (Array files), st).
Proof.
  intros Hfiles. unfold ensureUserFiles.
  by rewrite (userFiles_get_own _ _ _ Hfiles).
Qed.

Lemma userFiles_get_plain st userId :
  inherited userId = None ->
  userFiles_get st userId = Array <$> userFiles st !! userId.
Proof.
  intros Hplain. unfold userFiles_get. rewrite Hplain.
  by destruct (userFiles st !! userId).
Qed.

(** The last step of a save: the state it leaves differs in the file
    lists at most. *)
Lemma mark_entry_inv userId documentId len now st r st1 :
  mark_entry userId documentId len now st = (r, st1) ->
  documentContents st1 = documentContents st
  /\ storeCache st1 = storeCache st
  /\ disk st1 = disk st
  /\ r = match userFiles_get st userId with
         | Some (NotArray _) =>
             Throw (not_a_function "userFiles[userId].findIndex")
         | _ => Ok tt
         end.
Proof.
  unfold mark_entry.
  destruct (userFiles_get st userId) as [[files|len']|];
    [destruct (findIndex documentId files)| |]; by intros [= <- <-].
Qed.

Lemma save_content_ok st userId documentId content now :
  truthy userId = true -> truthy documentId = true -> truthy content = true ->
  exists st1,
    saveDocumentContent userId documentId content now st
    = (save_outcome st userId, st1)
    /\ documentContents st1
       = <[contentKey userId documentId := content]> (documentContents st)
    /\ (io_fails (getUserUploadsDir userId) = false ->
        io_fails (contentPath userId documentId) = false ->
        disk st1 = <[contentPath userId documentId := Text content]> (disk st)).
Proof.
  unfold truthy. intros Hu Hd Hc.
  apply negb_true_iff in Hu, Hd, Hc.
  unfold saveDocumentContent. rewrite Hu, Hd, Hc. cbn [orb].
  unfold mtry at 1, mbind at 1, cache_content, modify.
  unfold mbind at 1.
  set (st_c := set_documentContents st _).
  assert (exists st_d,
            mtry (mbind (lift (mkdir (getUserUploadsDir userId)))
                    (fun _ => writeFile (contentPath userId documentId)
                                (Text content)))
              (fun _ => ret tt) st_c = (Ok tt, st_d)
            /\ userFiles st_d = userFiles st
            /\ documentContents st_d = documentContents st_c
            /\ (io_fails (getUserUploadsDir userId) = false ->
                io_fails (contentPath userId documentId) = false ->
                disk st_d
                = <[contentPath userId documentId := Text content]> (disk st)))
    as (st_d & -> & Hlist & Hmem & Hdisk).
  { unfold mtry, mbind, lift, mkdir, writeFile, ret.
    destruct (io_fails (getUserUploadsDir userId));
      destruct (io_fails (contentPath userId documentId));
      eexists; (split; [reflexivity|]); done. }
  unfold mbind at 1.
  destruct (mark_entry userId documentId (String.length content) now st_d)
    as [r st1] eqn:Hmark.
  apply mark_entry_inv in Hmark as (Hm1 & _ & Hd1 & ->).
  assert (userFiles_get st_d userId = userFiles_get st userId) as ->.
  { unfold userFiles_get. by rewrite Hlist. }
  exists st1. unfold save_outcome.
  destruct (userFiles_get st userId) as [[files|len]|]; cbn [ret throw];
    (split; [reflexivity|]); (split; [by rewrite Hm1, Hmem|]);
    intros ? ?; rewrite Hd1; by apply Hdisk.
Qed.

(** The first layer: what the memory cache holds is what [load]
    returns, and the state is left alone. *)
Lemma load_from_memory st userId documentId content :
  truthy userId = true -> truthy documentId = true ->
  documentContents st !! contentKey userId documentId = Some content ->
  getDocumentContent userId documentId st = (Ok (Some content), st).
Proof.
  unfold truthy. intros Hu Hd Hmem. apply negb_true_iff in Hu, Hd.
  unfold getDocumentContent. rewrite Hu, Hd. cbn [orb].
  unfold mtry, mbind, get_state. rewrite Hmem. reflexivity.
Qed.

(** The second layer never yields a content: the read of the file is
    refused before it starts. *)
Lemma content_from_disk_nothing st userId documentId :
  content_from_disk userId documentId st = (Ok None, st).
Proof.
  unfold content_from_disk, mbind, get_state.
  destruct (existsSync st (contentPath userId documentId)); reflexivity.
Qed.

(** Hence a miss in memory is answered from the file list alone. *)
Lemma load_memory_miss st userId documentId :
  truthy userId = true -> truthy documentId = true ->
  documentContents st !! contentKey userId documentId = None ->
  (forall file,
     fst (getUserFile userId documentId st) = Ok (Some file) ->
     contentUrl file = None) ->
  fst (getDocumentContent userId documentId st) = Ok None.
Proof.
  unfold truthy. intros Hu Hd Hmem Hurl. apply negb_true_iff in Hu, Hd.
  unfold getDocumentContent. rewrite Hu, Hd. cbn [orb].
  unfold mtry, mbind at 1, get_state. rewrite Hmem.
  unfold mbind at 1. rewrite content_from_disk_nothing.
  unfold mbind.
  destruct (getUserFile userId documentId st) as [[[file|]|e] st1] eqn:Hfile;
    [|done|done].
  unfold content_from_url.
  by rewrite (Hurl file).
Qed.

Lemma removeDocumentContent_inv userId documentId st b st1 :
  removeDocumentContent userId documentId st = (Ok b, st1) ->
  userFiles st1 = userFiles st
  /\ documentContents st1
     = delete (contentKey userId documentId) (documentContents st)
  /\ storeCache st1 = storeCache st
  /\ disk st1 = delete (contentPath userId documentId) (disk st).
Proof.
  unfold removeDocumentContent, mbind, modify, get_state, ret, existsSync. cbn.
  case_bool_decide as Hex.
  - destruct (unlink _ _) as [[[]|e] st2] eqn:Hunlink; [|done].
    intros [= _ <-]. apply unlink_inv in Hunlink as [(?&?&?&?&?) Hdisk].
    by rewrite Hdisk.
  - intros [= _ <-]. cbn. repeat split.
    symmetry. apply delete_id. by apply eq_None_not_Some.
Qed.

Lemma unlink_local_inv file st r st1 :
  unlink_local file st = (r, st1) ->
  same_objects st st1
  /\ (disk st1 = disk st
      \/ exists p, file ≫= has_local_file st = Some p
                   /\ disk st1 = delete p (disk st)).
Proof.
  unfold unlink_local. destruct (file ≫= has_local_file st) as [p|].
  - intros Hunlink. apply unlink_inv in Hunlink as [? Hdisk]. split; [done|].
    destruct r; [right; eauto|left; by subst].
  - intros [= <- <-]. split; [done|]. by left.
Qed.

Lemma persist_files_inv userId st r st1 :
  persist_files userId st = (r, st1) ->
  same_objects st st1
  /\ (disk st1 = disk st
      \/ exists data, disk st1 = <[getUserFilesPath userId := data]> (disk st)).
Proof.
  unfold persist_files, mbind, get_state, mtry, ret.
  destruct (writeFile _ _ st) as [[[]|e] st2] eqn:Hwrite;
    intros [= <- <-]; apply writeFile_inv in Hwrite as [? Hdisk].
  - split; [done|]. right. eauto.
  - subst st2. split; [done|]. by left.
Qed.

(** What a successful [removeUserFile] has done. *)
Lemma removeUserFile_success st st' userId fileId :
  removeUserFile userId fileId st = (Ok true, st') ->
  exists files index,
    userFiles st !! userId = Some files
    /\ findIndex fileId files = Some index
    /\ userFiles st' = alter (delete index) userId (userFiles st)
    /\ documentContents st'
       = delete (contentKey userId fileId) (documentContents st)
    /\ storeCache st' = storeCache st
    /\ disk st' !! contentPath userId fileId = None.
Proof.
  unfold removeUserFile.
  destruct (userFiles_get st userId) as [[files|len]|] eqn:Hfiles; [|done|done].
  apply userFiles_get_Array in Hfiles.
  destruct (findIndex fileId files) as [index|] eqn:Hidx; [|done].
  intros Hrun. exists files, index. split; [done|]. split; [done|].
  apply (mtry_rethrow_Ok_inv _ (fun _ => "Failed to remove file")) in Hrun.
  apply mbind_Ok_inv in Hrun as ([] & st1 & Hlocal & Hrun).
  apply mbind_Ok_inv in Hrun as (b & st2 & Hcontent & Hrun).
  apply mbind_Ok_inv in Hrun as ([] & st3 & Hsplice & Hrun).
  apply mbind_Ok_inv in Hrun as ([] & st4 & Hpersist & Hrun).
  injection Hrun as <-.
  apply unlink_local_inv in Hlocal as [(Hf1 & Hc1 & Hs1 & _) _].
  apply removeDocumentContent_inv in Hcontent as (Hf2 & Hc2 & Hs2 & Hd2).
  injection Hsplice as <-.
  apply persist_files_inv in Hpersist as [(Hf4 & Hc4 & Hs4 & _) Hd4].
  cbn in *. repeat split.
  - by rewrite Hf4, Hf2, Hf1.
  - by rewrite Hc4, Hc2, Hc1.
  - by rewrite Hs4, Hs2, Hs1.
  - destruct Hd4 as [-> | [data ->]].
    + rewrite Hd2. apply lookup_delete_eq.
    + rewrite lookup_insert_ne by (apply not_eq_sym, contentPath_not_filesPath).
      rewrite Hd2. apply lookup_delete_eq.
Qed.

(** X1: a save of a text that is not empty, for a user and a document
    that are not empty, answers [true] unless [userFiles[userId]] is a
    value of [Object.prototype] (then it throws, the text being cached
    already); in particular it answers [true] for every user whose name
    is not a property of [Object.prototype].  Either way, within the
    run [load] returns exactly the saved text, from the memory cache,
    and changes nothing. *)
Lemma save_then_load_same_run (st : state) (userId documentId content : string)
    (now : Z) :
  truthy userId = true -> truthy documentId = true -> truthy content = true ->
  let saved := saveDocumentContent userId documentId content now st in
  saved.1 = save_outcome st userId
  /\ (inherited userId = None -> saved.1 = Ok true)
  /\ getDocumentContent userId documentId saved.2 = (Ok (Some content), saved.2).
Proof.
  intros Hu Hd Hc saved. subst saved.
  destruct (save_content_ok st userId documentId content now Hu Hd Hc)
    as (st1 & -> & Hmem & _).
  split; [done|]. split.
  { intros Hplain. cbn [fst]. unfold save_outcome.
    rewrite (userFiles_get_plain _ _ Hplain).
    by destruct (userFiles st !! userId). }
  apply load_from_memory; [done|done|].
  cbn [snd]. rewrite Hmem. apply lookup_insert_eq.
Qed.

(** C7: within a run, [load] after a [save] returns the saved text
    from the memory cache (the save answers [true], unless
    [userFiles[userId]] is a value of [Object.prototype]: then it
    throws after the text has been cached and written).  After a
    restart the text is on disk but [load] does not return it: the read
    of the durable copy in [getDocumentContent] is refused (a callback
    read without callback), and for a document without [contentUrl]
    the result is [null]. *)
Theorem load_after_restart_misses_saved_content (st : state)
    (userId documentId content : string) (now : Z) :
  truthy userId = true -> truthy documentId = true -> truthy content = true ->
  io_fails (getUserUploadsDir userId) = false ->
  io_fails (contentPath userId documentId) = false ->
  (forall l file,
     disk st !! getUserFilesPath userId = Some (FilesJson l) ->
     find documentId l = Some file -> contentUrl file = None) ->
  let saved := saveDocumentContent userId documentId content now st in
  saved.1 = save_outcome st userId
  /\ (inherited userId = None -> saved.1 = Ok true)
  /\ getDocumentContent userId documentId saved.2 = (Ok (Some content), saved.2)
  /\ disk (restart saved.2) !! contentPath userId documentId = Some (Text content)
  /\ (getDocumentContent userId documentId (restart saved.2)).1 = Ok None.
Proof.
  intros Hu Hd Hc Hdir Hfile Hurl saved. subst saved.
  destruct (save_content_ok st userId documentId content now Hu Hd Hc)
    as (st1 & -> & Hmem & Hdisk).
  specialize (Hdisk Hdir Hfile). cbn [fst snd].
  split; [done|]. split.
  { intros Hplain. unfold save_outcome.
    rewrite (userFiles_get_plain _ _ Hplain).
    by destruct (userFiles st !! userId). }
  split.
  { apply load_from_memory; [done|done|]. rewrite Hmem. apply lookup_insert_eq. }
  split.
  { cbn. rewrite Hdisk. apply lookup_insert_eq. }
  apply load_memory_miss; [done|done|apply lookup_empty|].
  intros file. unfold getUserFile, mbind, ensureUserFiles, userFiles_get.
  cbn [restart userFiles disk]. rewrite lookup_empty.
  destruct (inherited userId) as [[[|n]|]|]; cbn; try done.
  rewrite Hdisk.
  rewrite lookup_insert_ne by apply contentPath_not_filesPath.
  intros [= Hfind].
  destruct (disk st !! getUserFilesPath userId) as [[| |l|]|] eqn:Hjson;
    try done.
  by apply (Hurl l file).
Qed.

End StorageProperties.

Lemma save_then_load_witness :
  let saved :=
    @FileStorage.saveDocumentContent Demo.external "u1" "d1" "hello" 0 Demo.fresh in
  saved.1 = Ok true
  /\ (inherited "u1" = None -> saved.1 = Ok true)
  /\ @FileStorage.getDocumentContent Demo.external "u1" "d1" saved.2
     = (Ok (Some "hello"), saved.2).
Proof.
  apply (@save_then_load_same_run Demo.external Demo.fresh "u1" "d1" "hello" 0%Z);
    reflexivity.
Defined.

(** The save of "hello" for user [u1], document [d1], in a fresh
    process: found again before the restart, lost to [load] after it. *)
Lemma load_after_restart_witness :
  let saved :=
    @FileStorage.saveDocumentContent Demo.external "u1" "d1" "hello" 0 Demo.fresh in
  saved.1 = Ok true
  /\ (inherited "u1" = None -> saved.1 = Ok true)
  /\ @FileStorage.getDocumentContent Demo.external "u1" "d1" saved.2
     = (Ok (Some "hello"), saved.2)
  /\ disk (restart saved.2) !! FileStorage.contentPath "u1" "d1"
     = Some (Text "hello")
  /\ (@FileStorage.getDocumentContent Demo.external "u1" "d1" (restart saved.2)).1
     = Ok None.
Proof.
  apply (@load_after_restart_misses_saved_content Demo.external
           Demo.fresh "u1" "d1" "hello" 0%Z); try reflexivity.
  intros l file Hjson. vm_compute in Hjson. discriminate Hjson.
Defined.

(** ** The chunk indexer and the retriever *)

Section IndexProperties.
Context `{External}.
Import Rag.

Lemma trim_whitespace_only s : whitespace_only s = true -> trim s = EmptyString.
Proof.
  unfold trim. induction s as [|c s IH]; cbn; [done|].
  intros [Hc Hs]%andb_true_iff. rewrite Hc. by apply IH.
Qed.

Lemma blank_whitespace_only s : whitespace_only s = true -> blank s = true.
Proof.
  intros Hs. unfold blank. rewrite (trim_whitespace_only s Hs).
  apply orb_true_r.
Qed.

(** [loadIndex] never throws. *)
Lemma loadIndex_total userId documentId st :
  exists index st1, loadIndex userId documentId st = (Ok index, st1).
Proof.
  unfold loadIndex, mtry.
  destruct (mbind _ _ st) as [[index|e] st1]; eauto.
Qed.

Lemma retrieveTopK_total userId documentId question k st :
  exists context st1,
    retrieveTopK userId documentId question k st = (Ok context, st1).
Proof.
  unfold retrieveTopK, mtry.
  destruct (mbind _ _ st) as [[context|e] st1]; eauto.
Qed.

Lemma loadIndex_missing userId documentId st :
  disk st !! indexPath userId documentId = None ->
  loadIndex userId documentId st = (Ok None, st).
Proof.
  intros Hmissing. unfold loadIndex, mtry, mbind, get_state, existsSync.
  rewrite Hmissing. by rewrite bool_decide_eq_false_2 by (by intros [? ?]).
Qed.

(** C4: [retrieveTopK] never throws; it returns the empty string when
    [loadIndex] finds no index for the user and the document (as when
    there is no [chunks.json]), and when the question is empty or white
    space only.  Otherwise it asks the vector store that [loadIndex]
    returns for the [Z.max 1 k] chunks nearest to the question, once,
    and returns them joined by blank lines (the empty string when the
    store returns none or fails); so the number of chunks asked of the
    store is [k] clamped to at least 1, and any [k <= 0] asks for one
    chunk and behaves as [k = 1]. *)
Theorem retrieveTopK_degrades_gracefully (st : state)
    (userId documentId question : string) (k : Z) :
  (exists context, (retrieveTopK userId documentId question k st).1 = Ok context)
  /\ ((loadIndex userId documentId st).1 = Ok None ->
      (retrieveTopK userId documentId question k st).1 = Ok EmptyString)
  /\ (disk st !! indexPath userId documentId = None ->
      retrieveTopK userId documentId question k st = (Ok EmptyString, st))
  /\ (whitespace_only question = true ->
      (retrieveTopK userId documentId question k st).1 = Ok EmptyString)
  /\ retrieveTopK userId documentId question k st
     = retrieveTopK userId documentId question (Z.max 1 k) st
  /\ ((k <= 0)%Z ->
      retrieveTopK userId documentId question k st
      = retrieveTopK userId documentId question 1 st)
  /\ (forall vectors st1,
        loadIndex userId documentId st = (Ok (Some vectors), st1) ->
        blank question = false ->
        retrieveTopK userId documentId question k st
        = (Ok match similaritySearch vectors question (Z.max 1 k) with
              | Ok results =>
                  if List.length results =? 0 then EmptyString
                  else join blank_line results
              | Throw _ => EmptyString
              end, st1))
  /\ (forall vectors st1,
        (k <= 0)%Z ->
        loadIndex userId documentId st = (Ok (Some vectors), st1) ->
        blank question = false ->
        retrieveTopK userId documentId question k st
        = (Ok match similaritySearch vectors question 1 with
              | Ok results =>
                  if List.length results =? 0 then EmptyString
                  else join blank_line results
              | Throw _ => EmptyString
              end, st1)).
Proof.
  assert (forall n vectors st1,
            loadIndex userId documentId st = (Ok (Some vectors), st1) ->
            blank question = false ->
            retrieveTopK userId documentId question n st
            = (Ok match similaritySearch vectors question (Z.max 1 n) with
                  | Ok results =>
                      if List.length results =? 0 then EmptyString
                      else join blank_line results
                  | Throw _ => EmptyString
                  end, st1)) as Hasked.
  { intros n vectors st1 Hload Hblank.
    unfold retrieveTopK, mtry, mbind at 1. rewrite Hload, Hblank.
    unfold mbind, lift, ret.
    destruct (similaritySearch vectors question (Z.max 1 n)) as [results|e];
      [|done].
    by destruct (List.length results =? 0). }
  split; [|split; [|split; [|split; [|split; [|split; [|split]]]]]].
  7:{ exact (Hasked k). }
  7:{ intros vectors st1 Hk Hload Hblank.
      rewrite (Hasked k vectors st1 Hload Hblank).
      by rewrite (Z.max_l 1 k) by lia. }
  - destruct (retrieveTopK_total userId documentId question k st)
      as (context & st1 & ->). eauto.
  - unfold retrieveTopK, mtry, mbind.
    destruct (loadIndex userId documentId st) as [[[vectors|]|e] st1]; done.
  - intros Hmissing. unfold retrieveTopK, mtry, mbind.
    by rewrite (loadIndex_missing _ _ _ Hmissing).
  - intros Hblank%blank_whitespace_only.
    unfold retrieveTopK, mtry, mbind.
    destruct (loadIndex_total userId documentId st) as (index & st1 & ->).
    destruct index; [|done]. by rewrite Hblank.
  - unfold retrieveTopK. by rewrite (Z.max_assoc 1 1 k).
  - intros Hk. unfold retrieveTopK.
    by rewrite (Z.max_l 1 k), (Z.max_l 1 1) by lia.
Qed.

(** *** [buildIndex] *)

(** X2: a blank text is refused with "No content provided for
    indexing", and nothing is written. *)
Lemma buildIndex_blank userId documentId content cs ov now st :
  blank content = true ->
  buildIndex userId documentId content cs ov now st
  = (Throw "No content provided for indexing", st).
Proof. intros Hblank. unfold buildIndex, mtry. by rewrite Hblank. Qed.

Lemma buildIndex_no_documents userId documentId content cs ov now st :
  blank content = false ->
  createDocuments cs ov content = Ok [] ->
  buildIndex userId documentId content cs ov now st
  = (Throw "No chunks created from content", st).
Proof.
  intros Hblank Hdocs. unfold buildIndex, mtry, mbind, lift.
  by rewrite Hblank, Hdocs.
Qed.

(** X3: every chunk that reaches [chunks.json] is longer than 20 code
    units once trimmed. *)
Lemma buildIndex_chunks_usable userId documentId content cs ov now st dir st1 :
  buildIndex userId documentId content cs ov now st = (Ok dir, st1) ->
  exists data,
    disk st1 !! indexPath userId documentId = Some (ChunksJson data)
    /\ Forall (fun chunk => 20 < String.length (trim chunk)) (chunks data).
Proof.
  unfold buildIndex, mtry, mbind, lift, throw, ret.
  destruct (blank content); [done|].
  destruct (createDocuments cs ov content) as [docs|e]; [|done].
  destruct (List.length docs =? 0); [done|].
  destruct (mkdir _); [|done].
  destruct (writeFile _ _ st) as [[[]|e] st2] eqn:Hwrite; [|done].
  intros [= _ <-]. apply writeFile_inv in Hwrite as [_ Hdisk].
  eexists. rewrite Hdisk, lookup_insert_eq. split; [done|]. cbn.
  apply Forall_forall. intros chunk Hin%list_elem_of_In.
  apply filter_In in Hin as [_ Husable]. by apply Nat.ltb_lt in Husable.
Qed.

Lemma filter_usable_none docs :
  Forall (fun chunk => usable chunk = false) docs -> List.filter usable docs = [].
Proof.
  induction 1 as [|c l Hc _ IH]; [done|]. cbn [List.filter]. by rewrite Hc.
Qed.

(** C2: a blank text is refused and every chunk of 20 code units or
    fewer is discarded, but the "no chunks" check looks at the
    documents of the splitter before the filter: when the splitter
    returns documents and none is usable, [buildIndex] succeeds and
    writes an index whose chunk list is empty. *)
Theorem buildIndex_persists_empty_chunk_set (st : state)
    (userId documentId content : string) (cs ov : nat) (now : Z)
    (docs : list string) :
  blank content = false ->
  createDocuments cs ov content = Ok docs ->
  docs <> [] ->
  Forall (fun chunk => usable chunk = false) docs ->
  io_fails (getIndexDir userId documentId) = false ->
  io_fails (indexPath userId documentId) = false ->
  buildIndex userId documentId content cs ov now st
  = (Ok (getIndexDir userId documentId),
     set_disk st
       (<[indexPath userId documentId :=
            ChunksJson {| createdAt := now; chunkSize := cs; overlap := ov;
                          chunks := []; totalChunks := 0 |}]> (disk st))).
Proof.
  intros Hblank Hdocs Hne Hshort Hdir Hfile.
  unfold buildIndex, mtry, mbind, lift, mkdir, writeFile, ret.
  rewrite Hblank, Hdocs, Hdir, Hfile, (filter_usable_none docs Hshort).
  by destruct docs.
Qed.

End IndexProperties.

(** A text of three spaces is refused. *)
Lemma buildIndex_blank_witness :
  @Rag.buildIndex Demo.external "u1" "d1" "   " 1000 150 0 Demo.fresh
  = (Throw "No content provided for indexing", Demo.fresh).
Proof.
  apply (@buildIndex_blank Demo.external "u1" "d1" "   " 1000 150 0%Z Demo.fresh).
  reflexivity.
Defined.

(** The index of the lease clause holds the clause, and nothing
    shorter than 21 code units. *)
Lemma buildIndex_chunks_usable_witness :
  exists data,
    disk (@Rag.buildIndex Demo.external "u1" "d1" Demo.clause 1000 150 0 Demo.fresh).2
      !! Rag.indexPath "u1" "d1" = Some (ChunksJson data)
    /\ Forall (fun chunk => 20 < String.length (trim chunk)) (chunks data).
Proof.
  apply (@buildIndex_chunks_usable Demo.external "u1" "d1" Demo.clause 1000 150 0%Z
           Demo.fresh (Rag.getIndexDir "u1" "d1")).
  vm_compute. reflexivity.
Defined.

(** The text "hello": one document of five code units, no usable
    chunk, and [buildIndex] stores an empty index for it. *)
Lemma buildIndex_empty_chunk_set_witness :
  @Rag.buildIndex Demo.external "u1" "d1" "hello" 1000 150 0 Demo.fresh
  = (Ok (Rag.getIndexDir "u1" "d1"),
     set_disk Demo.fresh
       (<[Rag.indexPath "u1" "d1" :=
            ChunksJson {| createdAt := 0; chunkSize := 1000; overlap := 150;
                          chunks := []; totalChunks := 0 |}]> (disk Demo.fresh))).
Proof.
  apply (@buildIndex_persists_empty_chunk_set Demo.external
           Demo.fresh "u1" "d1" "hello" 1000 150 0%Z ["hello"]);
    try reflexivity.
  - discriminate.
  - repeat constructor.
Defined.

(** ** The summarizer *)

Section SummarizerProperties.
Context `{External}.
Import Documents.

Lemma checkRateLimit_over_limit st ip now :
  over_limit st ip now ->
  exists st1, checkRateLimit ip now st = (Ok false, st1)
              /\ summaryCache st1 = summaryCache st.
Proof.
  intros (count & timestamp & Hlookup & Hcount & Hfresh).
  unfold checkRateLimit.
  rewrite (proj2 (map_lookup_filter_Some _ _ ip (count, timestamp)))
    by (split; [done|]; exact Hfresh).
  cbn -[maxRequests Nat.leb]. apply Nat.leb_le in Hcount. rewrite Hcount. eauto.
Qed.

Lemma cached_summary_hit st documentId ip now summary timestamp :
  summaryCache st !! cacheKey documentId ip = Some (summary, timestamp) ->
  (now - timestamp < CACHE_TTL)%Z ->
  cached_summary st documentId ip now = Some summary.
Proof.
  intros Hentry Hfresh. unfold cached_summary. rewrite Hentry.
  apply Z.ltb_lt in Hfresh. by rewrite Hfresh.
Qed.

Lemma generateSummary_hit st text documentId ip fileName t1 t2 t3 summary :
  cached_summary st documentId ip t1 = Some summary ->
  generateSummary text documentId ip fileName t1 t2 t3 st = (Ok summary, st).
Proof.
  intros Hhit. unfold generateSummary, mbind, get_state. by rewrite Hhit.
Qed.

(** C5: when the cache holds an entry for the document and the caller
    that is younger than the TTL, [generateSummary] returns its text as
    it is and changes nothing; hence any two calls for that document
    and caller made while the entry is younger than the TTL return the
    same text, whatever text, file name and clock they are given. *)
Theorem cached_summary_returned_verbatim (st : state)
    (text documentId ip : string) (fileName : option string) (t1 t2 t3 : Z)
    (summary : string) (timestamp : Z) :
  summaryCache st !! cacheKey documentId ip = Some (summary, timestamp) ->
  (t1 - timestamp < CACHE_TTL)%Z ->
  generateSummary text documentId ip fileName t1 t2 t3 st = (Ok summary, st)
  /\ (forall text' fileName' t1' t2' t3',
        (t1' - timestamp < CACHE_TTL)%Z ->
        (generateSummary text' documentId ip fileName' t1' t2' t3'
           (generateSummary text documentId ip fileName t1 t2 t3 st).2).1
        = (generateSummary text documentId ip fileName t1 t2 t3 st).1).
Proof.
  intros Hentry Hfresh.
  pose proof (cached_summary_hit _ _ _ _ _ _ Hentry Hfresh) as Hhit.
  rewrite (generateSummary_hit _ text _ _ fileName _ t2 t3 _ Hhit).
  split; [done|]. intros text' fileName' t1' t2' t3' Hfresh'. cbn [fst snd].
  by rewrite (generateSummary_hit _ text' _ _ fileName' t1' t2' t3' summary
                (cached_summary_hit _ _ _ _ _ _ Hentry Hfresh')).
Qed.

(** X4: a summary that the generative model produced is stored, and a
    later call inside the TTL returns the very same text. *)
Lemma generated_summary_is_reused st text documentId ip fileName t1 t2 t3 raw :
  cached_summary st documentId ip t1 = None ->
  (checkRateLimit ip t2 st).1 = Ok true ->
  has_api_key = true ->
  generateContent
    (summary_prompt
       match fileName with
       | Some name => if truthy name then dquote +:+ name +:+ dquote
                      else "this document"
       | None => "this document"
       end (truncate 8000 text)) 600 = GenResponse (Some raw) ->
  falsy raw || (String.length (trim raw) =? 0) = false ->
  exists st1,
    generateSummary text documentId ip fileName t1 t2 t3 st = (Ok (trim raw), st1)
    /\ forall text' fileName' t1' t2' t3',
         (t1' - t3 < CACHE_TTL)%Z ->
         generateSummary text' documentId ip fileName' t1' t2' t3' st1
         = (Ok (trim raw), st1).
Proof.
  intros Hmiss Hallowed Hkey Hgen Hraw.
  destruct (checkRateLimit ip t2 st) as [[[]|e] st1] eqn:Hlimit; try done.
  exists (set_summaryCache st1
            (<[cacheKey documentId ip := (trim raw, t3)]> (summaryCache st1))).
  split.
  - unfold generateSummary, mbind at 1, get_state. rewrite Hmiss.
    unfold mbind at 1. rewrite Hlimit. cbn [negb].
    unfold mtry, generative_summary. rewrite Hkey. cbn [negb].
    rewrite Hgen, Hraw. reflexivity.
  - intros text' fileName' t1' t2' t3' Hfresh.
    apply generateSummary_hit.
    apply (cached_summary_hit _ _ _ _ _ t3); [|done]. cbn.
    apply lookup_insert_eq.
Qed.

(** C6 (as amended): a caller over the limit whose document has no
    fresh cache entry gets the extractive summary of the text; the
    call does not throw and stores no summary. *)
Theorem over_limit_gets_extractive_summary (st : state)
    (text documentId ip : string) (fileName : option string) (t1 t2 t3 : Z) :
  cached_summary st documentId ip t1 = None ->
  over_limit st ip t2 ->
  exists st1,
    generateSummary text documentId ip fileName t1 t2 t3 st
    = (Ok (generateExtractiveSummary_default (VString text)), st1)
    /\ summaryCache st1 = summaryCache st.
Proof.
  intros Hmiss Hover.
  destruct (checkRateLimit_over_limit st ip t2 Hover) as (st1 & Hlimit & Hcache).
  unfold generateSummary, mbind, get_state. rewrite Hmiss, Hlimit. cbn [negb].
  unfold ret. eauto.
Qed.

End SummarizerProperties.

(** A first call that reaches the generative model, and the calls
    that follow within the hour. *)
Lemma generated_summary_witness :
  exists st1,
    @Documents.generateSummary Demo.external Demo.lease "d1" "10.0.0.7" None
      2000 2000 2500 Demo.fresh
    = (Ok (trim "A generated summary."), st1)
    /\ forall text' fileName' t1' t2' t3',
         (t1' - 2500 < Documents.CACHE_TTL)%Z ->
         @Documents.generateSummary Demo.external text' "d1" "10.0.0.7"
           fileName' t1' t2' t3' st1
         = (Ok (trim "A generated summary."), st1).
Proof.
  apply (@generated_summary_is_reused Demo.external Demo.fresh Demo.lease "d1"
           "10.0.0.7" None 2000%Z 2000%Z 2500%Z "A generated summary.");
    reflexivity.
Defined.

(** A cached summary of [d1] for the caller, asked for twice, one and
    two seconds after it was stored. *)
Lemma cached_summary_witness :
  @Documents.generateSummary Demo.external Demo.lease "d1" "10.0.0.7" None
    2000 2000 2000 Demo.limited_cached
  = (Ok "A cached summary.", Demo.limited_cached)
  /\ (forall text' fileName' t1' t2' t3',
        (t1' - 1000 < Documents.CACHE_TTL)%Z ->
        (@Documents.generateSummary Demo.external text' "d1" "10.0.0.7"
           fileName' t1' t2' t3'
           (@Documents.generateSummary Demo.external Demo.lease "d1" "10.0.0.7"
              None 2000 2000 2000 Demo.limited_cached).2).1
        = (@Documents.generateSummary Demo.external Demo.lease "d1" "10.0.0.7"
             None 2000 2000 2000 Demo.limited_cached).1).
Proof.
  apply (@cached_summary_returned_verbatim Demo.external Demo.limited_cached
           Demo.lease "d1" "10.0.0.7" None 2000%Z 2000%Z 2000%Z
           "A cached summary." 1000%Z).
  - reflexivity.
  - reflexivity.
Defined.

Lemma over_limit_limited : @over_limit Demo.external Demo.limited "10.0.0.7" 2000.
Proof.
  exists 10, 1000%Z. split; [reflexivity|]. split; [reflexivity|].
  unfold Documents.windowMs. lia.
Qed.

Lemma over_limit_limited_cached :
  @over_limit Demo.external Demo.limited_cached "10.0.0.7" 2000.
Proof.
  exists 10, 1000%Z. split; [reflexivity|]. split; [reflexivity|].
  unfold Documents.windowMs. lia.
Qed.

(** The caller over the limit, without a cached summary. *)
Lemma over_limit_extractive_witness :
  exists st1,
    @Documents.generateSummary Demo.external Demo.lease "d1" "10.0.0.7" None
      2000 2000 2000 Demo.limited
    = (Ok (Documents.generateExtractiveSummary_default (Documents.VString Demo.lease)),
       st1)
    /\ summaryCache st1 = summaryCache Demo.limited.
Proof.
  apply (@over_limit_gets_extractive_summary Demo.external Demo.limited
           Demo.lease "d1" "10.0.0.7" None 2000%Z 2000%Z 2000%Z).
  - reflexivity.
  - exact over_limit_limited.
Defined.

(** C6 as stated fails: the caller is over the limit, and the call
    returns the cached summary, which is not the extractive summary of
    the text. *)
Lemma over_limit_returns_cached_summary :
  @over_limit Demo.external Demo.limited_cached "10.0.0.7" 2000
  /\ (@Documents.generateSummary Demo.external Demo.lease "d1" "10.0.0.7" None
        2000 2000 2000 Demo.limited_cached).1
     = Ok "A cached summary."
  /\ Documents.generateExtractiveSummary_default (Documents.VString Demo.lease)
     = Demo.lease
  /\ Demo.lease <> "A cached summary.".
Proof.
  split; [exact over_limit_limited_cached|].
  split; [reflexivity|]. split; [vm_compute; reflexivity|]. discriminate.
Qed.

(** ** Deletion *)

Section DeletionProperties.
Context `{External}.
Import FileStorage Rag Documents.

Lemma indexPath_not_contentPath userId documentId :
  indexPath userId documentId <> contentPath userId documentId.
Proof.
  unfold indexPath, getIndexDir, contentPath, getUserUploadsDir.
  rewrite append_assoc. intros Heq. apply append_prefix_inj in Heq.
  discriminate Heq.
Qed.

Lemma indexPath_not_filesPath userId documentId :
  indexPath userId documentId <> getUserFilesPath userId.
Proof.
  unfold indexPath, getIndexDir, getUserFilesPath, getUserUploadsDir.
  rewrite append_assoc. intros Heq. apply append_prefix_inj in Heq.
  discriminate Heq.
Qed.

(** The files that a successful [removeUserFile] leaves alone: all but
    the content file, [files.json] and the local file of the entry. *)
Lemma removeUserFile_keeps_other_files st st' userId fileId path :
  removeUserFile userId fileId st = (Ok true, st') ->
  path <> contentPath userId fileId ->
  path <> getUserFilesPath userId ->
  (forall files file,
     userFiles st !! userId = Some files ->
     find fileId files = Some file -> localPath file <> Some path) ->
  disk st' !! path = disk st !! path.
Proof.
  unfold removeUserFile.
  destruct (userFiles_get st userId) as [[files|len]|] eqn:Hfiles; [|done|done].
  apply userFiles_get_Array in Hfiles.
  destruct (findIndex fileId files) as [index|] eqn:Hidx; [|done].
  intros Hrun Hcontent Hjson Hlocal.
  apply (mtry_rethrow_Ok_inv _ (fun _ => "Failed to remove file")) in Hrun.
  apply mbind_Ok_inv in Hrun as ([] & st1 & H1 & Hrun).
  apply mbind_Ok_inv in Hrun as (b & st2 & H2 & Hrun).
  apply mbind_Ok_inv in Hrun as ([] & st3 & H3 & Hrun).
  apply mbind_Ok_inv in Hrun as ([] & st4 & H4 & Hrun).
  injection Hrun as <-. injection H3 as <-.
  apply unlink_local_inv in H1 as [_ Hd1].
  apply removeDocumentContent_inv in H2 as (_ & _ & _ & Hd2).
  apply persist_files_inv in H4 as [_ Hd4]. cbn in Hd4.
  assert (disk st1 !! path = disk st !! path) as Hstep1.
  { destruct Hd1 as [-> | (p & Hp & ->)]; [done|].
    apply lookup_delete_ne. intros ->.
    rewrite <- (findIndex_find _ _ _ Hidx) in Hp.
    destruct (find fileId files) as [file|] eqn:Hfind; [|done]. cbn in Hp.
    unfold has_local_file in Hp.
    destruct (localPath file) as [q|] eqn:Hq; [|done].
    destruct (truthy q && existsSync st q); [|done].
    injection Hp as ->. by apply (Hlocal files file). }
  assert (disk st2 !! path = disk st !! path) as Hstep2.
  { rewrite Hd2, lookup_delete_ne by done. exact Hstep1. }
  destruct Hd4 as [-> | [data ->]]; [done|].
  by rewrite lookup_insert_ne.
Qed.

Lemma getUserFile_missing st userId fileId files :
  userFiles st !! userId = Some files ->
  find fileId files = None ->
  getUserFile userId fileId st = (Ok None, st).
Proof.
  intros Hfiles Hfind. unfold getUserFile, mbind, ret.
  by rewrite (ensureUserFiles_in_memory _ _ _ Hfiles), Hfind.
Qed.

(** C1 (as amended): after a successful [removeUserFile] of a
    document of a user whose file identifiers are unique, the text of
    the document is gone from the memory cache and from the disk, the
    content store has nothing for it, the content route answers 404
    FILE_NOT_FOUND and the ask route answers 404 DOCUMENT_NOT_FOUND to
    every question it takes to the document.  The retrieval index is
    not touched: the vector stores in memory are the same, and
    [chunks.json] is as before unless it is the local file of the
    document. *)
Theorem delete_removes_content_and_entry (st st' : state)
    (userId documentId : string) :
  (forall files, userFiles st !! userId = Some files ->
                 NoDup (List.map id files)) ->
  removeUserFile userId documentId st = (Ok true, st') ->
  documentContents st' !! contentKey userId documentId = None
  /\ disk st' !! contentPath userId documentId = None
  /\ getDocumentContent userId documentId st' = (Ok None, st')
  /\ (forall now,
        getContent userId documentId now st'
        = (Ok (Failure 404 "FILE_NOT_FOUND"), st'))
  /\ (forall question now,
        document_question question ->
        ask userId documentId (VString question) now st'
        = (Ok (Failure 404 "DOCUMENT_NOT_FOUND"), st'))
  /\ storeCache st' = storeCache st
  /\ ((forall files file,
         userFiles st !! userId = Some files ->
         find documentId files = Some file ->
         localPath file <> Some (indexPath userId documentId)) ->
      disk st' !! indexPath userId documentId
      = disk st !! indexPath userId documentId).
Proof.
  intros Hunique Hrun.
  destruct (removeUserFile_success _ _ _ _ Hrun)
    as (files & index & Hfiles & Hidx & Hlist & Hmem & Hstore & Hdisk).
  assert (getUserFile userId documentId st' = (Ok None, st')) as Hgone.
  { apply getUserFile_missing with (files := delete index files).
    - by rewrite Hlist, lookup_alter_eq, Hfiles.
    - apply find_after_splice; [by apply Hunique|done]. }
  assert (documentContents st' !! contentKey userId documentId = None) as Hcache.
  { rewrite Hmem. apply lookup_delete_eq. }
  repeat split; try done.
  - unfold getDocumentContent.
    destruct (falsy userId || falsy documentId); [done|].
    unfold mtry, mbind at 1, get_state. rewrite Hcache.
    unfold mbind at 1. rewrite content_from_disk_nothing.
    unfold mbind. by rewrite Hgone.
  - intros now. unfold getContent, mtry, mbind. by rewrite Hgone.
  - intros question now (Hvalid & Hgreeting & Hidentity).
    unfold ask. rewrite Hvalid, Hgreeting, Hidentity.
    unfold mtry, mbind. by rewrite Hgone.
  - intros Hlocal.
    apply (removeUserFile_keeps_other_files _ _ _ _ _ Hrun);
      [apply indexPath_not_contentPath|apply indexPath_not_filesPath|done].
Qed.

End DeletionProperties.

(** The deletion of document [d1] of user [u1]. *)
Lemma delete_witness :
  let st := Demo.stored in
  let st' := (@FileStorage.removeUserFile Demo.external "u1" "d1" st).2 in
  documentContents st' !! FileStorage.contentKey "u1" "d1" = None
  /\ disk st' !! FileStorage.contentPath "u1" "d1" = None
  /\ @FileStorage.getDocumentContent Demo.external "u1" "d1" st' = (Ok None, st')
  /\ (forall now,
        @Documents.getContent Demo.external "u1" "d1" now st'
        = (Ok (Documents.Failure 404 "FILE_NOT_FOUND"), st'))
  /\ (forall question now,
        @document_question question ->
        @Documents.ask Demo.external "u1" "d1" (Documents.VString question) now st'
        = (Ok (Documents.Failure 404 "DOCUMENT_NOT_FOUND"), st'))
  /\ storeCache st' = storeCache st
  /\ ((forall files file,
         userFiles st !! "u1" = Some files ->
         FileStorage.find "d1" files = Some file ->
         localPath file <> Some (Rag.indexPath "u1" "d1")) ->
      disk st' !! Rag.indexPath "u1" "d1" = disk st !! Rag.indexPath "u1" "d1").
Proof.
  apply (@delete_removes_content_and_entry Demo.external Demo.stored).
  - intros files Hfiles. vm_compute in Hfiles. injection Hfiles as <-.
    apply NoDup_singleton.
  - vm_compute. reflexivity.
Defined.

(** C1 as stated fails: the deletion of [d1] succeeds, and afterwards
    [chunks.json] is still there, the retriever still returns the chunk
    of the deleted document, and a greeting sent to the ask route of
    the deleted document is answered with a greeting. *)
Lemma delete_keeps_retrieval_index :
  let st' := (@FileStorage.removeUserFile Demo.external "u1" "d1" Demo.stored).2 in
  (@FileStorage.removeUserFile Demo.external "u1" "d1" Demo.stored).1 = Ok true
  /\ disk st' !! Rag.indexPath "u1" "d1" = Some (ChunksJson Demo.index)
  /\ (@Rag.loadIndex Demo.external "u1" "d1" st').1 = Ok (Some [Demo.clause])
  /\ (@Rag.retrieveTopK Demo.external "u1" "d1" "When does the lease end?" 4 st').1
     = Ok Demo.clause
  /\ (@Documents.ask Demo.external "u1" "d1" (Documents.VString "hi") 0 st').1
     = Ok (Documents.Success "Hello! How can I help you with your document?").
Proof. vm_compute. repeat split. Qed.

(** ** The extractive answer *)

Section AnswerProperties.
Import Documents.

Lemma rmatch_alt_fail r1 r2 prev s k :
  rmatch r1 prev s k = None -> rmatch r2 prev s k = None ->
  rmatch (RAlt r1 r2) prev s k = None.
Proof. intros H1 H2. cbn [rmatch]. by rewrite H1, H2. Qed.

Lemma rmatch_wordb_fail r prev s k :
  rmatch r prev s k = None -> rmatch (RSeq RWordB r) prev s k = None.
Proof. intros Hr. cbn [rmatch]. by destruct (xorb _ _). Qed.

(** No date starts at a space ... *)
Lemma exec_date_space prev s : exec dateRegex prev (String " " s) = None.
Proof.
  unfold exec, dateRegex. cbn [RAlts RSeqs].
  repeat apply rmatch_alt_fail; apply rmatch_wordb_fail;
    vm_compute; reflexivity.
Qed.

(** ... and the date of the report is matched where it stands. *)
Lemma exec_date_april rest :
  exec dateRegex (Some " "%char) ("April 5, 2024" +:+ rest) = Some rest.
Proof. vm_compute. reflexivity. Qed.

Lemma match_all_go_step r prev c s :
  match_all_go r prev (String c s) 0
  = match match_len r prev (String c s) with
    | Some (S n) => substring0 (S n) (String c s) :: match_all_go r (Some c) s n
    | _ => match_all_go r (Some c) s 0
    end.
Proof. reflexivity. Qed.

Lemma match_len_None r prev s : exec r prev s = None -> match_len r prev s = None.
Proof. intros Hexec. unfold match_len. by rewrite Hexec. Qed.

Lemma match_len_Some r prev s rest :
  exec r prev s = Some rest ->
  match_len r prev s = Some (String.length s - String.length rest).
Proof. intros Hexec. unfold match_len. by rewrite Hexec. Qed.

(** A text that contains " April 5, 2024" holds at least one date. *)
Lemma match_all_date_found a b prev :
  match_all_go dateRegex prev (a +:+ " April 5, 2024" +:+ b) 0 <> [].
Proof.
  revert prev. induction a as [|c a IH]; intros prev.
  - replace ("" +:+ " April 5, 2024" +:+ b)
      with (String " " ("April 5, 2024" +:+ b)) by reflexivity.
    rewrite match_all_go_step, (match_len_None _ _ _ (exec_date_space _ _)).
    replace ("April 5, 2024" +:+ b)
      with (String "A" ("pril 5, 2024" +:+ b)) by reflexivity.
    rewrite match_all_go_step.
    replace (String "A" ("pril 5, 2024" +:+ b))
      with ("April 5, 2024" +:+ b) by reflexivity.
    rewrite (match_len_Some _ _ _ _ (exec_date_april b)), length_app_sub.
    discriminate.
  - rewrite append_cons, match_all_go_step.
    destruct (match_len dateRegex prev _) as [[|n]|]; [apply IH|discriminate|apply IH].
Qed.

(** The window of a sentence contains the sentence. *)
Lemma windowText_contains sentences i s :
  truthy s = true -> exists a b, windowText sentences i s = a +:+ s +:+ b.
Proof.
  intros Hs. unfold windowText.
  generalize (if i =? 0 then None else sentences !! (i - 1)).
  generalize (sentences !! (i + 1)). intros next before.
  destruct before as [p|], next as [n|]; cbn [option_list app List.filter];
    rewrite Hs; repeat case_match; cbn [join].
  all: try (exists (p +:+ " "), (" " +:+ n); by rewrite append_assoc).
  all: try (exists (p +:+ " "), ""; by rewrite append_assoc, append_nil_r).
  all: try (exists "", (" " +:+ n); done).
  all: exists "", ""; by rewrite append_nil_r.
Qed.

Lemma matchAll_from_start r s : matchAll r 0 s = match_all_go r None s 0.
Proof.
  unfold matchAll. destruct (Nat.ltb_spec (String.length s) 0); [lia|].
  by destruct s.
Qed.

(** The window of the report sentence holds a date, whatever its
    neighbours are. *)
Lemma report_window_has_date sentences i :
  matchAll dateRegex 0 (windowText sentences i report_sentence) <> [].
Proof.
  destruct (windowText_contains sentences i report_sentence eq_refl)
    as (a & b & ->).
  rewrite matchAll_from_start.
  replace report_sentence
    with ("The report is due by" +:+ " April 5, 2024" +:+ ".") by reflexivity.
  rewrite !append_assoc, <- (append_assoc a).
  apply match_all_date_found.
Qed.

(** The window of the first sentence starts with that sentence. *)
Lemma windowText_first sentences s :
  truthy s = true -> exists b, windowText sentences 0 s = s +:+ b.
Proof.
  intros Hs. unfold windowText. cbn [Nat.eqb option_list app].
  destruct (sentences !! (0 + 1)) as [n|]; cbn [option_list app List.filter];
    rewrite Hs; repeat case_match; cbn [join].
  all: try (by exists (" " +:+ n)).
  all: exists ""; by rewrite append_nil_r.
Qed.

(** In a text that starts with the report sentence, the first date is
    the date of the report. *)
Lemma report_first_date b :
  exists dates,
    matchAll dateRegex 0 (report_sentence +:+ b) = "April 5, 2024" :: dates.
Proof.
  rewrite matchAll_from_start.
  assert (match_len dateRegex (Some " "%char)
            ("April 5, 2024" +:+ ("." +:+ b)) = Some 13) as Hlen.
  { rewrite (match_len_Some _ _ _ _ (exec_date_april _)).
    by rewrite length_app_sub. }
  unfold report_sentence. cbv [append] in Hlen |- *.
  do 21 (rewrite match_all_go_step, match_len_None by (vm_compute; reflexivity)).
  rewrite match_all_go_step, Hlen.
  eexists. reflexivity.
Qed.

Lemma deadline_loop_step sentences i s rest :
  deadline_loop sentences i (s :: rest)
  = if test keywordRegex s then
      match matchAll dateRegex 0 (windowText sentences i s) with
      | date :: _ => Some (deadline_answer date s)
      | [] => deadline_loop sentences (S i) rest
      end
    else deadline_loop sentences (S i) rest.
Proof. reflexivity. Qed.

Lemma deadline_loop_app sentences i l1 l2 :
  deadline_loop sentences i (l1 ++ l2)
  = match deadline_loop sentences i l1 with
    | Some answer => Some answer
    | None => deadline_loop sentences (i + List.length l1) l2
    end.
Proof.
  revert i. induction l1 as [|s l1 IH]; intros i.
  - cbn [app List.length]. by rewrite Nat.add_0_r.
  - rewrite <- app_comm_cons, !deadline_loop_step, IH.
    cbn [List.length]. rewrite Nat.add_succ_r.
    destruct (test keywordRegex s); [|done].
    by destruct (matchAll dateRegex 0 (windowText sentences i s)).
Qed.

Lemma deadline_question_normalized :
  normalize_question deadline_question = "what is the deadline".
Proof. vm_compute. reflexivity. Qed.

Lemma deadline_question_detected :
  test re_deadline_query "what is the deadline" = true.
Proof. vm_compute. reflexivity. Qed.

Lemma report_sentence_has_keyword : test keywordRegex report_sentence = true.
Proof. vm_compute. reflexivity. Qed.

Lemma context_sentences_empty : context_sentences "" = [].
Proof. vm_compute. reflexivity. Qed.

(** C8 (as amended): for the question "What is the deadline?" and a
    context among whose sentences "The report is due by April 5, 2024."
    stands, with no sentence before it that has a deadline keyword and
    a date in its window, the answer names the first date of the window
    of that sentence and quotes the sentence; it contains
    "April 5, 2024".  When the sentence is the first of the context,
    the date the answer names is "April 5, 2024". *)
Theorem deadline_answer_quotes_report (context : string)
    (before after : list string) :
  context_sentences context = before ++ report_sentence :: after ->
  deadline_loop (before ++ report_sentence :: after) 0 before = None ->
  exists date dates,
    matchAll dateRegex 0
      (windowText (before ++ report_sentence :: after) (List.length before)
         report_sentence)
    = date :: dates
    /\ generateExtractiveAnswer (VString deadline_question) (VString context)
       = deadline_answer date report_sentence
    /\ includes "April 5, 2024" (deadline_answer date report_sentence) = true
    /\ includes (dquote +:+ report_sentence +:+ dquote)
         (deadline_answer date report_sentence) = true
    /\ (before = [] -> date = "April 5, 2024").
Proof.
  intros Hsentences Hbefore.
  assert (falsy context = false) as Hcontext.
  { destruct context; [|done]. rewrite context_sentences_empty in Hsentences.
    by destruct before. }
  unfold generateExtractiveAnswer. cbn [value_falsy String_or_empty bind].
  rewrite Hcontext. rewrite deadline_question_normalized,
    deadline_question_detected, Hsentences, deadline_loop_app, Hbefore,
    deadline_loop_step, report_sentence_has_keyword.
  pose proof (report_window_has_date (before ++ report_sentence :: after)
                (0 + List.length before)) as Hdate.
  change (0 + List.length before) with (List.length before) in *.
  destruct (matchAll dateRegex 0 _) as [|date dates] eqn:Hwindow; [done|].
  exists date, dates. split; [reflexivity|]. split; [reflexivity|].
  unfold deadline_answer. split; [|split].
  - apply includes_app_r, includes_app_r. vm_compute. reflexivity.
  - apply includes_app_r, includes_app_r. vm_compute. reflexivity.
  - intros ->. cbn [List.length app] in Hwindow.
    destruct (windowText_first (report_sentence :: after) report_sentence
                eq_refl) as [b Hfirst].
    destruct (report_first_date b) as [dates' Hreport].
    rewrite Hfirst, Hreport in Hwindow. by injection Hwindow as <- _.
Qed.

End AnswerProperties.

(** The context that is the report sentence alone. *)
Lemma deadline_answer_witness :
  exists date dates,
    matchAll Documents.dateRegex 0
      (Documents.windowText ([] ++ report_sentence :: [])
         (List.length (@nil string)) report_sentence)
    = date :: dates
    /\ Documents.generateExtractiveAnswer (Documents.VString deadline_question)
         (Documents.VString report_sentence)
       = Documents.deadline_answer date report_sentence
    /\ includes "April 5, 2024" (Documents.deadline_answer date report_sentence)
       = true
    /\ includes (Documents.dquote +:+ report_sentence +:+ Documents.dquote)
         (Documents.deadline_answer date report_sentence) = true
    /\ (@nil string = [] -> date = "April 5, 2024").
Proof.
  apply (deadline_answer_quotes_report report_sentence [] []).
  - vm_compute. reflexivity.
  - reflexivity.
Defined.

(** C8 as stated fails: this context contains the report sentence, but
    an earlier sentence has a deadline keyword ("ends") and a date, and
    the answer quotes that sentence and does not contain
    "April 5, 2024". *)
Lemma deadline_answer_takes_first_match :
  let context :=
    "The contract ends on May 1, 2020. The report is due by April 5, 2024." in
  includes report_sentence context = true
  /\ Documents.generateExtractiveAnswer (Documents.VString deadline_question)
       (Documents.VString context)
     = Documents.deadline_answer "May 1, 2020" "The contract ends on May 1, 2020."
  /\ includes "April 5, 2024"
       (Documents.generateExtractiveAnswer (Documents.VString deadline_question)
          (Documents.VString context)) = false.
Proof. vm_compute. repeat split. Qed.

(** ** The extractive summary *)

Section SummaryProperties.
Import Documents.

Lemma count_words_from_false_le s :
  count_words_from false s <= 1 + count_words_from true s.
Proof. destruct s as [|c s]; cbn; [lia|]. destruct (is_space c); lia. Qed.

Lemma count_words_from_true_le s :
  count_words_from true s <= count_words_from false s.
Proof. destruct s as [|c s]; cbn; [lia|]. destruct (is_space c); lia. Qed.

Lemma count_words_from_skip c s :
  count_words_from false s <= count_words_from false (String c s).
Proof.
  cbn. destruct (is_space c); [lia|].
  pose proof (count_words_from_false_le s). lia.
Qed.

(** *** The patterns of the summary, characterised *)

Lemma star_step m k fuel prev s :
  star m k (S fuel) prev s
  = match m prev s (fun prev' s' =>
            if String.length s' <? String.length s
            then star m k fuel prev' s' else None) with
    | Some rest => Some rest
    | None => k prev s
    end.
Proof. reflexivity. Qed.

Lemma rmatch_char p prev c s k :
  rmatch (RChar p) prev (String c s) k = if p c then k (Some c) s else None.
Proof. reflexivity. Qed.

(** The loop of [\s*] returns a suffix of its input. *)
Lemma star_spaces_suffix fuel prev s :
  exists rest,
    star (rmatch (RChar is_space)) k_rest fuel prev s = Some rest
    /\ String.length rest <= String.length s.
Proof.
  revert prev s. induction fuel as [|fuel IH]; intros prev s.
  - cbn. eauto.
  - rewrite star_step. destruct s as [|c s]; [cbn; eauto|].
    rewrite rmatch_char. destruct (is_space c); [|cbn; eauto].
    destruct (Nat.ltb_spec (String.length s) (String.length (String c s)))
      as [_|Hlt]; [|cbn in Hlt; lia].
    destruct (IH (Some c) s) as (rest & -> & Hlen). exists rest.
    split; [done|]. cbn. lia.
Qed.

Lemma exec_spaces prev c s :
  exec re_spaces prev (String c s)
  = if is_space c
    then star (rmatch (RChar is_space)) k_rest (String.length s) (Some c) s
    else None.
Proof. reflexivity. Qed.

(** [\s+] matches at a code unit exactly when it is white space. *)
Lemma match_len_spaces_space prev c s :
  is_space c = true ->
  exists n, match_len re_spaces prev (String c s) = Some (S n).
Proof.
  intros Hc. unfold match_len. rewrite exec_spaces, Hc.
  destruct (star_spaces_suffix (String.length s) (Some c) s)
    as (rest & -> & Hlen).
  exists (String.length s - String.length rest). f_equal. cbn [String.length]. lia.
Qed.

Lemma match_len_spaces_inv prev c s n :
  match_len re_spaces prev (String c s) = Some n -> is_space c = true.
Proof.
  unfold match_len. rewrite exec_spaces. by destruct (is_space c).
Qed.

Lemma punctuation_not_space p : punctuation p = true -> is_space p = false.
Proof.
  unfold punctuation. cbn [one_of]. rewrite !orb_true_iff.
  intros Hp. repeat destruct Hp as [Hp|Hp]; try done;
    apply Ascii.eqb_eq in Hp; by subst p.
Qed.

(** [\s([.,;:!?])] matches two code units, a white space and a
    punctuation mark. *)
Lemma match_len_space_punct prev s :
  match_len re_space_punct prev s
  = match s with
    | String c (String p rest) =>
        if is_space c && punctuation p then Some 2 else None
    | _ => None
    end.
Proof.
  unfold match_len, exec, re_space_punct. cbn [rmatch].
  destruct s as [|c [|p rest]]; [done|by destruct (is_space c)|].
  fold punctuation. destruct (is_space c); [|done].
  destruct (punctuation p); [|done]. cbn [andb String.length]. f_equal. lia.
Qed.

(** *** Replacement and splitting *)

Lemma replace_go_nil r f prev skip : replace_go r f prev "" skip = "".
Proof. by destruct skip. Qed.

Lemma replace_go_skip r f prev c s n :
  replace_go r f prev (String c s) (S n) = replace_go r f (Some c) s n.
Proof. reflexivity. Qed.

Lemma replace_go_step r f prev c s :
  replace_go r f prev (String c s) 0
  = match match_len r prev (String c s) with
    | Some (S n) => f (substring0 (S n) (String c s)) +:+ replace_go r f (Some c) s n
    | _ => String c (replace_go r f (Some c) s 0)
    end.
Proof. reflexivity. Qed.

(** Collapsing the runs of white space does not add words, whatever
    follows the text. *)
Lemma replace_spaces_words t s :
  (forall prev n,
     count_words_from false (replace_go re_spaces single_space prev s n +:+ t)
     <= count_words_from false (s +:+ t))
  /\ (forall prev,
        count_words_from true (replace_go re_spaces single_space prev s 0 +:+ t)
        <= count_words_from true (s +:+ t)).
Proof.
  induction s as [|c s [IHskip IHword]].
  - split; intros; by rewrite replace_go_nil.
  - assert (forall prev b,
              count_words_from b
                (replace_go re_spaces single_space prev (String c s) 0 +:+ t)
              <= count_words_from b (String c s +:+ t)) as Hstep.
    { intros prev b. rewrite replace_go_step.
      destruct (match_len re_spaces prev (String c s)) as [[|n]|] eqn:Hmatch.
      - apply match_len_spaces_inv in Hmatch.
        rewrite !append_cons. cbn [count_words_from]. rewrite Hmatch.
        apply IHskip.
      - apply match_len_spaces_inv in Hmatch.
        change (single_space (substring0 (S n) (String c s))
                +:+ replace_go re_spaces single_space (Some c) s n)
          with (String " " (replace_go re_spaces single_space (Some c) s n)).
        rewrite !append_cons. cbn [count_words_from]. rewrite Hmatch.
        change (is_space " ") with true. cbn iota. apply IHskip.
      - rewrite !append_cons. cbn [count_words_from].
        destruct (is_space c); [apply IHskip|].
        specialize (IHword (Some c)). lia. }
    split; [|intros prev; apply Hstep].
    intros prev [|n]; [apply Hstep|].
    rewrite replace_go_skip. etrans; [apply IHskip|].
    rewrite append_cons. apply count_words_from_skip.
Qed.

(** Removing the white space before a punctuation mark does not add
    words either. *)
Lemma replace_space_punct_words t n :
  forall s prev b,
    String.length s <= n ->
    count_words_from b (replace_go re_space_punct (drop 1) prev s 0 +:+ t)
    <= count_words_from b (s +:+ t).
Proof.
  induction n as [|n IH]; intros s prev b Hlen.
  - destruct s; [by rewrite replace_go_nil|cbn in Hlen; lia].
  - destruct s as [|c s]; [by rewrite replace_go_nil|].
    rewrite replace_go_step, match_len_space_punct.
    destruct s as [|p rest].
    + rewrite replace_go_nil. done.
    + destruct (is_space c && punctuation p) eqn:Hmatch.
      * apply andb_true_iff in Hmatch as [Hc Hp].
        apply punctuation_not_space in Hp.
        rewrite replace_go_skip.
        change (drop 1 (substring0 2 (String c (String p rest)))
                +:+ replace_go re_space_punct (drop 1) (Some p) rest 0)
          with (String p (replace_go re_space_punct (drop 1) (Some p) rest 0)).
        rewrite !append_cons. cbn [count_words_from]. rewrite Hc.
        cbn [count_words_from]. rewrite Hp.
        assert (String.length rest <= n) as Hrest by (cbn in Hlen; lia).
        specialize (IH rest (Some p) true Hrest). destruct b; lazy iota; lia.
      * rewrite !append_cons. cbn [count_words_from].
        assert (String.length (String p rest) <= n) as Hrest
            by (cbn in Hlen |- *; lia).
        destruct (is_space c).
        -- specialize (IH (String p rest) (Some c) false Hrest).
           rewrite append_cons in IH. cbn [count_words_from] in IH. exact IH.
        -- specialize (IH (String p rest) (Some c) true Hrest).
           rewrite append_cons in IH. cbn [count_words_from] in IH.
           destruct b; lazy iota; lia.
Qed.

(** The pieces between runs of white space hold no white space. *)
Lemma split_spaces_no_space s :
  forall prev skip, Forall (fun w => no_space w = true) (split_go re_spaces prev s skip).
Proof.
  induction s as [|c s IH]; intros prev skip.
  - destruct skip; by repeat constructor.
  - destruct skip as [|skip]; [|apply IH].
    cbn [split_go].
    destruct (match_len re_spaces prev (String c s)) as [[|n]|] eqn:Hmatch.
    + pose proof (match_len_spaces_inv _ _ _ _ Hmatch) as Hc.
      destruct (match_len_spaces_space prev c s Hc) as [m Hm]. congruence.
    + constructor; [done|apply IH].
    + assert (is_space c = false) as Hc.
      { destruct (is_space c) eqn:Hc; [|done].
        destruct (match_len_spaces_space prev c s Hc) as [m Hm]. congruence. }
      specialize (IH (Some c) 0).
      destruct (split_go re_spaces (Some c) s 0) as [|piece pieces].
      * constructor; [|done]. cbn. by rewrite Hc.
      * apply Forall_cons in IH as [Hpiece Hpieces].
        constructor; [|done]. cbn. by rewrite Hc, Hpiece.
Qed.

(** *** Words *)

Lemma count_words_no_space_true w x :
  no_space w = true ->
  count_words_from true (w +:+ x) = count_words_from true x.
Proof.
  induction w as [|c w IH]; [done|]. cbn [no_space].
  intros [Hc Hw]%andb_true_iff. apply negb_true_iff in Hc.
  rewrite append_cons. cbn [count_words_from]. rewrite Hc. by apply IH.
Qed.

Lemma count_words_no_space w x b :
  no_space w = true ->
  count_words_from b (w +:+ x) <= 1 + count_words_from true x.
Proof.
  destruct w as [|c w].
  - intros _. change ("" +:+ x) with x.
    pose proof (count_words_from_false_le x). destruct b; lia.
  - cbn [no_space]. intros [Hc Hw]%andb_true_iff. apply negb_true_iff in Hc.
    rewrite append_cons. cbn [count_words_from]. rewrite Hc.
    rewrite (count_words_no_space_true w x Hw). destruct b; lazy iota; lia.
Qed.

(** Words without white space joined by single spaces, and a tail
    without white space: no more words than were joined. *)
Lemma count_words_join t ws :
  no_space t = true ->
  Forall (fun w => no_space w = true) ws ->
  ws <> [] ->
  forall b, count_words_from b (join " " ws +:+ t) <= List.length ws.
Proof.
  intros Ht. induction 1 as [|w ws Hw Hws IH]; [done|]. intros _ b.
  destruct ws as [|w2 ws].
  - cbn [join List.length].
    etrans; [apply (count_words_no_space w t b Hw)|].
    rewrite <- (append_nil_r t), (count_words_no_space_true t "" Ht). cbn. lia.
  - change (join " " (w :: w2 :: ws))
      with (w +:+ " " +:+ join " " (w2 :: ws)).
    rewrite !append_assoc.
    etrans; [apply (count_words_no_space w _ b Hw)|].
    change (count_words_from true (" " +:+ join " " (w2 :: ws) +:+ t))
      with (count_words_from false (join " " (w2 :: ws) +:+ t)).
    specialize (IH ltac:(done) false). cbn [List.length] in *. lia.
Qed.

Lemma push_words_length targetWords sWords :
  forall words,
    List.length (push_words targetWords words sWords)
    <= Nat.max targetWords (List.length words).
Proof.
  induction sWords as [|w sWords IH]; intros words; cbn [push_words]; [lia|].
  destruct (Nat.leb_spec targetWords (List.length words)); [lia|].
  etrans; [apply IH|]. rewrite length_app. cbn. lia.
Qed.

Lemma push_words_Forall (P : string -> Prop) targetWords sWords :
  Forall P sWords ->
  forall words, Forall P words -> Forall P (push_words targetWords words sWords).
Proof.
  induction 1 as [|w sWords Hw _ IH]; intros words Hwords; cbn [push_words];
    [done|].
  destruct (targetWords <=? List.length words); [done|].
  apply IH. apply Forall_app. by repeat constructor.
Qed.

Lemma compose_length targetWords selected :
  forall words,
    List.length (compose targetWords words selected)
    <= Nat.max targetWords (List.length words).
Proof.
  induction selected as [|s selected IH]; intros words; cbn [compose]; [lia|].
  pose proof (push_words_length targetWords (split re_spaces s) words).
  destruct (targetWords <=? List.length (push_words _ _ _)); [done|].
  etrans; [apply IH|]. lia.
Qed.

Lemma compose_no_space targetWords selected :
  forall words,
    Forall (fun w => no_space w = true) words ->
    Forall (fun w => no_space w = true) (compose targetWords words selected).
Proof.
  induction selected as [|s selected IH]; intros words Hwords; cbn [compose];
    [done|].
  assert (Forall (fun w => no_space w = true)
            (push_words targetWords words (split re_spaces s))) as Hpushed.
  { apply push_words_Forall; [apply split_spaces_no_space|done]. }
  destruct (targetWords <=? List.length (push_words _ _ _)); [done|].
  by apply IH.
Qed.

(** *** The end of the paragraph *)

Lemma last_char_app_single p c : last_char (p +:+ String c "") = Some c.
Proof.
  induction p as [|x p IH]; [done|].
  rewrite append_cons. cbn [last_char]. rewrite IH. by destruct p.
Qed.

Lemma ends_with_terminal_cons c s :
  ends_with_terminal s = true -> ends_with_terminal (String c s) = true.
Proof. unfold ends_with_terminal. by destruct s. Qed.

Lemma match_len_terminal prev c s :
  match_len re_terminal prev (String c s)
  = if one_of ".!?" c
    then match s with EmptyString => Some 1 | String _ _ => None end
    else None.
Proof.
  unfold match_len, exec, re_terminal. cbn [rmatch].
  destruct (one_of ".!?" c); [|done]. by destruct s.
Qed.

Lemma search_terminal s :
  forall prev pos,
    search_go re_terminal prev s pos <> None -> ends_with_terminal s = true.
Proof.
  induction s as [|c s IH]; intros prev pos; cbn [search_go]; [done|].
  rewrite match_len_terminal.
  destruct (one_of ".!?" c) eqn:Hc.
  - destruct s as [|c2 s]; [intros _; unfold ends_with_terminal; by cbn|].
    intros Hfound. apply ends_with_terminal_cons. by apply IH in Hfound.
  - intros Hfound. apply ends_with_terminal_cons. by apply IH in Hfound.
Qed.

Lemma test_terminal s : test re_terminal s = true -> ends_with_terminal s = true.
Proof.
  unfold test, search_from.
  destruct (Nat.ltb_spec (String.length s) 0); [lia|].
  replace (drop 0 s) with s by (by destruct s).
  intros Hfound. apply (search_terminal s (char_before 0 s) 0).
  by destruct (search_go _ _ _ _).
Qed.

Lemma finish_paragraph_terminal words :
  ends_with_terminal (finish_paragraph words) = true.
Proof.
  unfold finish_paragraph.
  destruct (test re_terminal _) eqn:Htest; cbn [negb].
  - by apply test_terminal.
  - unfold ends_with_terminal. by rewrite last_char_app_single.
Qed.

Lemma finish_paragraph_words words targetWords :
  Forall (fun w => no_space w = true) words ->
  List.length words <= targetWords ->
  count_words (finish_paragraph words) <= Nat.max 1 targetWords.
Proof.
  intros Hwords Hlen. unfold finish_paragraph, count_words, replaceAll.
  assert (forall t, no_space t = true ->
            count_words_from false
              (replace_go re_space_punct (drop 1) None
                 (replace_go re_spaces single_space None (join " " words) 0)
                 0 +:+ t)
            <= Nat.max 1 targetWords) as Hbound.
  { intros t Ht.
    etrans; [apply (replace_space_punct_words t _ _ None false (le_n _))|].
    etrans; [apply (proj1 (replace_spaces_words t (join " " words)) None 0)|].
    destruct words as [|w words].
    - change (join " " [] +:+ t) with ("" +:+ t).
      etrans; [by apply (count_words_no_space "" t false)|].
      rewrite <- (append_nil_r t), (count_words_no_space_true t "" Ht). cbn. lia.
    - etrans; [by apply (count_words_join t (w :: words))|]. lia. }
  destruct (test re_terminal _); cbn [negb].
  - rewrite <- (append_nil_r (replace_go _ _ _ _ _)). by apply Hbound.
  - by apply Hbound.
Qed.

(** *** Blank input *)

Lemma replace_whitespace_only r s :
  forall prev skip,
    whitespace_only s = true ->
    whitespace_only (replace_go r single_space prev s skip) = true.
Proof.
  induction s as [|c s IH]; intros prev skip; [by destruct skip|].
  cbn [whitespace_only]. intros [Hc Hs]%andb_true_iff.
  destruct skip as [|skip]; [|by apply IH].
  rewrite replace_go_step.
  destruct (match_len r prev (String c s)) as [[|n]|].
  - cbn [whitespace_only]. rewrite Hc. by apply IH.
  - change (single_space (substring0 (S n) (String c s))
            +:+ replace_go r single_space (Some c) s n)
      with (String " " (replace_go r single_space (Some c) s n)).
    cbn [whitespace_only]. change (is_space " ") with true. by apply IH.
  - cbn [whitespace_only]. rewrite Hc. by apply IH.
Qed.

Lemma clean_whitespace_only str : whitespace_only str = true -> clean str = "".
Proof.
  intros Hstr. unfold clean, replaceAll.
  by apply trim_whitespace_only, replace_whitespace_only,
    replace_whitespace_only.
Qed.

Lemma neutral_message_words : count_words neutral_message = 6.
Proof. vm_compute. reflexivity. Qed.

Lemma neutral_message_terminal : ends_with_terminal neutral_message = true.
Proof. vm_compute. reflexivity. Qed.

(** C9: for every input, [generateExtractiveSummary] with the default
    budget returns a string of at most 180 words that ends with a full
    stop, an exclamation mark or a question mark; it never throws, and
    it returns the neutral message when the conversion of the input to
    a string fails and when the input is blank. *)
Theorem extractive_summary_budget_and_ending (text : js_value) :
  count_words (generateExtractiveSummary_default text) <= 180
  /\ ends_with_terminal (generateExtractiveSummary_default text) = true
  /\ (forall message,
        String_or_empty text = Throw message ->
        generateExtractiveSummary_default text = neutral_message)
  /\ (forall str,
        String_or_empty text = Ok str -> whitespace_only str = true ->
        generateExtractiveSummary_default text = neutral_message).
Proof.
  unfold generateExtractiveSummary_default, generateExtractiveSummary.
  destruct (String_or_empty text) as [str|message]; cbn [bind].
  - destruct (falsy (clean str)) eqn:Hclean.
    + rewrite neutral_message_words, neutral_message_terminal.
      split; [lia|]. by repeat split.
    + repeat split.
      * apply (finish_paragraph_words _ 180).
        -- by apply compose_no_space.
        -- etrans; [apply compose_length|]. cbn. lia.
      * apply finish_paragraph_terminal.
      * done.
      * intros str' [= <-] Hblank.
        by rewrite (clean_whitespace_only str Hblank) in Hclean.
  - rewrite neutral_message_words, neutral_message_terminal.
    split; [lia|]. by repeat split.
Qed.

End SummaryProperties.


(** ** The rate limit *)

Section RateLimitProperties.
Context `{External}.
Import Documents.

Lemma kept_lookup (m : gmap string (nat * Z)) (windowStart : Z) ip :
  filter (fun entry : string * (nat * Z) => ¬ (entry.2.2 < windowStart)%Z) m !! ip
  = match m !! ip with
    | Some (count, timestamp) =>
        if bool_decide (timestamp < windowStart)%Z then None
        else Some (count, timestamp)
    | None => None
    end.
Proof.
  destruct (m !! ip) as [[count timestamp]|] eqn:Hm.
  - case_bool_decide as Hold.
    + apply map_lookup_filter_None. right. intros x Hx. cbn.
      rewrite Hm in Hx. injection Hx as <-. cbn. tauto.
    + apply map_lookup_filter_Some. done.
  - apply map_lookup_filter_None. by left.
Qed.

(** One request of a caller whose counter is inside the window. *)
Lemma checkRateLimit_counted st ip now lo k :
  counted st ip lo k -> (now - windowMs <= lo)%Z -> (lo <= now)%Z ->
  (checkRateLimit ip now st).1 = Ok (k <? maxRequests)
  /\ counted (checkRateLimit ip now st).2 ip lo
       (if k <? maxRequests then S k else k).
Proof.
  intros Hcounted Hlo Hnow. unfold checkRateLimit. cbn zeta.
  rewrite kept_lookup.
  destruct Hcounted as [[-> Hnone] | (timestamp & Hsome & Hts)].
  - rewrite Hnone. cbn -[maxRequests]. split; [done|].
    right. exists now. cbn. rewrite lookup_insert_eq. done.
  - rewrite Hsome. rewrite bool_decide_eq_false_2 by lia.
    cbn -[maxRequests Nat.leb Nat.ltb].
    destruct (Nat.ltb_spec k maxRequests) as [Hlt|Hge].
    + rewrite (proj2 (Nat.leb_gt _ _)) by done. cbn. split; [done|].
      right. exists now. cbn. rewrite lookup_insert_eq. done.
    + rewrite (proj2 (Nat.leb_le _ _)) by done. cbn. split; [done|].
      right. exists timestamp. cbn. rewrite kept_lookup, Hsome.
      rewrite bool_decide_eq_false_2 by lia. done.
Qed.

Lemma requests_counted ts : forall st ip lo k,
  counted st ip lo k ->
  Forall (fun now => lo <= now <= lo + windowMs)%Z ts ->
  (requests ip ts st).1
  = Ok (replicate (Nat.min (List.length ts) (maxRequests - k)) true
        ++ replicate (List.length ts - (maxRequests - k)) false).
Proof.
  induction ts as [|now ts IH]; intros st ip lo k Hcounted Hts.
  - cbn. by destruct (maxRequests - k).
  - apply Forall_cons in Hts as [Hnow Hts].
    destruct (checkRateLimit_counted st ip now lo k Hcounted) as [Hres Hnext];
      [lia|lia|].
    cbn [requests]. unfold mbind at 1.
    destruct (checkRateLimit ip now st) as [[allowed|e] st1]; [|done].
    cbn [fst snd] in Hres, Hnext. injection Hres as ->.
    specialize (IH st1 ip lo _ Hnext Hts).
    unfold mbind at 1. destruct (requests ip ts st1) as [[answers|e] st2]; [|done].
    cbn [fst] in IH. injection IH as ->. cbn [ret fst].
    f_equal. cbn [List.length].
    destruct (Nat.ltb_spec k maxRequests) as [Hlt|Hge].
    + replace (maxRequests - k) with (S (maxRequests - S k)) by lia.
      cbn [Nat.min Nat.sub replicate app]. done.
    + replace (maxRequests - k) with 0 by lia.
      rewrite !Nat.min_0_r, !Nat.sub_0_r. done.
Qed.

(** X5: of the requests a caller makes within one window of an hour,
    exactly the first ten are allowed, whatever the other callers do in
    the table. *)
Theorem quota_within_one_window (st : state) (ip : string) (ts : list Z)
    (lo : Z) :
  requestCounts st !! ip = None ->
  Forall (fun now => lo <= now <= lo + windowMs)%Z ts ->
  (requests ip ts st).1
  = Ok (replicate (Nat.min (List.length ts) maxRequests) true
        ++ replicate (List.length ts - maxRequests) false).
Proof.
  intros Hnone Hts.
  rewrite (requests_counted ts st ip lo 0); [|by left|done].
  by rewrite Nat.sub_0_r.
Qed.

(** X6: a caller that has used up its quota is refused as long as its
    last allowed request is not older than the window, and its counter
    stays as it is; once that request is older, the caller is allowed
    and starts again with a count of one. *)
Theorem refused_until_window_elapses (st : state) (ip : string) (now : Z)
    (count : nat) (timestamp : Z) :
  requestCounts st !! ip = Some (count, timestamp) ->
  maxRequests <= count ->
  let answer := checkRateLimit ip now st in
  answer.1 = Ok (bool_decide (timestamp < now - windowMs)%Z)
  /\ requestCounts answer.2 !! ip
     = Some (if bool_decide (timestamp < now - windowMs)%Z
             then (1, now) else (count, timestamp)).
Proof.
  intros Hsome Hmax. unfold checkRateLimit. cbn zeta.
  rewrite kept_lookup, Hsome.
  case_bool_decide as Hold; cbn -[maxRequests Nat.leb].
  - split; [done|]. apply lookup_insert_eq.
  - rewrite (proj2 (Nat.leb_le _ _)) by done. cbn. split; [done|].
    rewrite kept_lookup, Hsome. by rewrite bool_decide_eq_false_2.
Qed.

(** X7: after a request at time [now] no counter older than the window
    remains in the table, and the counters of the other callers that
    are inside the window are what they were. *)
Theorem checkRateLimit_prunes_expired (st : state) (ip : string) (now : Z) :
  let st1 := (checkRateLimit ip now st).2 in
  (forall ip' count timestamp,
     requestCounts st1 !! ip' = Some (count, timestamp) ->
     (now - windowMs <= timestamp)%Z)
  /\ (forall ip' count timestamp,
        ip' <> ip ->
        requestCounts st !! ip' = Some (count, timestamp) ->
        (now - windowMs <= timestamp)%Z ->
        requestCounts st1 !! ip' = Some (count, timestamp)).
Proof.
  unfold checkRateLimit. cbn zeta.
  set (kept := filter _ (requestCounts st)).
  assert (Hkept : forall ip' count timestamp,
            kept !! ip' = Some (count, timestamp) ->
            (now - windowMs <= timestamp)%Z).
  { intros ip' count timestamp. unfold kept. rewrite kept_lookup.
    destruct (requestCounts st !! ip') as [[c t]|]; [|done].
    case_bool_decide; [done|]. intros [= <- <-]. lia. }
  assert (Hother : forall ip' count timestamp,
            requestCounts st !! ip' = Some (count, timestamp) ->
            (now - windowMs <= timestamp)%Z ->
            kept !! ip' = Some (count, timestamp)).
  { intros ip' count timestamp Hsome Hts. unfold kept.
    rewrite kept_lookup, Hsome. by rewrite bool_decide_eq_false_2 by lia. }
  destruct (maxRequests <=? (default (0, now) (kept !! ip)).1); cbn; split.
  - exact Hkept.
  - intros ip' count timestamp _. apply Hother.
  - intros ip' count timestamp. destruct (decide (ip' = ip)) as [->|Hne].
    + rewrite lookup_insert_eq. intros [= _ <-]. unfold windowMs. lia.
    + rewrite lookup_insert_ne by done. apply Hkept.
  - intros ip' count timestamp Hne Hsome Hts.
    rewrite lookup_insert_ne by done. by apply Hother.
Qed.

End RateLimitProperties.

Lemma quota_within_one_window_witness :
  (@requests Demo.external "10.0.0.7"
     [0; 1; 2; 3; 4; 5; 6; 7; 8; 9; 10; 3600000]%Z Demo.fresh).1
  = Ok (replicate 10 true ++ replicate 2 false).
Proof.
  apply (@quota_within_one_window Demo.external Demo.fresh "10.0.0.7"
           [0; 1; 2; 3; 4; 5; 6; 7; 8; 9; 10; 3600000]%Z 0%Z).
  - reflexivity.
  - repeat constructor; cbv; discriminate.
Defined.

Lemma refused_until_window_elapses_witness :
  let answer := @Documents.checkRateLimit Demo.external "10.0.0.7" 3601001 Demo.limited in
  answer.1 = Ok (bool_decide (1000 < 3601001 - Documents.windowMs)%Z)
  /\ requestCounts answer.2 !! "10.0.0.7"
     = Some (if bool_decide (1000 < 3601001 - Documents.windowMs)%Z
             then (1, 3601001%Z) else (10, 1000%Z)).
Proof.
  apply (@refused_until_window_elapses Demo.external Demo.limited "10.0.0.7"
           3601001%Z 10 1000%Z).
  - reflexivity.
  - unfold Documents.maxRequests. lia.
Defined.


(** ** The summarizer: failures and the cache *)

Section SummarizerFallbackProperties.
Context `{External}.
Import Documents.

(** [checkRateLimit] answers, and writes its table only. *)
Lemma checkRateLimit_frame ip now st :
  exists allowed counts,
    checkRateLimit ip now st = (Ok allowed, set_requestCounts st counts).
Proof.
  unfold checkRateLimit. cbn zeta.
  destruct (maxRequests <=? _); eauto.
Qed.

(** [generateSummary] returns a text, and writes the rate-limit table
    and the summary cache only. *)
Lemma generateSummary_frame text documentId ip fileName t1 t2 t3 st :
  exists summary counts cache,
    generateSummary text documentId ip fileName t1 t2 t3 st
    = (Ok summary, set_summaryCache (set_requestCounts st counts) cache).
Proof.
  unfold generateSummary, mbind at 1, get_state.
  destruct (cached_summary st documentId ip t1) as [summary|].
  { exists summary, (requestCounts st), (summaryCache st). by destruct st. }
  unfold mbind at 1.
  destruct (checkRateLimit_frame ip t2 st) as (allowed & counts & ->).
  destruct allowed; cbn [negb].
  2:{ eexists _, counts, (summaryCache st). reflexivity. }
  unfold mtry, generative_summary.
  destruct has_api_key; cbn [negb].
  2:{ eexists _, counts, (summaryCache st). reflexivity. }
  destruct (generateContent _ _) as [[raw|]|message status quotaFailure].
  - destruct (falsy raw || (String.length (trim raw) =? 0)).
    + eexists _, counts, (summaryCache st). reflexivity.
    + eexists _, counts, _. reflexivity.
  - eexists _, counts, (summaryCache st). reflexivity.
  - eexists _, counts, (summaryCache st). reflexivity.
Qed.

(** X8: [generateSummary] never throws, and the only thing it ever puts
    into the summary cache is a text of the generative model that is
    not blank, trimmed and filed under the document and the caller: a
    cached, a rate-limited or a fallback answer leaves the cache as it
    is. *)
Theorem summary_cache_holds_model_output_only (st : state)
    (text documentId ip : string) (fileName : option string) (t1 t2 t3 : Z) :
  let answer := generateSummary text documentId ip fileName t1 t2 t3 st in
  exists summary,
    answer.1 = Ok summary
    /\ (summaryCache answer.2 = summaryCache st
        \/ (has_api_key = true
            /\ (exists prompt raw,
                  generateContent prompt 600 = GenResponse (Some raw)
                  /\ summary = trim raw)
            /\ summary <> EmptyString
            /\ summaryCache answer.2
               = <[cacheKey documentId ip := (summary, t3)]> (summaryCache st))).
Proof.
  intros answer.
  assert (exists summary st1,
            answer = (Ok summary, st1)
            /\ (summaryCache st1 = summaryCache st
                \/ (has_api_key = true
                    /\ (exists prompt raw,
                          generateContent prompt 600 = GenResponse (Some raw)
                          /\ summary = trim raw)
                    /\ summary <> EmptyString
                    /\ summaryCache st1
                       = <[cacheKey documentId ip := (summary, t3)]>
                           (summaryCache st))))
    as (summary & st1 & -> & Hcache); [|by exists summary].
  subst answer. unfold generateSummary, mbind at 1, get_state.
  destruct (cached_summary st documentId ip t1) as [summary|].
  { exists summary, st. split; [done|]. by left. }
  unfold mbind at 1.
  destruct (checkRateLimit_frame ip t2 st) as (allowed & counts & ->).
  destruct allowed; cbn [negb].
  2:{ eexists _, _. split; [reflexivity|]. by left. }
  unfold mtry, generative_summary.
  destruct has_api_key; cbn [negb].
  2:{ eexists _, _. split; [reflexivity|]. by left. }
  destruct (generateContent _ _) as [[raw|]|message status quotaFailure] eqn:Hgen.
  - destruct (falsy raw || (String.length (trim raw) =? 0)) eqn:Hblank.
    + eexists _, _. split; [reflexivity|]. by left.
    + eexists (trim raw), _. split; [reflexivity|]. right.
      split; [done|]. split; [eauto|]. split; [|reflexivity].
      apply orb_false_iff in Hblank as [_ Hlen]. apply Nat.eqb_neq in Hlen.
      intros Hempty. by rewrite Hempty in Hlen.
  - eexists _, _. split; [reflexivity|]. by left.
  - eexists _, _. split; [reflexivity|]. by left.
Qed.

(** X9: when the model fails (it rejects, it answers nothing or a blank
    text) or no API key is set, a caller without a fresh cache entry
    gets the extractive summary of the text. *)
Theorem model_failure_gives_extractive_summary (st : state)
    (text documentId ip : string) (fileName : option string) (t1 t2 t3 : Z) :
  cached_summary st documentId ip t1 = None ->
  (has_api_key = false
   \/ forall prompt,
        match generateContent prompt 600 with
        | GenResponse (Some raw) => String.length (trim raw) = 0
        | _ => True
        end) ->
  (generateSummary text documentId ip fileName t1 t2 t3 st).1
  = Ok (generateExtractiveSummary_default (VString text)).
Proof.
  intros Hmiss Hfail.
  unfold generateSummary, mbind at 1, get_state. rewrite Hmiss.
  unfold mbind at 1.
  destruct (checkRateLimit_frame ip t2 st) as (allowed & counts & ->).
  destruct allowed; cbn [negb]; [|done].
  unfold mtry, generative_summary.
  destruct has_api_key eqn:Hkey; cbn [negb]; [|done].
  destruct Hfail as [Hno|Hfail]; [done|].
  match goal with |- context [generateContent ?p 600] =>
    specialize (Hfail p); destruct (generateContent p 600) as [[raw|]|] end;
    try done.
  rewrite Hfail. cbn [Nat.eqb]. by rewrite orb_true_r.
Qed.

End SummarizerFallbackProperties.

Lemma model_failure_witness :
  (@Documents.generateSummary Demo.unavailable Demo.lease "d1" "10.0.0.7" None
     0 0 0 Demo.fresh_unavailable).1
  = Ok (Documents.generateExtractiveSummary_default (Documents.VString Demo.lease)).
Proof.
  exact (@model_failure_gives_extractive_summary Demo.unavailable
           Demo.fresh_unavailable Demo.lease "d1" "10.0.0.7" None 0%Z 0%Z 0%Z
           eq_refl (or_intror (fun _ => I))).
Defined.

(** ** The file list *)

Section FileListProperties.
Context `{External}.
Import FileStorage.

Lemma find_app fileId l1 l2 :
  find fileId (l1 ++ l2)
  = match find fileId l1 with
    | Some file => Some file
    | None => find fileId l2
    end.
Proof.
  induction l1 as [|f l1 IH]; cbn; [done|].
  by destruct (String.eqb (id f) fileId).
Qed.

Lemma find_delete_other fileId other files index :
  findIndex fileId files = Some index -> other <> fileId ->
  find other (delete index files) = find other files.
Proof.
  revert index. induction files as [|f files IH]; cbn; [done|]. intros index.
  destruct (String.eqb (id f) fileId) eqn:Heq.
  - intros [= <-] Hne. cbn. apply String.eqb_eq in Heq.
    destruct (String.eqb (id f) other) eqn:Hother; [|done].
    apply String.eqb_eq in Hother. congruence.
  - destruct (findIndex fileId files) as [i|]; [|done].
    intros [= <-] Hne. cbn.
    destruct (String.eqb (id f) other); [done|]. by apply IH.
Qed.

Lemma find_alter fileId files index (f : fileInfo -> fileInfo) :
  (forall file, id (f file) = id file) ->
  findIndex fileId files = Some index ->
  find fileId (alter f index files) = f <$> find fileId files.
Proof.
  intros Hid. revert index.
  induction files as [|x files IH]; cbn; [done|]. intros index.
  destruct (String.eqb (id x) fileId) eqn:Heq.
  - intros [= <-]. cbn. by rewrite Hid, Heq.
  - destruct (findIndex fileId files) as [i|]; [|done].
    intros [= <-]. cbn. rewrite Heq. by apply IH.
Qed.

Lemma find_alter_other fileId other files index (f : fileInfo -> fileInfo) :
  (forall file, id (f file) = id file) ->
  findIndex fileId files = Some index -> other <> fileId ->
  find other (alter f index files) = find other files.
Proof.
  intros Hid. revert index.
  induction files as [|x files IH]; cbn; [done|]. intros index.
  destruct (String.eqb (id x) fileId) eqn:Heq.
  - intros [= <-] Hne. cbn. rewrite Hid. apply String.eqb_eq in Heq.
    destruct (String.eqb (id x) other) eqn:Hother; [|done].
    apply String.eqb_eq in Hother. congruence.
  - destruct (findIndex fileId files) as [i|]; [|done].
    intros [= <-] Hne. cbn.
    destruct (String.eqb (id x) other); [done|]. by apply IH.
Qed.

Lemma find_insert fileId files index file :
  id file = fileId ->
  findIndex fileId files = Some index ->
  find fileId (<[index := file]> files) = Some file.
Proof.
  intros Hid. revert index.
  induction files as [|x files IH]; cbn; [done|]. intros index.
  destruct (String.eqb (id x) fileId) eqn:Heq.
  - intros [= <-]. cbn. by rewrite Hid, String.eqb_refl.
  - destruct (findIndex fileId files) as [i|]; [|done].
    intros [= <-]. cbn. rewrite Heq. by apply IH.
Qed.

Lemma find_insert_other fileId other files index file :
  id file = fileId ->
  findIndex fileId files = Some index -> other <> fileId ->
  find other (<[index := file]> files) = find other files.
Proof.
  intros Hid. revert index.
  induction files as [|x files IH]; cbn; [done|]. intros index.
  destruct (String.eqb (id x) fileId) eqn:Heq.
  - intros [= <-] Hne. cbn. rewrite Hid. apply String.eqb_eq in Heq.
    rewrite (proj2 (String.eqb_neq _ _)) by congruence.
    by rewrite (proj2 (String.eqb_neq _ _)) by congruence.
  - destruct (findIndex fileId files) as [i|]; [|done].
    intros [= <-] Hne. cbn.
    destruct (String.eqb (id x) other); [done|]. by apply IH.
Qed.

Lemma findIndex_None fileId files :
  findIndex fileId files = None <-> find fileId files = None.
Proof.
  induction files as [|x files IH]; cbn; [done|].
  destruct (String.eqb (id x) fileId); [done|].
  destruct (findIndex fileId files); [|tauto].
  split; [done|]. intros Hnone. by apply IH in Hnone.
Qed.

Lemma findIndex_is_Some fileId files file :
  find fileId files = Some file -> exists index, findIndex fileId files = Some index.
Proof.
  intros Hfind. destruct (findIndex fileId files) as [index|] eqn:Hidx; [eauto|].
  apply findIndex_None in Hidx. congruence.
Qed.

Lemma getUserFile_in_memory st userId fileId files :
  userFiles st !! userId = Some files ->
  getUserFile userId fileId st = (Ok (find fileId files), st).
Proof.
  intros Hfiles. unfold getUserFile, mbind, ret.
  by rewrite (ensureUserFiles_in_memory _ _ _ Hfiles).
Qed.

Lemma getUserFiles_in_memory st userId files :
  truthy userId = true ->
  userFiles st !! userId = Some files ->
  getUserFiles userId st = (Ok (Array files), st).
Proof.
  intros Hu Hfiles. unfold getUserFiles, truthy in *.
  destruct (falsy userId); [done|]. by apply ensureUserFiles_in_memory.
Qed.

Lemma truthy_not_falsy s : truthy s = true -> falsy s = false.
Proof. unfold truthy. by destruct (falsy s). Qed.

(** What [addUserFile] does when [userFiles[userId]] is an array or
    undefined: the entry is appended to the list in memory (a new list
    if the user has none there), and the list is written to
    [files.json] unless the file system refuses. *)
Lemma addUserFile_spec st userId file :
  truthy userId = true ->
  userFiles_get st userId = Array <$> userFiles st !! userId ->
  let files := default [] (userFiles st !! userId) ++ [file] in
  exists st1,
    addUserFile userId (Some file) st = (Ok file, st1)
    /\ userFiles st1 = <[userId := files]> (userFiles st)
    /\ documentContents st1 = documentContents st
    /\ storeCache st1 = storeCache st
    /\ summaryCache st1 = summaryCache st
    /\ requestCounts st1 = requestCounts st
    /\ disk st1
       = if io_fails (getUserUploadsDir userId)
            || io_fails (getUserFilesPath userId)
         then disk st
         else <[getUserFilesPath userId := FilesJson files]> (disk st).
Proof.
  intros Hu Hget files. apply truthy_not_falsy in Hu.
  unfold addUserFile. rewrite Hu.
  unfold mbind at 1, init_user, modify. rewrite Hget.
  set (st0 := match Array <$> userFiles st !! userId with
              | Some _ => st
              | None => set_userFiles st (<[userId := []]> (userFiles st))
              end).
  assert (userFiles st0 !! userId = Some (default [] (userFiles st !! userId))
          /\ <[userId := files]> (userFiles st0) = <[userId := files]> (userFiles st)
          /\ documentContents st0 = documentContents st
          /\ storeCache st0 = storeCache st
          /\ summaryCache st0 = summaryCache st
          /\ requestCounts st0 = requestCounts st
          /\ disk st0 = disk st) as (Hown & Hins & Hc & Hs & Hsum & Hr & Hd).
  { subst st0. destruct (userFiles st !! userId) as [l|] eqn:Hl; cbn.
    - by rewrite Hl.
    - rewrite lookup_insert_eq, insert_insert_eq. done. }
  clearbody st0.
  unfold mtry, mbind at 1, push_entry, mbind at 1.
  rewrite (ensureUserFiles_in_memory _ _ _ Hown). unfold modify.
  unfold mbind at 1, persist_files_in_dir, mbind at 1, get_state, mtry,
    mbind at 1, lift, mkdir, writeFile, ret.
  cbn [userFiles set_userFiles]. rewrite lookup_insert_eq. cbn [default].
  fold files. rewrite Hins.
  destruct (io_fails (getUserUploadsDir userId)); cbn;
    [eexists; repeat split; (reflexivity || done)|].
  destruct (io_fails (getUserFilesPath userId)); cbn;
    eexists; (split; [reflexivity|]); cbn; rewrite ?Hd; done.
Qed.

(** X12: adding an entry to the list of a user that is in memory
    succeeds; the list is the old one followed by the entry, so the
    entry is found under its identifier if that identifier was free,
    and every other identifier finds what it found before. *)
Theorem added_file_is_found (st : state) (userId : string) (file : fileInfo)
    (files : list fileInfo) :
  truthy userId = true ->
  userFiles st !! userId = Some files ->
  let added := addUserFile userId (Some file) st in
  added.1 = Ok file
  /\ userFiles added.2 !! userId = Some (files ++ [file])
  /\ (find (id file) files = None ->
      getUserFile userId (id file) added.2 = (Ok (Some file), added.2))
  /\ (forall other,
        other <> id file ->
        getUserFile userId other added.2 = (Ok (find other files), added.2)).
Proof.
  intros Hu Hfiles added. subst added.
  destruct (addUserFile_spec st userId file Hu) as (st1 & -> & Hlist & _).
  { by rewrite (userFiles_get_own _ _ _ Hfiles), Hfiles. }
  rewrite Hfiles in Hlist. cbn [default fst snd] in *.
  assert (userFiles st1 !! userId = Some (files ++ [file])) as Hnew.
  { rewrite Hlist. apply lookup_insert_eq. }
  repeat split; [done| |].
  - intros Hfree. rewrite (getUserFile_in_memory _ _ _ _ Hnew).
    rewrite find_app, Hfree. cbn. by rewrite String.eqb_refl.
  - intros other Hne. rewrite (getUserFile_in_memory _ _ _ _ Hnew).
    rewrite find_app. destruct (find other files); [done|]. cbn.
    by rewrite (proj2 (String.eqb_neq _ _)) by congruence.
Qed.

(** X13: the list written by [addUserFile] is the list a new process
    reads: for a user whose name is not a property of
    [Object.prototype], when the file system accepts the write,
    [getUserFiles] after a restart returns the list as it was in
    memory after the addition, which is the list before it followed by
    the new entry. *)
Theorem added_file_survives_restart (st : state) (userId : string)
    (file : fileInfo) :
  truthy userId = true ->
  inherited userId = None ->
  io_fails (getUserUploadsDir userId) = false ->
  io_fails (getUserFilesPath userId) = false ->
  let added := addUserFile userId (Some file) st in
  added.1 = Ok file
  /\ (getUserFiles userId (restart added.2)).1 = (getUserFiles userId added.2).1
  /\ (getUserFiles userId added.2).1
     = Ok (Array (default [] (userFiles st !! userId) ++ [file])).
Proof.
  intros Hu Hplain Hdir Hjson added. subst added.
  destruct (addUserFile_spec st userId file Hu (userFiles_get_plain _ _ Hplain))
    as (st1 & -> & Hlist & _ & _ & _ & _ & Hdisk).
  rewrite Hdir, Hjson in Hdisk. cbn [orb fst snd] in *.
  split; [done|].
  unfold getUserFiles. rewrite (truthy_not_falsy _ Hu).
  unfold ensureUserFiles. rewrite !(userFiles_get_plain _ _ Hplain).
  cbn [restart userFiles disk].
  rewrite lookup_empty, Hdisk, lookup_insert_eq, Hlist, lookup_insert_eq.
  done.
Qed.

(** X14: [addUserFile] does not read [files.json].  For a user for
    whom [userFiles[userId]] is undefined (the first upload after a
    restart) it starts from the empty list: the list in memory is the
    new entry alone, whatever an earlier run recorded, and the file is
    overwritten with it when the file system accepts the write. *)
Theorem first_upload_starts_new_list (st : state) (userId : string)
    (file : fileInfo) :
  truthy userId = true ->
  userFiles_get st userId = None ->
  let added := addUserFile userId (Some file) st in
  added.1 = Ok file
  /\ getUserFiles userId added.2 = (Ok (Array [file]), added.2)
  /\ (io_fails (getUserUploadsDir userId) = false ->
      io_fails (getUserFilesPath userId) = false ->
      disk added.2 !! getUserFilesPath userId = Some (FilesJson [file])).
Proof.
  intros Hu Hundefined added. subst added.
  assert (userFiles st !! userId = None) as Hnone.
  { unfold userFiles_get in Hundefined. by destruct (userFiles st !! userId). }
  destruct (addUserFile_spec st userId file Hu)
    as (st1 & -> & Hlist & _ & _ & _ & _ & Hdisk).
  { by rewrite Hundefined, Hnone. }
  rewrite Hnone in Hlist, Hdisk. cbn [default app fst snd] in *.
  split; [done|split].
  - apply getUserFiles_in_memory; [done|]. by rewrite Hlist, lookup_insert_eq.
  - intros Hdir Hjson. rewrite Hdir, Hjson in Hdisk. cbn [orb] in Hdisk.
    rewrite Hdisk. apply lookup_insert_eq.
Qed.

(** Under a name of [Object.prototype] that the object does not own,
    [addUserFile] finds a value that is no array: it throws and
    leaves everything as it was. *)
Lemma addUserFile_inherited st userId file length :
  truthy userId = true ->
  userFiles_get st userId = Some (NotArray length) ->
  addUserFile userId (Some file) st
  = (Throw ("Failed to add file: "
            +:+ not_a_function "ensureUserFiles(...).push"), st).
Proof.
  intros Hu Hget. unfold addUserFile. rewrite (truthy_not_falsy _ Hu).
  unfold mbind at 1, init_user, modify. rewrite Hget.
  unfold mtry, mbind at 1, push_entry, mbind at 1, ensureUserFiles.
  by rewrite Hget.
Qed.

(** The names the object owns are never names of [Object.prototype]:
    a new process owns none, and the two functions that create a
    property do so only where [userFiles[userId]] is undefined. *)
Lemma restart_plain_keys st : plain_keys (restart st).
Proof.
  intros userId [files Hfiles]. cbn [restart userFiles] in Hfiles.
  by rewrite lookup_empty in Hfiles.
Qed.

Lemma userFiles_get_undefined st userId :
  userFiles_get st userId = None ->
  userFiles st !! userId = None /\ inherited userId = None.
Proof.
  unfold userFiles_get. destruct (userFiles st !! userId); [done|].
  by destruct (inherited userId).
Qed.

Lemma insert_plain_keys st st1 userId files :
  plain_keys st ->
  is_Some (userFiles st !! userId) \/ inherited userId = None ->
  userFiles st1 = <[userId := files]> (userFiles st) ->
  plain_keys st1.
Proof.
  intros Hplain Hkey Hlist user [l Hl]. rewrite Hlist in Hl.
  destruct (decide (user = userId)) as [->|Hne].
  - destruct Hkey as [Hown|Hnew]; [by apply Hplain|done].
  - rewrite lookup_insert_ne in Hl by done. apply Hplain. by exists l.
Qed.

Lemma ensureUserFiles_plain_keys st userId r st1 :
  ensureUserFiles userId st = (r, st1) -> plain_keys st -> plain_keys st1.
Proof.
  unfold ensureUserFiles.
  destruct (userFiles_get st userId) as [value|] eqn:Hget.
  - by intros [= _ <-].
  - intros [= _ <-] Hplain.
    apply userFiles_get_undefined in Hget as [_ Hnew].
    eapply insert_plain_keys; [done|by right|reflexivity].
Qed.

Lemma addUserFile_plain_keys st userId file r st1 :
  addUserFile userId file st = (r, st1) -> plain_keys st -> plain_keys st1.
Proof.
  intros Hrun Hplain.
  destruct (falsy userId) eqn:Hu.
  { unfold addUserFile in Hrun. rewrite Hu in Hrun. by injection Hrun as _ <-. }
  destruct file as [file|].
  2:{ unfold addUserFile in Hrun. rewrite Hu in Hrun. by injection Hrun as _ <-. }
  assert (truthy userId = true) as Htruthy by (unfold truthy; by rewrite Hu).
  destruct (userFiles_get st userId) as [[files|len]|] eqn:Hget.
  - apply userFiles_get_Array in Hget.
    destruct (addUserFile_spec st userId file Htruthy) as (st2 & Heq & Hlist & _).
    { by rewrite (userFiles_get_own _ _ _ Hget), Hget. }
    rewrite Heq in Hrun. injection Hrun as _ <-.
    eapply insert_plain_keys; [done|left; by eexists|done].
  - rewrite (addUserFile_inherited _ _ _ _ Htruthy Hget) in Hrun.
    by injection Hrun as _ <-.
  - destruct (userFiles_get_undefined _ _ Hget) as [Hnone Hnew].
    destruct (addUserFile_spec st userId file Htruthy) as (st2 & Heq & Hlist & _).
    { by rewrite Hget, Hnone. }
    rewrite Heq in Hrun. injection Hrun as _ <-.
    eapply insert_plain_keys; [done|by right|done].
Qed.

(** The step of [removeUserFile] that writes [files.json], on a file
    system that accepts the write. *)
Lemma removeUserFile_persisted st st' userId fileId :
  removeUserFile userId fileId st = (Ok true, st') ->
  io_fails (getUserFilesPath userId) = false ->
  exists files index,
    userFiles st !! userId = Some files
    /\ findIndex fileId files = Some index
    /\ userFiles st' !! userId = Some (delete index files)
    /\ disk st' !! getUserFilesPath userId = Some (FilesJson (delete index files)).
Proof.
  intros Hrun Hjson.
  destruct (removeUserFile_success _ _ _ _ Hrun)
    as (files & index & Hfiles & Hidx & Hlist & _).
  exists files, index. split; [done|]. split; [done|].
  assert (userFiles st' !! userId = Some (delete index files)) as Hnew.
  { by rewrite Hlist, lookup_alter_eq, Hfiles. }
  split; [done|].
  unfold removeUserFile in Hrun.
  rewrite (userFiles_get_own _ _ _ Hfiles), Hidx in Hrun.
  apply (mtry_rethrow_Ok_inv _ (fun _ => "Failed to remove file")) in Hrun.
  apply mbind_Ok_inv in Hrun as ([] & st1 & _ & Hrun).
  apply mbind_Ok_inv in Hrun as (b & st2 & _ & Hrun).
  apply mbind_Ok_inv in Hrun as ([] & st3 & _ & Hrun).
  apply mbind_Ok_inv in Hrun as ([] & st4 & Hpersist & Hrun).
  injection Hrun as <-.
  unfold persist_files, mbind, get_state, mtry, writeFile in Hpersist.
  rewrite Hjson in Hpersist. injection Hpersist as <-.
  cbn [userFiles set_disk] in Hnew. cbn [disk set_disk].
  rewrite Hnew. cbn. apply lookup_insert_eq.
Qed.

(** X15: a deletion that reached [files.json] survives a restart: with
    unique identifiers, the new process does not list the deleted
    document and finds every other document of the user.  The user's
    name is not a property of [Object.prototype]: the new process,
    whose [userFiles] is empty, would read such a name from the
    prototype and not from [files.json]. *)
Theorem deleted_file_stays_deleted (st st' : state) (userId fileId : string)
    (files : list fileInfo) :
  inherited userId = None ->
  userFiles st !! userId = Some files ->
  NoDup (List.map id files) ->
  io_fails (getUserFilesPath userId) = false ->
  removeUserFile userId fileId st = (Ok true, st') ->
  (getUserFile userId fileId (restart st')).1 = Ok None
  /\ (forall other,
        other <> fileId ->
        (getUserFile userId other (restart st')).1 = Ok (find other files)).
Proof.
  intros Hplain Hfiles Hunique Hjson Hrun.
  destruct (removeUserFile_persisted _ _ _ _ Hrun Hjson)
    as (files' & index & Hfiles' & Hidx & _ & Hdisk).
  rewrite Hfiles in Hfiles'. injection Hfiles' as <-.
  assert (forall other,
            (getUserFile userId other (restart st')).1
            = Ok (find other (delete index files))) as Hget.
  { intros other. unfold getUserFile, mbind, ensureUserFiles, userFiles_get.
    cbn [restart userFiles disk]. by rewrite lookup_empty, Hplain, Hdisk. }
  split.
  - rewrite Hget. by rewrite find_after_splice.
  - intros other Hne. rewrite Hget. by rewrite (find_delete_other fileId).
Qed.

(** X16: when [removeUserFile] throws, the file list is what it was:
    the entry is removed only after the files have been deleted.  The
    message is "Failed to remove file", unless [userFiles[userId]] is
    a property of [Object.prototype]: then the call of [findIndex],
    which is outside the [try], throws the TypeError before anything
    is touched. *)
Theorem failed_removal_keeps_the_entry (st st1 : state)
    (userId fileId message : string) :
  removeUserFile userId fileId st = (Throw message, st1) ->
  userFiles st1 = userFiles st
  /\ match userFiles_get st userId with
     | Some (NotArray _) =>
         message = not_a_function "userFiles[userId].findIndex" /\ st1 = st
     | _ => message = "Failed to remove file"
     end.
Proof.
  unfold removeUserFile.
  destruct (userFiles_get st userId) as [[files|len]|]; [|by intros [= <- <-]|done].
  destruct (findIndex fileId files) as [index|]; [|done].
  unfold mtry, mbind at 1.
  destruct (unlink_local (files !! index) st) as [[[]|e1] st2] eqn:Hlocal.
  2:{ intros [= <- <-]. split; [|done].
      by apply unlink_local_inv in Hlocal as [(? & _) _]. }
  apply unlink_local_inv in Hlocal as [(Hf2 & _) _].
  unfold mbind at 1.
  destruct (removeDocumentContent userId fileId st2) as [[b|e2] st3] eqn:Hcontent.
  2:{ intros [= <- <-]. split; [|done]. rewrite <- Hf2.
      revert Hcontent.
      unfold removeDocumentContent, mbind, modify, get_state, ret. cbn.
      destruct (existsSync _ _); [|done].
      destruct (unlink _ _) as [[[]|e] st4] eqn:Hunlink; [done|].
      intros [= _ <-]. by apply unlink_inv in Hunlink as [(? & _) _]. }
  unfold mbind at 1, splice_entry, modify. unfold mbind at 1.
  destruct (persist_files userId _) as [[[]|e3] st4] eqn:Hpersist; [done|].
  exfalso. revert Hpersist.
  unfold persist_files, mbind, get_state, mtry, ret.
  by destruct (writeFile _ _ _) as [[[]|e] st5].
Qed.

(** X17: a successful [removeUserFile] removes one entry and no more:
    every other identifier of the user finds what it found before, the
    lists of the other users are untouched, and so are the cached
    contents under every other key. *)
Theorem removal_keeps_other_documents (st st' : state) (userId fileId : string)
    (files : list fileInfo) :
  userFiles st !! userId = Some files ->
  removeUserFile userId fileId st = (Ok true, st') ->
  (forall other,
     other <> fileId ->
     getUserFile userId other st' = (Ok (find other files), st'))
  /\ (forall user, user <> userId -> userFiles st' !! user = userFiles st !! user)
  /\ (forall key,
        key <> contentKey userId fileId ->
        documentContents st' !! key = documentContents st !! key).
Proof.
  intros Hfiles Hrun.
  destruct (removeUserFile_success _ _ _ _ Hrun)
    as (files' & index & Hfiles' & Hidx & Hlist & Hmem & _).
  rewrite Hfiles in Hfiles'. injection Hfiles' as <-.
  repeat split.
  - intros other Hne.
    rewrite (getUserFile_in_memory _ _ _ (delete index files)).
    + by rewrite (find_delete_other fileId).
    + by rewrite Hlist, lookup_alter_eq, Hfiles.
  - intros user Hne. rewrite Hlist. by apply lookup_alter_ne.
  - intros key Hne. rewrite Hmem. by apply lookup_delete_ne.
Qed.

End FileListProperties.

Lemma added_file_witness :
  let added :=
    @FileStorage.addUserFile Demo.external "u1" (Some Demo.memo) Demo.stored in
  added.1 = Ok Demo.memo
  /\ userFiles added.2 !! "u1" = Some ([Demo.entry] ++ [Demo.memo])
  /\ (FileStorage.find (id Demo.memo) [Demo.entry] = None ->
      @FileStorage.getUserFile Demo.external "u1" (id Demo.memo) added.2
      = (Ok (Some Demo.memo), added.2))
  /\ (forall other,
        other <> id Demo.memo ->
        @FileStorage.getUserFile Demo.external "u1" other added.2
        = (Ok (FileStorage.find other [Demo.entry]), added.2)).
Proof.
  apply (@added_file_is_found Demo.external Demo.stored "u1" Demo.memo
           [Demo.entry]); reflexivity.
Defined.

Lemma added_file_survives_restart_witness :
  let added :=
    @FileStorage.addUserFile Demo.external "u1" (Some Demo.memo) Demo.stored in
  added.1 = Ok Demo.memo
  /\ (@FileStorage.getUserFiles Demo.external "u1" (restart added.2)).1
     = (@FileStorage.getUserFiles Demo.external "u1" added.2).1
  /\ (@FileStorage.getUserFiles Demo.external "u1" added.2).1
     = Ok (Array (default [] (userFiles Demo.stored !! "u1") ++ [Demo.memo])).
Proof.
  apply (@added_file_survives_restart Demo.external Demo.stored "u1" Demo.memo);
    reflexivity.
Defined.

Lemma first_upload_witness :
  let added :=
    @FileStorage.addUserFile Demo.external "u1" (Some Demo.memo)
      (restart Demo.stored) in
  added.1 = Ok Demo.memo
  /\ @FileStorage.getUserFiles Demo.external "u1" added.2
     = (Ok (Array [Demo.memo]), added.2)
  /\ (@io_fails Demo.external (FileStorage.getUserUploadsDir "u1") = false ->
      @io_fails Demo.external (FileStorage.getUserFilesPath "u1") = false ->
      disk added.2 !! FileStorage.getUserFilesPath "u1"
      = Some (FilesJson [Demo.memo])).
Proof.
  apply (@first_upload_starts_new_list Demo.external (restart Demo.stored)
           "u1" Demo.memo); reflexivity.
Defined.

Lemma deleted_file_stays_deleted_witness :
  let deleted :=
    @FileStorage.removeUserFile Demo.external "u1" "d1" Demo.stored in
  (@FileStorage.getUserFile Demo.external "u1" "d1" (restart deleted.2)).1
  = Ok None
  /\ (forall other,
        other <> "d1" ->
        (@FileStorage.getUserFile Demo.external "u1" other (restart deleted.2)).1
        = Ok (FileStorage.find other [Demo.entry])).
Proof.
  apply (@deleted_file_stays_deleted Demo.external Demo.stored
           (@FileStorage.removeUserFile Demo.external "u1" "d1" Demo.stored).2
           "u1" "d1" [Demo.entry]).
  - reflexivity.
  - reflexivity.
  - cbn. apply NoDup_singleton.
  - reflexivity.
  - vm_compute. reflexivity.
Defined.

Lemma failed_removal_witness :
  userFiles
    (@FileStorage.removeUserFile Demo.read_only "u1" "d1"
       Demo.stored_read_only).2
  = userFiles Demo.stored_read_only
  /\ match userFiles_get Demo.stored_read_only "u1" with
     | Some (NotArray _) =>
         "Failed to remove file"
         = not_a_function "userFiles[userId].findIndex"
         /\ (@FileStorage.removeUserFile Demo.read_only "u1" "d1"
               Demo.stored_read_only).2
            = Demo.stored_read_only
     | _ => "Failed to remove file" = "Failed to remove file"
     end.
Proof.
  apply (@failed_removal_keeps_the_entry Demo.read_only Demo.stored_read_only
           (@FileStorage.removeUserFile Demo.read_only "u1" "d1"
              Demo.stored_read_only).2
           "u1" "d1" "Failed to remove file").
  vm_compute. reflexivity.
Defined.

Lemma removal_keeps_other_documents_witness :
  let deleted :=
    @FileStorage.removeUserFile Demo.external "u1" "d1" Demo.stored in
  (forall other,
     other <> "d1" ->
     @FileStorage.getUserFile Demo.external "u1" other deleted.2
     = (Ok (FileStorage.find other [Demo.entry]), deleted.2))
  /\ (forall user,
        user <> "u1" -> userFiles deleted.2 !! user = userFiles Demo.stored !! user)
  /\ (forall key,
        key <> FileStorage.contentKey "u1" "d1" ->
        documentContents deleted.2 !! key = documentContents Demo.stored !! key).
Proof.
  apply (@removal_keeps_other_documents Demo.external Demo.stored
           (@FileStorage.removeUserFile Demo.external "u1" "d1" Demo.stored).2
           "u1" "d1" [Demo.entry]).
  - reflexivity.
  - vm_compute. reflexivity.
Defined.

(** ** The content store: keys, entries and repeated loads *)

Section ContentStoreProperties.
Context `{External}.
Import FileStorage.

(** The key of a content is unambiguous as long as user identifiers
    have no hyphen. *)
Lemma contentKey_inj userId documentId userId' documentId' :
  no_hyphen userId = true -> no_hyphen userId' = true ->
  contentKey userId documentId = contentKey userId' documentId' ->
  userId = userId' /\ documentId = documentId'.
Proof.
  unfold contentKey. revert userId'.
  induction userId as [|c u IH]; intros [|c' u'] Hu Hu'.
  - intros [= Heq]. done.
  - cbn in Hu'. rewrite append_cons. intros [= Hc _]. subst c'. done.
  - cbn in Hu. rewrite append_cons. intros [= Hc _]. subst c. done.
  - cbn in Hu, Hu'. apply andb_true_iff in Hu as [_ Hu].
    apply andb_true_iff in Hu' as [_ Hu'].
    rewrite !append_cons. intros [= <- Heq].
    destruct (IH u' Hu Hu' Heq) as [-> ->]. done.
Qed.

Lemma save_content_list st userId documentId content now :
  truthy userId = true -> truthy documentId = true -> truthy content = true ->
  userFiles (saveDocumentContent userId documentId content now st).2
  = match userFiles st !! userId with
    | Some files =>
        match findIndex documentId files with
        | Some fileIndex =>
            <[userId := alter (fun file => mark_content file (String.length content) now)
                          fileIndex files]> (userFiles st)
        | None => userFiles st
        end
    | None => userFiles st
    end.
Proof.
  intros Hu Hd Hc. apply truthy_not_falsy in Hu, Hd, Hc.
  unfold saveDocumentContent. rewrite Hu, Hd, Hc. cbn [orb].
  unfold mtry, mbind, cache_content, modify, lift, ret, mkdir, writeFile,
    mark_entry, userFiles_get.
  destruct (io_fails (getUserUploadsDir userId));
    destruct (io_fails (contentPath userId documentId)); cbn;
    destruct (userFiles st !! userId) as [files|]; cbn;
    try (destruct (findIndex documentId files)); try done;
    by destruct (inherited userId).
Qed.

(** X18: a save never touches the cached content of another document:
    for user identifiers without a hyphen, whatever is cached for a
    different pair of user and document is cached unchanged after the
    call, whether the call succeeds or throws. *)
Theorem save_leaves_other_contents_alone (st : state)
    (userId documentId content : string) (now : Z)
    (userId' documentId' : string) :
  no_hyphen userId = true -> no_hyphen userId' = true ->
  (userId', documentId') <> (userId, documentId) ->
  documentContents (saveDocumentContent userId documentId content now st).2
    !! contentKey userId' documentId'
  = documentContents st !! contentKey userId' documentId'.
Proof.
  intros Hu Hu' Hne.
  assert (contentKey userId documentId <> contentKey userId' documentId') as Hkey.
  { intros Heq. apply contentKey_inj in Heq as [-> ->]; done. }
  destruct (falsy userId || falsy documentId || falsy content) eqn:Hfalsy.
  { unfold saveDocumentContent. by rewrite Hfalsy. }
  apply orb_false_iff in Hfalsy as [Hfalsy Hc].
  apply orb_false_iff in Hfalsy as [Hfu Hfd].
  destruct (save_content_ok st userId documentId content now)
    as (st1 & -> & Hmem & _); try (unfold truthy; by rewrite ?Hfu, ?Hfd, ?Hc).
  cbn [snd]. rewrite Hmem. by apply lookup_insert_ne.
Qed.

(** X19: a successful save marks the entry of the document in the list
    in memory: the entry found under the identifier afterwards is the
    one found before with [hasContent] set, the length of the text and
    the time of the save; entries under other identifiers are found
    unchanged. *)
Theorem save_marks_the_entry (st : state) (userId documentId content : string)
    (now : Z) (files : list fileInfo) (file : fileInfo) :
  truthy userId = true -> truthy documentId = true -> truthy content = true ->
  userFiles st !! userId = Some files ->
  find documentId files = Some file ->
  let saved := saveDocumentContent userId documentId content now st in
  getUserFile userId documentId saved.2
  = (Ok (Some (mark_content file (String.length content) now)), saved.2)
  /\ (forall other,
        other <> documentId ->
        getUserFile userId other saved.2 = (Ok (find other files), saved.2)).
Proof.
  intros Hu Hd Hc Hfiles Hfind saved. subst saved.
  pose proof (save_content_list st userId documentId content now Hu Hd Hc) as Hlist.
  rewrite Hfiles in Hlist.
  destruct (findIndex_is_Some _ _ _ Hfind) as [index Hidx].
  rewrite Hidx in Hlist.
  set (st1 := (saveDocumentContent userId documentId content now st).2) in *.
  assert (userFiles st1 !! userId
          = Some (alter (fun f => mark_content f (String.length content) now)
                    index files)) as Hnew.
  { rewrite Hlist. apply lookup_insert_eq. }
  split.
  - rewrite (getUserFile_in_memory _ _ _ _ Hnew).
    rewrite (find_alter documentId) by done. by rewrite Hfind.
  - intros other Hne. rewrite (getUserFile_in_memory _ _ _ _ Hnew).
    by rewrite (find_alter_other documentId).
Qed.

(** A content is loaded for identifiers that are not empty only, and
    a content that was loaded is cached. *)
Lemma loaded_content_cached st st1 userId documentId content :
  getDocumentContent userId documentId st = (Ok (Some content), st1) ->
  truthy userId = true /\ truthy documentId = true
  /\ documentContents st1 !! contentKey userId documentId = Some content.
Proof.
  intros Hload.
  assert (truthy userId = true /\ truthy documentId = true) as [Hu Hd].
  { unfold getDocumentContent, truthy in *.
    destruct (falsy userId); [done|]. destruct (falsy documentId); done. }
  split; [done|]. split; [done|].
  revert Hload. unfold getDocumentContent.
  rewrite (truthy_not_falsy _ Hu), (truthy_not_falsy _ Hd). cbn [orb].
  unfold mtry, mbind at 1, get_state.
  destruct (documentContents st !! contentKey userId documentId) as [c|] eqn:Hhit.
  { by intros [= <- <-]. }
  unfold mbind at 1. rewrite content_from_disk_nothing.
  unfold mbind at 1.
  destruct (getUserFile userId documentId st) as [[[file|]|e] st2];
    [|done|done].
  unfold content_from_url. destruct (contentUrl file) as [url|]; [|done].
  destruct (truthy url); [|done].
  unfold mtry, mbind at 1, lift.
  destruct (fetch_text url) as [[response|]|e]; try done.
  intros [= <- <-]. cbn. apply lookup_insert_eq.
Qed.

(** X20: a content that [getDocumentContent] returned is in the memory
    cache afterwards, whichever layer it came from, and the next call
    returns it again without changing anything. *)
Theorem loaded_content_is_served_again (st st1 : state)
    (userId documentId content : string) :
  getDocumentContent userId documentId st = (Ok (Some content), st1) ->
  documentContents st1 !! contentKey userId documentId = Some content
  /\ getDocumentContent userId documentId st1 = (Ok (Some content), st1).
Proof.
  intros Hload.
  destruct (loaded_content_cached _ _ _ _ _ Hload) as (Hu & Hd & Hmem).
  split; [done|]. by apply load_from_memory.
Qed.


End ContentStoreProperties.

Lemma save_leaves_other_contents_alone_witness :
  documentContents
    (@FileStorage.saveDocumentContent Demo.external "u1" "d2" "hello" 0
       Demo.stored).2
    !! FileStorage.contentKey "u1" "d1"
  = documentContents Demo.stored !! FileStorage.contentKey "u1" "d1".
Proof.
  apply (@save_leaves_other_contents_alone Demo.external Demo.stored
           "u1" "d2" "hello" 0%Z "u1" "d1"); [reflexivity|reflexivity|].
  intros Heq. discriminate Heq.
Defined.

Lemma save_marks_the_entry_witness :
  let saved :=
    @FileStorage.saveDocumentContent Demo.external "u1" "d1" "hello" 7
      Demo.stored in
  @FileStorage.getUserFile Demo.external "u1" "d1" saved.2
  = (Ok (Some (FileStorage.mark_content Demo.entry (String.length "hello") 7)),
     saved.2)
  /\ (forall other,
        other <> "d1" ->
        @FileStorage.getUserFile Demo.external "u1" other saved.2
        = (Ok (FileStorage.find other [Demo.entry]), saved.2)).
Proof.
  apply (@save_marks_the_entry Demo.external Demo.stored "u1" "d1" "hello" 7%Z
           [Demo.entry] Demo.entry); reflexivity.
Defined.

Lemma loaded_content_witness :
  documentContents Demo.stored !! FileStorage.contentKey "u1" "d1"
  = Some Demo.clause
  /\ @FileStorage.getDocumentContent Demo.external "u1" "d1" Demo.stored
     = (Ok (Some Demo.clause), Demo.stored).
Proof.
  apply (@loaded_content_is_served_again Demo.external Demo.stored Demo.stored
           "u1" "d1" Demo.clause).
  vm_compute. reflexivity.
Defined.

(** ** The retrieval index: build, load, search *)

Section IndexRoundTripProperties.
Context `{External}.
Import Rag.

(** What a successful [buildIndex] has done. *)
Lemma buildIndex_inv userId documentId content cs ov now st dir st1 :
  buildIndex userId documentId content cs ov now st = (Ok dir, st1) ->
  exists docs,
    createDocuments cs ov content = Ok docs
    /\ dir = getIndexDir userId documentId
    /\ st1 = set_disk st
               (<[indexPath userId documentId :=
                    ChunksJson {| createdAt := now; chunkSize := cs;
                                  overlap := ov;
                                  chunks := List.filter usable docs;
                                  totalChunks :=
                                    List.length (List.filter usable docs) |}]>
                  (disk st)).
Proof.
  unfold buildIndex, mtry, mbind, lift, throw, ret, mkdir, writeFile.
  destruct (blank content); [done|].
  destruct (createDocuments cs ov content) as [docs|e]; [|done].
  destruct (List.length docs =? 0); [done|].
  destruct (io_fails (getIndexDir userId documentId)); [done|].
  destruct (io_fails (indexPath userId documentId)); [done|].
  intros [= <- <-]. eauto.
Qed.

(** Whatever its outcome, [buildIndex] writes at most [chunks.json] of
    the document. *)
Lemma buildIndex_frame userId documentId content cs ov now st :
  let st1 := (buildIndex userId documentId content cs ov now st).2 in
  same_objects st st1
  /\ (forall path,
        path <> indexPath userId documentId -> disk st1 !! path = disk st !! path)
  /\ (is_Some (disk st !! indexPath userId documentId) ->
      is_Some (disk st1 !! indexPath userId documentId)).
Proof.
  unfold buildIndex, mtry, mbind, lift, throw, ret, mkdir, writeFile, same_objects.
  destruct (blank content); [done|].
  destruct (createDocuments cs ov content) as [docs|e]; [|done].
  destruct (List.length docs =? 0); [done|].
  destruct (io_fails (getIndexDir userId documentId)); [done|].
  destruct (io_fails (indexPath userId documentId)); [done|].
  cbn. repeat split.
  - intros path Hne. by rewrite lookup_insert_ne.
  - intros _. rewrite lookup_insert_eq. eauto.
Qed.

Lemma loadIndex_cached userId documentId st vectors :
  is_Some (disk st !! indexPath userId documentId) ->
  storeCache st !! getIndexDir userId documentId = Some vectors ->
  loadIndex userId documentId st = (Ok (Some vectors), st).
Proof.
  intros Hfile Hcache. unfold loadIndex, mtry, mbind, get_state, existsSync.
  rewrite bool_decide_eq_true_2 by done. cbn [negb]. by rewrite Hcache.
Qed.

(** What [loadIndex] does when the store is not in the cache. *)
Lemma loadIndex_uncached userId documentId st data :
  disk st !! indexPath userId documentId = Some (ChunksJson data) ->
  storeCache st !! getIndexDir userId documentId = None ->
  loadIndex userId documentId st
  = if negb has_api_key || (List.length (chunks data) =? 0) then (Ok None, st)
    else match fromDocuments (chunks data) with
         | Ok vectors =>
             (Ok (Some vectors),
              set_storeCache st
                (<[getIndexDir userId documentId := vectors]> (storeCache st)))
         | Throw _ => (Ok None, st)
         end.
Proof.
  intros Hfile Hcache. unfold loadIndex, mtry, mbind at 1, get_state, existsSync.
  rewrite bool_decide_eq_true_2 by (rewrite Hfile; eauto). cbn [negb].
  rewrite Hcache, Hfile.
  destruct has_api_key; cbn [negb orb]; [|done].
  destruct (List.length (chunks data) =? 0); [done|].
  unfold mbind, lift, modify, ret.
  by destruct (fromDocuments (chunks data)).
Qed.

(** X21: the index that [buildIndex] wrote is the one that is searched:
    when the text has a usable chunk, the API key is set and the
    embedding succeeds, [loadIndex] returns the store of exactly the
    usable chunks and caches it, and [retrieveTopK] answers a question
    that is not blank with the chunks that store returns for it, joined
    by blank lines. *)
Theorem built_index_is_loaded (st st1 : state)
    (userId documentId content : string) (cs ov : nat) (now : Z)
    (dir : string) (docs : list string) (vectors : store) :
  buildIndex userId documentId content cs ov now st = (Ok dir, st1) ->
  createDocuments cs ov content = Ok docs ->
  storeCache st !! dir = None ->
  has_api_key = true ->
  List.filter usable docs <> [] ->
  fromDocuments (List.filter usable docs) = Ok vectors ->
  loadIndex userId documentId st1
  = (Ok (Some vectors),
     set_storeCache st1 (<[dir := vectors]> (storeCache st1)))
  /\ (forall question k,
        blank question = false ->
        (retrieveTopK userId documentId question k st1).1
        = Ok match similaritySearch vectors question (Z.max 1 k) with
             | Ok results =>
                 if List.length results =? 0 then EmptyString
                 else join blank_line results
             | Throw _ => EmptyString
             end).
Proof.
  intros Hbuild Hdocs Hcache Hkey Husable Hembed.
  apply buildIndex_inv in Hbuild as (docs' & Hdocs' & -> & ->).
  rewrite Hdocs in Hdocs'. injection Hdocs' as <-.
  set (st1 := set_disk st _).
  assert (loadIndex userId documentId st1
          = (Ok (Some vectors),
             set_storeCache st1
               (<[getIndexDir userId documentId := vectors]> (storeCache st1))))
    as Hload.
  { erewrite loadIndex_uncached;
      [|subst st1; cbn; apply lookup_insert_eq|exact Hcache].
    cbn [chunks]. rewrite Hkey, Hembed. cbn [negb orb].
    destruct (List.filter usable docs); done. }
  split; [done|]. intros question k Hquestion.
  unfold retrieveTopK, mtry, mbind at 1. rewrite Hload, Hquestion.
  unfold mbind, lift, ret.
  destruct (similaritySearch vectors question (Z.max 1 k)) as [results|e];
    [|done].
  by destruct (List.length results =? 0).
Qed.

(** X22: an index without a usable chunk counts as no index.  When
    [buildIndex] succeeded on a text none of whose chunks is usable,
    [loadIndex] reports that there is no index and [retrieveTopK]
    returns the empty context for every question, both without a
    change of state. *)
Theorem index_without_chunks_is_no_index (st st1 : state)
    (userId documentId content : string) (cs ov : nat) (now : Z)
    (dir : string) (docs : list string) :
  buildIndex userId documentId content cs ov now st = (Ok dir, st1) ->
  createDocuments cs ov content = Ok docs ->
  Forall (fun chunk => usable chunk = false) docs ->
  storeCache st !! dir = None ->
  loadIndex userId documentId st1 = (Ok None, st1)
  /\ (forall question k,
        retrieveTopK userId documentId question k st1 = (Ok EmptyString, st1)).
Proof.
  intros Hbuild Hdocs Hshort Hcache.
  apply buildIndex_inv in Hbuild as (docs' & Hdocs' & -> & ->).
  rewrite Hdocs in Hdocs'. injection Hdocs' as <-.
  set (st1 := set_disk st _).
  assert (loadIndex userId documentId st1 = (Ok None, st1)) as Hload.
  { erewrite loadIndex_uncached;
      [|subst st1; cbn; apply lookup_insert_eq|exact Hcache].
    cbn [chunks]. rewrite (filter_usable_none docs Hshort). cbn.
    by rewrite orb_true_r. }
  split; [done|]. intros question k.
  unfold retrieveTopK, mtry, mbind. by rewrite Hload.
Qed.

(** X23: a store that [loadIndex] returned stays in use for the life of
    the process: the next call returns the same store without changing
    anything, and so does a call after the document has been indexed
    again, whatever the new text is (the cache of stores is not
    refreshed by [buildIndex]). *)
Theorem loaded_store_is_reused (st st1 : state) (userId documentId : string)
    (vectors : store) :
  loadIndex userId documentId st = (Ok (Some vectors), st1) ->
  loadIndex userId documentId st1 = (Ok (Some vectors), st1)
  /\ (forall content cs ov now,
        (loadIndex userId documentId
           (buildIndex userId documentId content cs ov now st1).2).1
        = Ok (Some vectors)).
Proof.
  intros Hload.
  assert (is_Some (disk st1 !! indexPath userId documentId)
          /\ storeCache st1 !! getIndexDir userId documentId = Some vectors)
    as [Hfile Hcache].
  { revert Hload. unfold loadIndex, mtry, mbind at 1, get_state, existsSync.
    case_bool_decide as Hfile; cbn [negb]; [|done].
    destruct (storeCache st !! getIndexDir userId documentId) as [cached|] eqn:Hc.
    { by intros [= <- <-]. }
    destruct has_api_key; cbn [negb]; [|done].
    destruct (List.length _ =? 0); [done|].
    unfold mbind, lift, modify, ret.
    destruct (fromDocuments _) as [v|e]; [|done].
    intros [= <- <-]. cbn. split; [done|]. apply lookup_insert_eq. }
  split; [by apply loadIndex_cached|].
  intros content cs ov now.
  destruct (buildIndex_frame userId documentId content cs ov now st1)
    as ((_ & _ & Hstores & _) & _ & Hkept).
  rewrite (loadIndex_cached _ _ _ vectors); [done|by apply Hkept|].
  by rewrite Hstores.
Qed.

End IndexRoundTripProperties.

Lemma built_index_witness :
  let built :=
    @Rag.buildIndex Demo.external "u1" "d1" Demo.lease 1000 150 0 Demo.fresh in
  @Rag.loadIndex Demo.external "u1" "d1" built.2
  = (Ok (Some [Demo.lease]),
     set_storeCache built.2
       (<[Rag.getIndexDir "u1" "d1" := [Demo.lease]]> (storeCache built.2)))
  /\ (forall question k,
        Rag.blank question = false ->
        (@Rag.retrieveTopK Demo.external "u1" "d1" question k built.2).1
        = Ok match @similaritySearch Demo.external [Demo.lease] question
                     (Z.max 1 k) with
             | Ok results =>
                 if List.length results =? 0 then EmptyString
                 else join Rag.blank_line results
             | Throw _ => EmptyString
             end).
Proof.
  apply (@built_index_is_loaded Demo.external Demo.fresh
           (@Rag.buildIndex Demo.external "u1" "d1" Demo.lease 1000 150 0
              Demo.fresh).2
           "u1" "d1" Demo.lease 1000 150 0%Z (Rag.getIndexDir "u1" "d1")
           [Demo.lease] [Demo.lease]); try reflexivity.
  intros Heq. vm_compute in Heq. discriminate Heq.
Defined.

Lemma index_without_chunks_witness :
  let built :=
    @Rag.buildIndex Demo.external "u1" "d1" "hello" 1000 150 0 Demo.fresh in
  @Rag.loadIndex Demo.external "u1" "d1" built.2 = (Ok None, built.2)
  /\ (forall question k,
        @Rag.retrieveTopK Demo.external "u1" "d1" question k built.2
        = (Ok EmptyString, built.2)).
Proof.
  apply (@index_without_chunks_is_no_index Demo.external Demo.fresh
           (@Rag.buildIndex Demo.external "u1" "d1" "hello" 1000 150 0
              Demo.fresh).2
           "u1" "d1" "hello" 1000 150 0%Z (Rag.getIndexDir "u1" "d1")
           ["hello"]); try reflexivity.
  by repeat constructor.
Defined.

Lemma loaded_store_witness :
  let loaded := @Rag.loadIndex Demo.external "u1" "d1" Demo.stored in
  @Rag.loadIndex Demo.external "u1" "d1" loaded.2
  = (Ok (Some [Demo.clause]), loaded.2)
  /\ (forall content cs ov now,
        (@Rag.loadIndex Demo.external "u1" "d1"
           (@Rag.buildIndex Demo.external "u1" "d1" content cs ov now
              loaded.2).2).1
        = Ok (Some [Demo.clause])).
Proof.
  apply (@loaded_store_is_reused Demo.external Demo.stored
           (@Rag.loadIndex Demo.external "u1" "d1" Demo.stored).2
           "u1" "d1" [Demo.clause]).
  vm_compute. reflexivity.
Defined.

(** ** The text extractor: error messages and the dispatch *)

Section ExtractorDispatchProperties.
Context `{External}.
Import Helpers.

Lemma friendly_message_cases message :
  friendly_message message
  = "The file appears to be corrupted or in an unsupported format"
  \/ friendly_message message = "The file is empty"
  \/ friendly_message message = "Failed to process the document"
  \/ (friendly_message message = message
      /\ (includes "File type" message = true
          \/ includes "Unsupported" message = true)).
Proof.
  unfold friendly_message.
  destruct (includes "unsupported file format" message
            || includes "Invalid PDF structure" message); [by left|].
  destruct (includes "File is empty" message); [by right; left|].
  destruct (includes "File type" message) eqn:Htype; cbn [orb].
  { right; right; right. split; [done|by left]. }
  destruct (includes "Unsupported" message) eqn:Hunsupported.
  { right; right; right. split; [done|by right]. }
  by right; right; left.
Qed.

(** X10: whatever goes wrong in [extractTextFromFile], the message of
    the error it throws is one of three fixed sentences, or a message
    that names a file type or says "Unsupported"; no other message of
    a parser, of the file system or of the network gets through. *)
Theorem extraction_errors_are_classified (st : state) (fileInput : file_input)
    (mimeType : string) (isUrl : bool) (message : string) :
  extractTextFromFile st fileInput mimeType isUrl = Throw message ->
  message = "The file appears to be corrupted or in an unsupported format"
  \/ message = "The file is empty"
  \/ message = "Failed to process the document"
  \/ includes "File type" message = true
  \/ includes "Unsupported" message = true.
Proof.
  unfold extractTextFromFile, try_catch.
  match goal with |- context [match ?body with _ => _ end] =>
    destruct body as [text|e] end; [done|].
  intros [= <-].
  destruct (friendly_message_cases e) as [->|[->|[->|[-> [Ht|Hu]]]]]; auto.
Qed.

(** The declared type alone decides how a buffer is read, and
    every type other than PDF and DOCX is read as text: for a buffer
    that is not empty and a declared type that is not one of the two
    (in any letter case), the result is the UTF-8 decoding of the
    buffer, unchanged, when the decoding succeeds. *)
Theorem other_types_are_read_as_text (st : state) (fileBuffer : list byte)
    (mimeType text : string) :
  fileBuffer <> [] ->
  truthy mimeType = true ->
  toLowerCase mimeType <> "application/pdf" ->
  toLowerCase mimeType <> "pdf" ->
  toLowerCase mimeType
  <> "application/vnd.openxmlformats-officedocument.wordprocessingml.document" ->
  toLowerCase mimeType <> "docx" ->
  buffer_toString fileBuffer = Ok text ->
  extractTextFromFile st (InBuffer fileBuffer) mimeType false = Ok text.
Proof.
  intros Hbuffer Htype Hpdf1 Hpdf2 Hdocx1 Hdocx2 Hdecode.
  unfold extractTextFromFile. cbn [input_falsy read_input is_http_string orb bind].
  destruct fileBuffer as [|b fileBuffer]; [done|]. cbn [List.length Nat.eqb].
  unfold or_else at 1. rewrite Htype.
  unfold extract_by_type.
  rewrite !(proj2 (String.eqb_neq _ _)) by done. cbn [orb].
  rewrite Hdecode. by repeat case_match.
Qed.

End ExtractorDispatchProperties.

Lemma extraction_errors_witness :
  "Failed to process the document"
  = "The file appears to be corrupted or in an unsupported format"
  \/ "Failed to process the document" = "The file is empty"
  \/ "Failed to process the document" = "Failed to process the document"
  \/ includes "File type" "Failed to process the document" = true
  \/ includes "Unsupported" "Failed to process the document" = true.
Proof.
  apply (@extraction_errors_are_classified Demo.external Demo.fresh
           (InString "uploads/user-u1/missing.pdf") "application/pdf" false).
  reflexivity.
Defined.

Lemma other_types_witness :
  @Helpers.extractTextFromFile Demo.external Demo.fresh
    (InBuffer [x7b; x7d]) "Application/JSON" false
  = Ok "{}".
Proof.
  apply (@other_types_are_read_as_text Demo.external Demo.fresh
           [x7b; x7d] "Application/JSON" "{}"); try reflexivity;
    intros Heq; discriminate Heq.
Defined.

(** ** The routes: what a request leaves behind *)

Section RouteProperties.
Context `{External}.
Import FileStorage Rag Helpers Documents.

(** A file that [getUserFile] returns is an entry of the user's list,
    which is in memory afterwards. *)
Lemma getUserFile_found st st1 userId documentId file :
  getUserFile userId documentId st = (Ok (Some file), st1) ->
  listed st1 userId documentId (fun found => found = file).
Proof.
  unfold getUserFile, mbind, ensureUserFiles, userFiles_get, ret.
  destruct (userFiles st !! userId) as [files|] eqn:Hfiles.
  - intros [= Hfind <-]. by exists files, file.
  - destruct (inherited userId) as [[[|len]|]|]; cbn; try done.
    intros [= Hfind <-]. eexists _, file. cbn.
    by rewrite lookup_insert_eq.
Qed.

Lemma listed_in_memory st userId documentId P :
  listed st userId documentId P ->
  exists file, getUserFile userId documentId st = (Ok (Some file), st) /\ P file.
Proof.
  intros (files & file & Hfiles & Hfind & HP). exists file.
  by rewrite (getUserFile_in_memory _ _ _ _ Hfiles), Hfind.
Qed.

Lemma listed_same_list st st1 userId documentId P :
  userFiles st1 = userFiles st ->
  listed st userId documentId P -> listed st1 userId documentId P.
Proof. intros Heq (files & file & ?). exists files, file. by rewrite Heq. Qed.

(** A save that returns has cached the text, and it keeps the entry of
    the document up to its content marks. *)
Lemma saveDocumentContent_inv st st1 userId documentId content now b :
  saveDocumentContent userId documentId content now st = (Ok b, st1) ->
  truthy userId = true /\ truthy documentId = true
  /\ documentContents st1 !! contentKey userId documentId = Some content.
Proof.
  intros Hsave. unfold truthy.
  destruct (falsy userId) eqn:Hu;
    [by unfold saveDocumentContent in Hsave; rewrite Hu in Hsave|].
  destruct (falsy documentId) eqn:Hd;
    [by unfold saveDocumentContent in Hsave; rewrite Hu, Hd in Hsave|].
  destruct (falsy content) eqn:Hc;
    [by unfold saveDocumentContent in Hsave; rewrite Hu, Hd, Hc in Hsave|].
  split; [done|]. split; [done|].
  destruct (save_content_ok st userId documentId content now)
    as (st2 & Hok & Hmem & _); try (unfold truthy; by rewrite ?Hu, ?Hd, ?Hc).
  rewrite Hok in Hsave. injection Hsave as _ <-.
  rewrite Hmem. apply lookup_insert_eq.
Qed.

Lemma saveDocumentContent_listed st userId documentId content now user document
    (P : fileInfo -> Prop) :
  (forall file len, P file -> P (mark_content file len now)) ->
  listed st user document P ->
  listed (saveDocumentContent userId documentId content now st).2 user document P.
Proof.
  intros Hmark Hlisted.
  destruct (falsy userId || falsy documentId || falsy content) eqn:Hfalsy.
  { unfold saveDocumentContent. by rewrite Hfalsy. }
  apply orb_false_iff in Hfalsy as [[Hu Hd]%orb_false_iff Hc].
  pose proof (save_content_list st userId documentId content now) as Hlist.
  unfold truthy in Hlist. rewrite Hu, Hd, Hc in Hlist.
  specialize (Hlist eq_refl eq_refl eq_refl).
  destruct Hlisted as (files & file & Hfiles & Hfind & HP).
  destruct (userFiles st !! userId) as [files'|] eqn:Hfiles';
    [|exists files, file; by rewrite Hlist].
  destruct (findIndex documentId files') as [index|] eqn:Hidx;
    [|exists files, file; by rewrite Hlist].
  destruct (decide (user = userId)) as [->|Hne].
  - rewrite Hfiles in Hfiles'. injection Hfiles' as <-.
    destruct (decide (document = documentId)) as [->|Hdoc].
    + eexists _, _. rewrite Hlist, lookup_insert_eq. split; [done|].
      rewrite (find_alter documentId) by done. rewrite Hfind. split; [done|].
      by apply Hmark.
    + eexists _, file. rewrite Hlist, lookup_insert_eq. split; [done|].
      by rewrite (find_alter_other documentId).
  - exists files, file. by rewrite Hlist, lookup_insert_ne.
Qed.

(** For a user whose list is in memory, [getDocumentContent] leaves
    the lists alone. *)
Lemma getDocumentContent_keeps_lists st userId documentId files :
  userFiles st !! userId = Some files ->
  userFiles (getDocumentContent userId documentId st).2 = userFiles st.
Proof.
  intros Hfiles. unfold getDocumentContent.
  destruct (falsy userId || falsy documentId); [done|].
  unfold mtry, mbind at 1, get_state.
  destruct (documentContents st !! contentKey userId documentId); [done|].
  unfold mbind at 1. rewrite content_from_disk_nothing.
  unfold mbind at 1. rewrite (getUserFile_in_memory _ _ _ _ Hfiles).
  destruct (find documentId files) as [file|]; [|done].
  unfold content_from_url. destruct (contentUrl file) as [url|]; [|done].
  destruct (truthy url); [|done].
  unfold mtry, mbind at 1, lift.
  by destruct (fetch_text url) as [[response|]|e].
Qed.

Lemma loadIndex_keeps_lists st userId documentId r st1 :
  loadIndex userId documentId st = (r, st1) ->
  userFiles st1 = userFiles st /\ documentContents st1 = documentContents st.
Proof.
  unfold loadIndex, mtry, mbind at 1, get_state.
  destruct (negb _); [by intros [= <- <-]|].
  destruct (storeCache st !! _); [by intros [= <- <-]|].
  destruct (negb has_api_key); [by intros [= <- <-]|].
  destruct (List.length _ =? 0); [by intros [= <- <-]|].
  unfold mbind, lift, modify, ret.
  destruct (fromDocuments _); by intros [= <- <-].
Qed.

Lemma ensure_index_keeps_lists st userId documentId content now :
  exists st1,
    ensure_index userId documentId content now st = (Ok tt, st1)
    /\ userFiles st1 = userFiles st
    /\ documentContents st1 = documentContents st.
Proof.
  unfold ensure_index, mtry, mbind at 1.
  destruct (loadIndex userId documentId st) as [[[vectors|]|e] st2] eqn:Hload;
    apply loadIndex_keeps_lists in Hload as [Hl1 Hl2];
    [by eexists|  |by eexists].
  unfold mbind.
  destruct (buildIndex_frame userId documentId content 1000 150 now st2)
    as ((Hb1 & Hb2 & _) & _).
  unfold buildIndex_default.
  destruct (buildIndex _ _ _ _ _ _ st2) as [[dir|e] st3]; cbn [snd] in Hb1, Hb2;
    eexists; (split; [reflexivity|]); by rewrite Hb1, Hb2.
Qed.

(** The content a route re-extracted from the original file. *)
Lemma reextract_inv st st1 userId documentId path file now content :
  reextract userId documentId path file now st = (Ok content, st1) ->
  truthy content = true ->
  truthy userId = true /\ truthy documentId = true
  /\ documentContents st1 !! contentKey userId documentId = Some content
  /\ st1 = (saveDocumentContent userId documentId content now st).2.
Proof.
  unfold reextract, mbind at 1, get_state, mbind at 1, lift.
  destruct (extractTextFromFile st (InString path) (mimeType file) false)
    as [text|e]; [|done].
  intros Hrun Htruthy. apply mbind_Ok_inv in Hrun as (b & st2 & Hsave & Hret).
  injection Hret as <- <-. rewrite Htruthy in Hsave.
  destruct (saveDocumentContent_inv _ _ _ _ _ _ _ Hsave) as (? & ? & ?).
  by rewrite Hsave.
Qed.

(** X24: when the content route answers with a text, that text is in
    the content store afterwards: [getDocumentContent] returns it from
    the memory cache, also when the route had to extract it again from
    the original file. *)
Theorem content_route_answer_is_stored (st st1 : state)
    (userId documentId content : string) (now : Z) :
  getContent userId documentId now st = (Ok (Success content), st1) ->
  getDocumentContent userId documentId st1 = (Ok (Some content), st1).
Proof.
  intros Hroute.
  assert (truthy userId = true /\ truthy documentId = true
          /\ documentContents st1 !! contentKey userId documentId = Some content)
    as (Hu & Hd & Hmem); [|by apply load_from_memory].
  revert Hroute. unfold getContent, mtry at 1, mbind at 1.
  destruct (getUserFile userId documentId st) as [[[file|]|e0] st0]; try done.
  unfold mtry at 1, mbind at 1.
  destruct (getDocumentContent userId documentId st0) as [[content0|e1] sA]
    eqn:Hload; [|done].
  destruct (content_truthy content0) eqn:Htruthy.
  { destruct content0 as [text|]; [|done]. intros [= <- <-].
    exact (loaded_content_cached _ _ _ _ _ Hload). }
  unfold mbind at 1, get_state.
  destruct (has_local_file sA file) as [path|].
  - unfold mbind at 1, mbind at 1.
    destruct (reextract userId documentId path file now sA) as [[text|e2] sB]
      eqn:Hextract; [|done].
    cbn [ret content_truthy]. destruct (truthy text) eqn:Htext; [|done].
    intros [= <- <-].
    by destruct (reextract_inv _ _ _ _ _ _ _ _ Hextract Htext) as (? & ? & ? & _).
  - unfold mbind at 1, ret. by rewrite Htruthy.
Qed.

Lemma generateSummary_keeps_lists text documentId ip fileName t1 t2 t3 st :
  exists text1 st1,
    generateSummary text documentId ip fileName t1 t2 t3 st = (Ok text1, st1)
    /\ userFiles st1 = userFiles st
    /\ documentContents st1 = documentContents st.
Proof.
  destruct (generateSummary_frame text documentId ip fileName t1 t2 t3 st)
    as (text1 & counts & cache & ->).
  by eexists _, _.
Qed.

(** The fallback of the summary route answers with an extractive
    summary or not at all. *)
Lemma summary_fallback_extractive userId documentId st reply st1 :
  summary_fallback userId documentId st = (Ok reply, st1) ->
  exists text, reply = ExtractiveSummary text.
Proof.
  unfold summary_fallback, mbind at 1, mtry, mbind at 1.
  destruct (getDocumentContent userId documentId st) as [[content|e] st2];
    [|done].
  destruct (content_truthy content); cbn [ret]; [|done].
  intros [= <- <-]. eauto.
Qed.

(** What the summary route leaves behind when it has generated a
    summary. *)
Lemma getSummary_generated st st1 userId documentId ip c text :
  truthy userId = true ->
  getSummary userId documentId ip c st = (Ok (Summary text false), st1) ->
  listed st1 userId documentId
    (fun file =>
       summary file = Some text
       /\ String.eqb (status file) "processing" = false
       /\ String.eqb (status file) "error" = false).
Proof.
  intros Hu. unfold getSummary, mtry at 1, mbind at 1.
  destruct (getUserFile userId documentId st) as [[[file|]|e0] st0] eqn:Hfile;
    [|done|by destruct (String.eqb e0 _)].
  assert (listed st0 userId documentId (fun f => status f = status file))
    as Hlisted.
  { destruct (getUserFile_found _ _ _ _ _ Hfile)
      as (files & found & ? & ? & ->). by exists files, file. }
  clear Hfile.
  destruct (String.eqb (status file) "processing") eqn:Hprocessing; [done|].
  destruct (String.eqb (status file) "error") eqn:Herror; [done|].
  destruct (content_truthy (summary file)); [done|].
  unfold mtry at 1.
  match goal with |- context [mbind (getDocumentContent userId documentId) ?k st0] =>
    destruct (mbind (getDocumentContent userId documentId) k st0)
      as [[reply|e1] st2] eqn:Hbody end.
  2:{ destruct (summary_fallback userId documentId st2) as [[reply|e2] st3]
        eqn:Hfallback.
      - apply summary_fallback_extractive in Hfallback as [extract ->]. done.
      - by destruct (String.eqb e2 _). }
  intros [= -> <-].
  apply mbind_Ok_inv in Hbody as (content0 & sA & Hload & Hbody).
  apply mbind_Ok_inv in Hbody as (sA' & sA'' & Hget & Hbody).
  injection Hget as <- <-.
  apply mbind_Ok_inv in Hbody as (content1 & sB & Hcontent & Hbody).
  destruct (content_truthy content1) eqn:Htruthy; [|done]. cbn [negb] in Hbody.
  apply mbind_Ok_inv in Hbody as ([] & sC & Hindex & Hbody).
  apply mbind_Ok_inv in Hbody as (text1 & sD & Hsummary & Hbody).
  apply mbind_Ok_inv in Hbody as ([] & sE & Hstore & Hbody).
  injection Hbody as <- <-.
  (* the list through the steps *)
  assert (listed sA userId documentId (fun f => status f = status file)) as HA.
  { destruct Hlisted as (files & f & Hfiles & ?).
    apply (listed_same_list st0); [|by exists files, f].
    pose proof (getDocumentContent_keeps_lists st0 userId documentId files Hfiles)
      as Hkeep. by rewrite Hload in Hkeep. }
  assert (listed sB userId documentId (fun f => status f = status file)) as HB.
  { destruct (if content_truthy content0 then None else has_local_file sA file)
      as [path|]; [|by injection Hcontent as _ <-].
    apply mbind_Ok_inv in Hcontent as (extracted & sB' & Hextract & Hret).
    injection Hret as <- <-. cbn [content_truthy] in Htruthy.
    destruct (reextract_inv _ _ _ _ _ _ _ _ Hextract Htruthy) as (_ & _ & _ & ->).
    by apply saveDocumentContent_listed. }
  assert (listed sD userId documentId (fun f => status f = status file)) as HD.
  { destruct (ensure_index_keeps_lists sB userId documentId
                (default EmptyString content1) (t_index c))
      as (sC' & HsC & HlistC & _).
    rewrite HsC in Hindex. injection Hindex as <-.
    destruct (generateSummary_keeps_lists (default EmptyString content1)
                documentId ip (Some (originalName file))
                (t_check c) (t_limit c) (t_store c) sC')
      as (text2 & sD' & HsD & HlistD & _).
    rewrite HsD in Hsummary. injection Hsummary as _ <-.
    apply (listed_same_list sB); [by rewrite HlistD, HlistC|done]. }
  destruct HD as (files & f & Hfiles & Hfind & Hstatus).
  revert Hstore. unfold store_summary, mbind.
  rewrite (getUserFiles_in_memory _ _ _ Hu Hfiles).
  destruct (findIndex_is_Some _ _ _ Hfind) as [index Hidx]. rewrite Hidx.
  intros [= <-]. eexists _, _. cbn. rewrite lookup_insert_eq. split; [done|].
  rewrite (find_alter documentId) by done. rewrite Hfind. cbn.
  split; [reflexivity|]. cbn. by rewrite Hstatus.
Qed.

(** X25: a summary that the summary route has generated is kept with
    the document: when the text is not empty, every later request for
    the summary of the document, from whatever caller and at whatever
    time, is answered with that text and the flag [isCached], and
    changes nothing (no call of the model, no use of the quota). *)
Theorem generated_summary_is_kept_with_the_document (st st1 : state)
    (userId documentId ip text : string) (c : clock) :
  truthy userId = true ->
  truthy text = true ->
  getSummary userId documentId ip c st = (Ok (Summary text false), st1) ->
  forall ip' c',
    getSummary userId documentId ip' c' st1 = (Ok (Summary text true), st1).
Proof.
  intros Hu Htext Hfirst ip' c'.
  destruct (getSummary_generated _ _ _ _ _ _ _ Hu Hfirst)
    as (files & file & Hfiles & Hfind & Hsummary & Hprocessing & Herror).
  unfold getSummary, mtry at 1, mbind at 1.
  rewrite (getUserFile_in_memory _ _ _ _ Hfiles), Hfind.
  rewrite Hprocessing, Herror, Hsummary. cbn [content_truthy default].
  by rewrite Htext.
Qed.

(** X11: a question about a listed document whose text is in the
    content store is always answered, and the answer is built on what
    [retrieveTopK] returns for the question and four chunks: whatever
    the retrieval index, the vector store and the generative model do,
    the ask route sends success with the answer of [askQuestion] for
    the question, on the retrieved context if it is not blank and on
    the first 8000 code units of the text otherwise, and the state it
    leaves is the one the retrieval leaves. *)
Theorem ask_answers_when_content_is_stored (st : state)
    (userId documentId question content : string) (now : Z) :
  document_question question ->
  truthy userId = true -> truthy documentId = true ->
  listed st userId documentId (fun _ => True) ->
  documentContents st !! contentKey userId documentId = Some content ->
  truthy content = true ->
  exists retrieved st1,
    retrieveTopK userId documentId question 4 st = (Ok retrieved, st1)
    /\ ask userId documentId (VString question) now st
       = (Ok (Success
                (askQuestion question
                   (if truthy retrieved && (0 <? String.length (trim retrieved))
                    then retrieved
                    else truncate 8000 content))), st1).
Proof.
  intros (Hvalid & Hgreeting & Hidentity) Hu Hd
    (files & file & Hfiles & Hfind & _) Hmem Htruthy.
  destruct (retrieveTopK_total userId documentId question 4 st)
    as (retrieved & st1 & Hretrieve).
  exists retrieved, st1. split; [done|].
  unfold ask. rewrite Hvalid, Hgreeting, Hidentity.
  unfold mtry at 1, mbind at 1.
  rewrite (getUserFile_in_memory _ _ _ _ Hfiles), Hfind.
  unfold mtry at 1, mbind at 1.
  rewrite (load_from_memory _ _ _ _ Hu Hd Hmem).
  unfold mbind at 1, get_state.
  assert (content_truthy (Some content) = true) as Hstored by exact Htruthy.
  rewrite Hstored. unfold mbind at 1, ret at 1. rewrite Hstored. cbn [negb].
  unfold mbind at 1, choose_context, mtry, mbind at 1.
  rewrite Hretrieve.
  by destruct (truthy retrieved && (0 <? String.length (trim retrieved))).
Qed.

End RouteProperties.

Lemma ask_answers_witness :
  exists retrieved st1,
    @Rag.retrieveTopK Demo.external "u1" "d1" "When does the lease end?" 4
      Demo.stored
    = (Ok retrieved, st1)
    /\ @Documents.ask Demo.external "u1" "d1"
         (Documents.VString "When does the lease end?") 5 Demo.stored
       = (Ok (Documents.Success
                (@Documents.askQuestion Demo.external "When does the lease end?"
                   (if truthy retrieved && (0 <? String.length (trim retrieved))
                    then retrieved
                    else Documents.truncate 8000 Demo.clause))), st1).
Proof.
  apply (@ask_answers_when_content_is_stored Demo.external Demo.stored
           "u1" "d1" "When does the lease end?" Demo.clause 5%Z).
  - repeat split; vm_compute; reflexivity.
  - reflexivity.
  - reflexivity.
  - exists [Demo.entry], Demo.entry. split; [reflexivity|].
    split; [reflexivity|exact I].
  - reflexivity.
  - reflexivity.
Defined.

Lemma content_route_witness :
  let answered :=
    @Documents.getContent Demo.external "u1" "d1" 5 (restart Demo.stored) in
  @FileStorage.getDocumentContent Demo.external "u1" "d1" answered.2
  = (Ok (Some "The"), answered.2).
Proof.
  apply (@content_route_answer_is_stored Demo.external (restart Demo.stored)
           (@Documents.getContent Demo.external "u1" "d1" 5
              (restart Demo.stored)).2
           "u1" "d1" "The" 5%Z).
  vm_compute. reflexivity.
Defined.

Lemma generated_summary_kept_witness :
  let answered :=
    @Documents.getSummary Demo.external "u1" "d1" "10.0.0.7" Demo.noon
      Demo.stored in
  @Documents.getSummary Demo.external "u1" "d1" "10.0.0.8" Demo.noon answered.2
  = (Ok (Documents.Summary "A generated summary." true), answered.2).
Proof.
  apply (@generated_summary_is_kept_with_the_document Demo.external Demo.stored
           (@Documents.getSummary Demo.external "u1" "d1" "10.0.0.7" Demo.noon
              Demo.stored).2
           "u1" "d1" "10.0.0.7" "A generated summary." Demo.noon);
    [reflexivity|reflexivity|].
  vm_compute. reflexivity.
Defined.

(** ** The upload pipeline *)

Section PipelineProperties.
Context `{External}.
Import FileStorage Rag Helpers Documents.

Lemma findIndex_alter fileId files index (f : fileInfo -> fileInfo) :
  (forall file, id (f file) = id file) ->
  findIndex fileId (alter f index files) = findIndex fileId files.
Proof.
  intros Hid. revert index.
  induction files as [|x files IH]; intros [|index]; cbn; try done.
  - by rewrite Hid.
  - by rewrite IH.
Qed.

(** [replace_entry] on a document that is listed: the entry found
    afterwards is the new one, and nothing but the list changes. *)
Lemma replace_entry_listed st userId fileId file :
  truthy userId = true ->
  id file = fileId ->
  listed st userId fileId (fun _ => True) ->
  exists st1,
    replace_entry userId fileId file st = (Ok tt, st1)
    /\ getUserFile userId fileId st1 = (Ok (Some file), st1)
    /\ documentContents st1 = documentContents st
    /\ disk st1 = disk st.
Proof.
  intros Hu Hid (files & old & Hfiles & Hfind & _).
  unfold replace_entry, mbind.
  rewrite (getUserFiles_in_memory _ _ _ Hu Hfiles).
  destruct (findIndex_is_Some _ _ _ Hfind) as [index Hidx]. rewrite Hidx.
  eexists. split; [reflexivity|]. cbn. split; [|done].
  rewrite (getUserFile_in_memory _ _ _ (<[index := file]> files))
    by (cbn; apply lookup_insert_eq).
  by rewrite find_insert.
Qed.

(** X27: an upload with a buffer that is not empty, on a file system
    that accepts the writes, is stored and listed for a user whose
    name is not a property of [Object.prototype]: the bytes are in
    the file the entry points to, and the entry found under the new
    identifier is the one returned, in status "processing". *)
Theorem upload_is_stored_and_listed (st : state) (file : upload_file)
    (userId fileId : string) (now : Z) (fileBuffer : list byte) :
  truthy userId = true ->
  inherited userId = None ->
  buffer file = Some fileBuffer ->
  fileBuffer <> [] ->
  io_fails (getUserUploadsDir userId) = false ->
  io_fails (upload_path file userId fileId) = false ->
  upload_path file userId fileId <> getUserFilesPath userId ->
  let updatedFile := with_status (uploaded_entry file userId fileId) "processing" in
  let uploaded := processUploadedFile (Some file) userId fileId now st in
  uploaded.1 = Ok updatedFile
  /\ localPath updatedFile = Some (upload_path file userId fileId)
  /\ disk uploaded.2 !! upload_path file userId fileId = Some (Bytes fileBuffer)
  /\ getUserFile userId fileId uploaded.2 = (Ok (Some updatedFile), uploaded.2).
Proof.
  intros Hu Hplain Hbuffer Hne Hdir Hpath Hjson updatedFile uploaded.
  assert (exists st1,
            uploaded = (Ok updatedFile, st1)
            /\ disk st1 !! upload_path file userId fileId = Some (Bytes fileBuffer)
            /\ getUserFile userId fileId st1 = (Ok (Some updatedFile), st1))
    as (st1 & -> & ? & ?); [|done].
  subst uploaded. unfold processUploadedFile. cbn [base.mbind option_bind].
  rewrite Hbuffer. cbn [fmap option_fmap option_map].
  destruct fileBuffer as [|b fileBuffer]; [done|]. cbn [List.length Nat.eqb].
  unfold mtry, mbind at 1, lift, mkdir. rewrite Hdir.
  unfold mbind at 1, writeFile. rewrite Hpath.
  set (st_w := set_disk st _).
  unfold mbind at 1.
  destruct (addUserFile_spec st_w userId (uploaded_entry file userId fileId) Hu
              (userFiles_get_plain _ _ Hplain))
    as (st_a & -> & Hlist & Hmem & _ & _ & _ & Hdisk).
  assert (listed st_a userId fileId (fun _ => True)) as Hlisted.
  { assert (exists found,
              find fileId (default [] (userFiles st_w !! userId)
                           ++ [uploaded_entry file userId fileId]) = Some found)
      as [found Hfound].
    { rewrite find_app.
      destruct (find fileId (default [] (userFiles st_w !! userId))); [eauto|].
      cbn. rewrite String.eqb_refl. eauto. }
    eexists _, found. by rewrite Hlist, lookup_insert_eq. }
  destruct (replace_entry_listed st_a userId fileId updatedFile Hu eq_refl Hlisted)
    as (st1 & Hreplace & Hfound & _ & Hdisk1).
  unfold mbind at 1. fold updatedFile. rewrite Hreplace. cbn [ret].
  exists st1. split; [done|]. split; [|done].
  rewrite Hdisk1, Hdisk.
  destruct (io_fails (getUserUploadsDir userId) || io_fails (getUserFilesPath userId)).
  - subst st_w. cbn. apply lookup_insert_eq.
  - rewrite lookup_insert_ne by done. subst st_w. cbn. apply lookup_insert_eq.
Qed.

(** X28: the background task completes a listed document whenever the
    text extraction yields a text that is not empty, whatever the
    indexer, the rate limit and the generative model do: the text is
    in the content store, and the entry of the document is replaced by
    one in status "completed" that has the length of the text and a
    summary. *)
Theorem processing_completes_when_text_is_extracted (st : state)
    (file : upload_file) (userId fileId : string) (c : clock) (text : string) :
  truthy userId = true ->
  truthy fileId = true ->
  listed st userId fileId (fun _ => True) ->
  extractTextFromFile st (InString (upload_path file userId fileId))
    (mimetype file) false = Ok text ->
  truthy text = true ->
  let processed := processDocument file userId fileId c st in
  processed.1 = Ok tt
  /\ getDocumentContent userId fileId processed.2 = (Ok (Some text), processed.2)
  /\ exists abstract,
       getUserFile userId fileId processed.2
       = (Ok (Some (completedFile
                      (with_status (uploaded_entry file userId fileId) "processing")
                      (String.length text) abstract (t_done c))),
          processed.2).
Proof.
  intros Hu Hd Hlisted Hextract Htext processed.
  assert (exists st1 abstract,
            processed = (Ok tt, st1)
            /\ documentContents st1 !! contentKey userId fileId = Some text
            /\ getUserFile userId fileId st1
               = (Ok (Some (completedFile
                              (with_status (uploaded_entry file userId fileId)
                                 "processing")
                              (String.length text) abstract (t_done c))),
                  st1))
    as (st1 & abstract & -> & Hmem & Hfound).
  2:{ cbn [fst snd]. split; [done|]. split; [|eauto].
      by apply load_from_memory. }
  subst processed.
  unfold processDocument, mtry at 1, mbind at 1, get_state.
  unfold mbind at 1, lift. rewrite Hextract, (truthy_not_falsy _ Htext).
  unfold mbind at 1.
  destruct (save_content_ok st userId fileId text (t_save c) Hu Hd Htext)
    as (sA & Hsave & HmemA & _).
  assert (save_outcome st userId = Ok true) as Hsaved.
  { destruct Hlisted as (files & _ & Hfiles & _). unfold save_outcome.
    by rewrite (userFiles_get_own _ _ _ Hfiles). }
  rewrite Hsaved in Hsave.
  pose proof (saveDocumentContent_listed st userId fileId text (t_save c)
                userId fileId (fun _ => True) (fun _ _ _ => I) Hlisted) as HA.
  rewrite Hsave in HA |- *. cbn [snd] in HA.
  unfold mbind at 1, mtry at 1, mbind at 1, buildIndex_default.
  destruct (buildIndex_frame userId fileId text 1000 150 (t_index c) sA)
    as ((HlistB & HmemB & _) & _ & _).
  destruct (buildIndex userId fileId text 1000 150 (t_index c) sA)
    as [built sB]; cbn [snd] in HlistB, HmemB.
  assert (match (match built with
                 | Ok a => ret tt sB
                 | Throw e => (Throw e, sB)
                 end) with
          | (Ok a, st') => (Ok a, st')
          | (Throw e, st') => ret tt st'
          end = (Ok tt, sB)) as -> by (by destruct built).
  unfold mbind at 1, mtry at 1.
  destruct (generateSummary_keeps_lists text fileId userId
              (Some (originalname file)) (t_check c) (t_limit c) (t_store c) sB)
    as (abstract & sC & -> & HlistC & HmemC).
  assert (listed sC userId fileId (fun _ => True)) as HC.
  { apply (listed_same_list sA); [by rewrite HlistC, HlistB|done]. }
  destruct (replace_entry_listed sC userId fileId
              (completedFile
                 (with_status (uploaded_entry file userId fileId) "processing")
                 (String.length text) abstract (t_done c)) Hu eq_refl HC)
    as (st1 & Hreplace & Hfound & Hmem1 & _).
  rewrite Hreplace. exists st1, abstract. split; [done|]. split; [|done].
  rewrite Hmem1, HmemC, HmemB, HmemA. apply lookup_insert_eq.
Qed.

(** X29: when the extraction throws or yields the empty text, the
    background task marks the listed document as failed: the entry
    found afterwards is in status "error", and neither the content
    store nor the files have changed. *)
Theorem processing_fails_without_text (st : state) (file : upload_file)
    (userId fileId : string) (c : clock) :
  truthy userId = true ->
  listed st userId fileId (fun _ => True) ->
  (forall text,
     extractTextFromFile st (InString (upload_path file userId fileId))
       (mimetype file) false = Ok text -> text = EmptyString) ->
  let processed := processDocument file userId fileId c st in
  processed.1 = Ok tt
  /\ getUserFile userId fileId processed.2
     = (Ok (Some (errorFile
                    (with_status (uploaded_entry file userId fileId) "processing")
                    (t_done c))),
        processed.2)
  /\ documentContents processed.2 = documentContents st
  /\ disk processed.2 = disk st.
Proof.
  intros Hu Hlisted Hextract processed.
  destruct (replace_entry_listed st userId fileId
              (errorFile
                 (with_status (uploaded_entry file userId fileId) "processing")
                 (t_done c)) Hu eq_refl Hlisted)
    as (st1 & Hreplace & Hfound & Hmem1 & Hdisk1).
  assert (processed = (Ok tt, st1)) as ->; [|done].
  subst processed.
  unfold processDocument, mtry at 1, mbind at 1, get_state.
  unfold mbind at 1, lift.
  destruct (extractTextFromFile st _ (mimetype file) false) as [text|e].
  - by rewrite (Hextract text eq_refl).
  - done.
Qed.

End PipelineProperties.

Lemma upload_witness :
  let updatedFile :=
    Documents.with_status (Documents.uploaded_entry Demo.upload "u1" "d7")
      "processing" in
  let uploaded :=
    @Documents.processUploadedFile Demo.external (Some Demo.upload) "u1" "d7" 5
      Demo.fresh in
  uploaded.1 = Ok updatedFile
  /\ localPath updatedFile = Some (Documents.upload_path Demo.upload "u1" "d7")
  /\ disk uploaded.2 !! Documents.upload_path Demo.upload "u1" "d7"
     = Some (Bytes [x54; x68; x65])
  /\ @FileStorage.getUserFile Demo.external "u1" "d7" uploaded.2
     = (Ok (Some updatedFile), uploaded.2).
Proof.
  apply (@upload_is_stored_and_listed Demo.external Demo.fresh Demo.upload
           "u1" "d7" 5%Z [x54; x68; x65]); try reflexivity;
    intros Heq; discriminate Heq.
Defined.


Lemma processing_completes_witness :
  let uploaded :=
    (@Documents.processUploadedFile Demo.external (Some Demo.upload) "u1" "d7" 5
       Demo.fresh).2 in
  let processed :=
    @Documents.processDocument Demo.external Demo.upload "u1" "d7" Demo.noon
      uploaded in
  processed.1 = Ok tt
  /\ @FileStorage.getDocumentContent Demo.external "u1" "d7" processed.2
     = (Ok (Some "The"), processed.2)
  /\ exists abstract,
       @FileStorage.getUserFile Demo.external "u1" "d7" processed.2
       = (Ok (Some (Documents.completedFile
                      (Documents.with_status
                         (Documents.uploaded_entry Demo.upload "u1" "d7")
                         "processing")
                      (String.length "The") abstract (Documents.t_done Demo.noon))),
          processed.2).
Proof.
  apply (@processing_completes_when_text_is_extracted Demo.external
           (@Documents.processUploadedFile Demo.external (Some Demo.upload)
              "u1" "d7" 5 Demo.fresh).2
           Demo.upload "u1" "d7" Demo.noon "The").
  - reflexivity.
  - reflexivity.
  - exists [Documents.with_status
              (Documents.uploaded_entry Demo.upload "u1" "d7") "processing"],
      (Documents.with_status
         (Documents.uploaded_entry Demo.upload "u1" "d7") "processing").
    split; [vm_compute; reflexivity|]. split; [reflexivity|exact I].
  - vm_compute. reflexivity.
  - reflexivity.
Defined.

Lemma processing_fails_witness :
  let processed :=
    @Documents.processDocument Demo.external Demo.scan "u1" "d1" Demo.noon
      Demo.stored in
  processed.1 = Ok tt
  /\ @FileStorage.getUserFile Demo.external "u1" "d1" processed.2
     = (Ok (Some (Documents.errorFile
                    (Documents.with_status
                       (Documents.uploaded_entry Demo.scan "u1" "d1")
                       "processing")
                    (Documents.t_done Demo.noon))),
        processed.2)
  /\ documentContents processed.2 = documentContents Demo.stored
  /\ disk processed.2 = disk Demo.stored.
Proof.
  apply (@processing_fails_without_text Demo.external Demo.stored Demo.scan
           "u1" "d1" Demo.noon).
  - reflexivity.
  - exists [Demo.entry], Demo.entry. split; [reflexivity|].
    split; [reflexivity|exact I].
  - intros text Hextract. vm_compute in Hextract. discriminate Hextract.
Defined.

(** ** The extractive summary: the selection of sentences *)

Section SelectionProperties.
Import Documents.

Lemma insert_desc_elem {A} (score : A -> float) x y l :
  x ∈ insert_desc score y l -> x = y \/ x ∈ l.
Proof.
  induction l as [|z l IH]; cbn.
  - intros ->%list_elem_of_singleton. by left.
  - destruct (PrimFloat.ltb (score y) (score z)).
    + intros [->|Hin]%elem_of_cons.
      * right. apply list_elem_of_here.
      * destruct (IH Hin) as [->|?]; [by left|]. right.
        by apply list_elem_of_further.
    + intros [->|Hin]%elem_of_cons; [by left|by right].
Qed.

Lemma sort_desc_elem {A} (score : A -> float) x l :
  x ∈ sort_desc score l -> x ∈ l.
Proof.
  induction l as [|y l IH]; cbn; [done|].
  intros [->|Hin]%insert_desc_elem;
    [apply list_elem_of_here|by apply list_elem_of_further, IH].
Qed.

Lemma slice_elem {A} (x : A) start end_ l : x ∈ slice start end_ l -> x ∈ l.
Proof.
  unfold slice. intros (i & Hi & _)%elem_of_take.
  rewrite lookup_drop in Hi. apply list_elem_of_lookup. eauto.
Qed.

Lemma score_all_sentence x sentences :
  x ∈ score_all sentences -> sentence x ∈ sentences.
Proof.
  unfold score_all. intros (i & s & -> & Hs)%elem_of_lookup_imap.
  cbn. apply list_elem_of_lookup. eauto.
Qed.

Lemma bucket_loop_bound (P : string -> Prop) scoredL bucketSize :
  (forall x, x ∈ scoredL -> P (sentence x)) ->
  forall fuel b selected,
    Forall P selected ->
    Forall P (bucket_loop fuel b bucketSize scoredL selected)
    /\ List.length (bucket_loop fuel b bucketSize scoredL selected)
       <= List.length selected + fuel.
Proof.
  intros HP. induction fuel as [|fuel IH]; intros b selected Hsel; cbn.
  { split; [done|lia]. }
  destruct (List.length scoredL <=? b * bucketSize); [split; [done|lia]|].
  destruct (sort_desc score _) as [|top sorted] eqn:Hsort.
  - destruct (IH (S b) selected Hsel). split; [done|lia].
  - assert (Forall P (selected ++ [sentence top])) as Hsel'.
    { apply Forall_app. split; [done|]. apply Forall_singleton, HP.
      apply (slice_elem _ (b * bucketSize)
               (Nat.min (List.length scoredL) (b * bucketSize + bucketSize))).
      apply (sort_desc_elem score). rewrite Hsort. apply list_elem_of_here. }
    destruct (IH (S b) _ Hsel') as [? Hlen]. split; [done|].
    rewrite length_app in Hlen. cbn in Hlen. lia.
Qed.

Lemma global_loop_bound (P : string -> Prop) limit globalTop :
  Forall P globalTop ->
  forall selected,
    Forall P selected ->
    List.length selected < limit ->
    Forall P (global_loop limit globalTop selected)
    /\ List.length (global_loop limit globalTop selected) <= limit.
Proof.
  induction 1 as [|s rest Hs _ IH]; intros selected Hsel Hlen; cbn.
  { split; [done|lia]. }
  destruct (existsb (String.eqb s) selected); [by apply IH|].
  assert (Forall P (selected ++ [s])) as Hsel'.
  { apply Forall_app. split; [done|]. by apply Forall_singleton. }
  assert (List.length (selected ++ [s]) = S (List.length selected)) as Hlen'.
  { rewrite length_app. cbn. lia. }
  destruct (Nat.leb_spec limit (List.length (selected ++ [s]))) as [Hge|Hlt].
  - split; [done|lia].
  - by apply IH.
Qed.

Lemma select_sentences_bound (sentences : list string) :
  List.length (select_sentences sentences) <= 8
  /\ Forall (fun s => s ∈ sentences) (select_sentences sentences).
Proof.
  unfold select_sentences.
  set (scoredL := score_all sentences).
  set (bucketSize := (List.length sentences + bucketCount - 1) / bucketCount).
  destruct (bucket_loop_bound (fun s => s ∈ sentences) scoredL bucketSize
              (fun x Hx => score_all_sentence x sentences Hx)
              bucketCount 0 [] (Forall_nil_2 _))
    as [Hpicked Hlen].
  destruct (global_loop_bound (fun s => s ∈ sentences) (bucketCount + 2)
              (List.map sentence (sort_desc score scoredL))) with
    (selected := bucket_loop bucketCount 0 bucketSize scoredL [])
    as [Hall Hbound].
  - apply Forall_forall. intros s (x & -> & Hx)%list_elem_of_fmap.
    by apply score_all_sentence, (sort_desc_elem score).
  - done.
  - unfold bucketCount in *. cbn [List.length] in Hlen. lia.
  - split; [|done]. unfold bucketCount in *. lia.
Qed.

(** X26: the extractive summary of a text is composed from at most
    eight sentences, and each of them is one of the sentences of the
    text (a piece of the cleaned text between sentence ends, longer
    than 20 code units): the summary is the paragraph made of their
    words, up to the budget. *)
Theorem extractive_summary_takes_sentences_of_the_text (str : string)
    (targetWords : nat) :
  exists selected,
    List.length selected <= 8
    /\ Forall (fun s => s ∈ split_sentences (clean str)) selected
    /\ (truthy (clean str) = true ->
        generateExtractiveSummary (VString str) targetWords
        = finish_paragraph (compose targetWords [] selected)).
Proof.
  exists (select_sentences (split_sentences (clean str))).
  destruct (select_sentences_bound (split_sentences (clean str))) as [Hlen Hall].
  split; [done|]. split; [done|].
  intros Hclean. unfold generateExtractiveSummary. cbn [String_or_empty bind].
  unfold truthy in Hclean. by destruct (falsy (clean str)).
Qed.

End SelectionProperties.

(** ** File names *)

Section FileNameProperties.
Import Helpers FileUtils.

Lemma match_len_unsafe prev c s :
  match_len re_unsafe prev (String c s) = if safe_char c then None else Some 1.
Proof.
  unfold match_len, exec, re_unsafe. rewrite rmatch_char.
  destruct (safe_char c); cbn [negb]; [done|].
  f_equal. cbn [String.length]. lia.
Qed.

Lemma replace_unsafe_cons prev c s :
  replace_go re_unsafe underscore prev (String c s) 0
  = String (if safe_char c then c else "_"%char)
      (replace_go re_unsafe underscore (Some c) s 0).
Proof.
  rewrite replace_go_step, match_len_unsafe.
  by destruct (safe_char c).
Qed.

Lemma replace_unsafe_safe s : forall prev,
  all_safe (replace_go re_unsafe underscore prev s 0) = true.
Proof.
  induction s as [|c s IH]; intros prev; [done|].
  rewrite replace_unsafe_cons. cbn [all_safe]. rewrite IH.
  by destruct (safe_char c) eqn:Hc; [rewrite Hc|].
Qed.

Lemma replace_unsafe_length s : forall prev,
  String.length (replace_go re_unsafe underscore prev s 0) = String.length s.
Proof.
  induction s as [|c s IH]; intros prev; [done|].
  rewrite replace_unsafe_cons. cbn [String.length]. by rewrite IH.
Qed.

Lemma replace_unsafe_id s : forall prev,
  all_safe s = true -> replace_go re_unsafe underscore prev s 0 = s.
Proof.
  induction s as [|c s IH]; intros prev; [done|].
  cbn [all_safe]. intros [Hc Hs]%andb_true_iff.
  rewrite replace_unsafe_cons, Hc. by rewrite IH.
Qed.

Lemma safe_char_not_slash c : safe_char c = true -> Ascii.eqb c "/" = false.
Proof.
  intros Hc. destruct (Ascii.eqb_spec c "/") as [->|]; [|done].
  vm_compute in Hc. discriminate Hc.
Qed.

Lemma strip_trailing_safe s : all_safe s = true -> strip_trailing "/" s = s.
Proof.
  induction s as [|c s IH]; [done|]. cbn [all_safe strip_trailing].
  intros [Hc Hs]%andb_true_iff. rewrite (IH Hs), (safe_char_not_slash c Hc).
  by destruct s.
Qed.

Lemma after_last_safe s : all_safe s = true -> after_last "/" s = None.
Proof.
  induction s as [|c s IH]; [done|]. cbn [all_safe after_last].
  intros [Hc Hs]%andb_true_iff. by rewrite (IH Hs), (safe_char_not_slash c Hc).
Qed.

Lemma basename_safe s : all_safe s = true -> basename s = s.
Proof.
  intros Hs. unfold basename.
  by rewrite (strip_trailing_safe s Hs), (after_last_safe s Hs).
Qed.

Lemma all_safe_no_slash s : all_safe s = true -> includes "/" s = false.
Proof.
  induction s as [|c s IH]; [done|]. cbn [all_safe].
  intros [Hc Hs]%andb_true_iff. cbn [includes startsWith].
  rewrite (IH Hs), Ascii.eqb_sym, (safe_char_not_slash c Hc). done.
Qed.

(** X30: the name [sanitizeFilename] returns is made of letters,
    digits, hyphens, underscores and dots only, so it contains no path
    separator; it is as long as the base name of the argument (every
    other code unit becomes one underscore); and a name that has been
    sanitized is left as it is by a second pass. *)
Theorem sanitized_name_is_safe (filename : string) :
  all_safe (sanitizeFilename filename) = true
  /\ includes "/" (sanitizeFilename filename) = false
  /\ (truthy filename = true ->
      String.length (sanitizeFilename filename)
      = String.length (basename filename))
  /\ sanitizeFilename (sanitizeFilename filename) = sanitizeFilename filename.
Proof.
  assert (all_safe (sanitizeFilename filename) = true) as Hsafe.
  { unfold sanitizeFilename. destruct (falsy filename); [done|].
    apply replace_unsafe_safe. }
  split; [done|]. split; [by apply all_safe_no_slash|]. split.
  - intros Htruthy. unfold sanitizeFilename, truthy in *.
    destruct (falsy filename); [done|]. apply replace_unsafe_length.
  - set (name := sanitizeFilename filename) in *.
    unfold sanitizeFilename at 1. destruct (falsy name) eqn:Hname.
    + by destruct name.
    + unfold replaceAll. rewrite (basename_safe name Hsafe).
      by apply replace_unsafe_id.
Qed.

End FileNameProperties.

(** ** Examples *)

Section Examples.
Import Helpers Rag Documents.

(** An uploaded file of zero bytes, read from its path. *)
Example extract_empty_file :
  let st := set_disk Demo.fresh {[ "uploads/user-u1/empty.txt" := Bytes [] ]} in
  @extractTextFromFile Demo.external st (InString "uploads/user-u1/empty.txt")
    "text/plain" false
  = Throw "The file is empty".
Proof. vm_compute. reflexivity. Qed.

(** The same route with three bytes returns their text. *)
Example extract_small_file :
  @extractTextFromFile Demo.external Demo.stored
    (InString "uploads/user-u1/d1.txt") "text/plain" false
  = Ok "The".
Proof. vm_compute. reflexivity. Qed.

(** A user named as a property of [Object.prototype]: the save caches
    the text and then throws, the upload is refused, the removal
    throws, and no document is found ([toString] is a function without
    parameters, so that [files.length === 0]). *)
Example inherited_name_examples :
  let saved :=
    @FileStorage.saveDocumentContent Demo.external "constructor" "d1" "hello" 0
      Demo.fresh in
  saved.1
  = Throw "Failed to save document content: userFiles[userId].findIndex is not a function"
  /\ documentContents saved.2 !! FileStorage.contentKey "constructor" "d1"
     = Some "hello"
  /\ @FileStorage.addUserFile Demo.external "constructor" (Some Demo.memo)
       Demo.fresh
     = (Throw "Failed to add file: ensureUserFiles(...).push is not a function",
        Demo.fresh)
  /\ @FileStorage.removeUserFile Demo.external "__proto__" "d1" Demo.fresh
     = (Throw "userFiles[userId].findIndex is not a function", Demo.fresh)
  /\ @FileStorage.getUserFile Demo.external "constructor" "d1" Demo.fresh
     = (Throw "files.find is not a function", Demo.fresh)
  /\ @FileStorage.getUserFile Demo.external "toString" "d1" Demo.fresh
     = (Ok None, Demo.fresh).
Proof. vm_compute. repeat split. Qed.

(** Retrieval on the stored document: one chunk for a question, the
    empty string for a blank question and for a user without index,
    and [k = 0] served as [k = 1]. *)
Example retrieve_examples :
  (@retrieveTopK Demo.external "u1" "d1" "When does the lease end?" 4 Demo.stored).1
  = Ok Demo.clause
  /\ (@retrieveTopK Demo.external "u1" "d1" "When does the lease end?" 0 Demo.stored).1
     = Ok Demo.clause
  /\ (@retrieveTopK Demo.external "u1" "d1" "   " 4 Demo.stored).1 = Ok ""
  /\ (@retrieveTopK Demo.external "u2" "d1" "When does the lease end?" 4 Demo.stored).1
     = Ok "".
Proof. vm_compute. repeat split. Qed.

(** The extractive summary of a text of one sentence is the sentence;
    a text whose sentences are all short gives a lone full stop; a
    blank text and a value that cannot be converted give the neutral
    message. *)
Example summary_examples :
  generateExtractiveSummary_default (VString Demo.lease) = Demo.lease
  /\ generateExtractiveSummary_default (VString "Short text.") = "."
  /\ generateExtractiveSummary_default (VString "   ") = neutral_message
  /\ generateExtractiveSummary_default (VOther (Throw "Cannot convert"))
     = neutral_message.
Proof. vm_compute. repeat split. Qed.

(** The amount branch: the [g] flag makes [matchAll] start after the
    match [test] found, so a sentence with a single amount is passed
    over and the overlap ranking answers. *)
Example amount_examples :
  generateExtractiveAnswer (VString "What is the total cost?")
    (VString "The fee is $1,200.50 and $70 per month.")
  = amount_answer "$70" "The fee is $1,200.50 and $70 per month."
  /\ generateExtractiveAnswer (VString "What is the total cost?")
       (VString "The fee is $1,200.50 per month.")
     = "The fee is $1,200.50 per month.".
Proof. vm_compute. repeat split. Qed.

End Examples.
